(** * TDGAN multi-discriminator model: the training step of
    [models/TDGAN_multiD_model.py]

    The class [TDGANMultiDModel] is embedded as functions over an explicit
    record of the attributes of [self].  A Python exception is a [Raise]
    result; every method returns the updated object or the exception.

    PyTorch itself is not part of the program.  Its tensors are modelled by
    the autograd history that produced them (the value is recovered by
    evaluation), a module by its weights, its [requires_grad] flag and its
    accumulated [.grad], and an optimizer by the module whose parameters it
    was built on.  Numeric kernels (networks, losses, Adam) are the fields of
    two interfaces; no algebraic law is assumed of them, so every equation
    below holds with the operands in the order the program applies them. *)

From stdpp Require Import base strings gmap list list_numbers pretty.
From Stdlib Require Import ZArith Lia.

Local Open Scope Z_scope.

(** ** Python results *)

Inductive PyErr : Type :=
  | IndexError
  | KeyError (key : string)
  | AttributeError (name : string)
  | FileNotFoundError (path : string)
  | RuntimeError (msg : string)
  | TypeError (msg : string).

Inductive Res (A : Type) : Type :=
  | Ok (a : A)
  | Raise (e : PyErr).
Arguments Ok {A} a.
Arguments Raise {A} e.

#[global] Instance Res_ret : MRet Res := λ A a, Ok a.
#[global] Instance Res_bind : MBind Res := λ A B f r,
  match r with
  | Ok a => f a
  | Raise e => Raise e
  end.

(** A [for] loop whose body may raise: the state is threaded from left to
    right and the first exception ends the loop. *)
Fixpoint for_each {S X : Type} (body : S → X → Res S) (xs : list X) (s : S) : Res S :=
  match xs with
  | [] => Ok s
  | x :: xs' => s' ← body s x; for_each body xs' s'
  end.

(** [range(a, b)]. *)
Definition range (a b : Z) : list Z := seqZ a (b - a).

(** [l[i]] on a Python list: a negative index counts from the end. *)
Definition py_index {A : Type} (l : list A) (i : Z) : Res A :=
  let n := Z.of_nat (length l) in
  let j := if bool_decide (i < 0) then i + n else i in
  if bool_decide (0 ≤ j < n) then
    match l !! Z.to_nat j with
    | Some x => Ok x
    | None => Raise IndexError
    end
  else Raise IndexError.

(** [d[k]] on a dict. *)
Definition dict_get {V : Type} (d : gmap string V) (k : string) : Res V :=
  match d !! k with
  | Some v => Ok v
  | None => Raise (KeyError k)
  end.

(** Reading an attribute of [self] that may not have been assigned yet. *)
Definition attr {A : Type} (name : string) (a : option A) : Res A :=
  match a with
  | Some x => Ok x
  | None => Raise (AttributeError name)
  end.

(** ** The numeric kernels *)

(** The networks and loss functions the model calls.  [Data] is the content
    of a tensor (an image batch, a feature map, a prediction map or a scalar
    loss: Python does not tell them apart either), [Weights] a module's
    state dict, [Scalar] a Python float.  A generator built with dropout
    draws fresh noise on each call: the draw is the [nat] argument. *)
Class Kernels : Type := {
  Data : Type;
  Weights : Type;
  Scalar : Type;
  generator : Weights → nat → Data → Data;
  discriminator : Weights → Data → Data;
  cat : Data → Data → Data;
  GANLoss : Data → bool → Data;
  L1Loss : Data → Data → Data;
  vgg16_feat : Data → Data;
  perceptual_loss : Data → Data → Data;
  add : Data → Data → Data;
  mul : Data → Scalar → Data;
  (* weight initialisation of the k-th network built by the factory *)
  init_weights_G : nat → Weights;
  init_weights_D : nat → Weights;
  (* whether a checkpoint has the keys and shapes of the generator *)
  matches_generator : Weights → bool
}.

(** The four modules of the model whose parameters autograd can reach. *)
Inductive NetId : Type :=
  | NetG
  | NetG_prev
  | NetD (p : nat).

#[global] Instance NetId_eq_dec : EqDecision NetId.
Proof. solve_decision. Defined.

Section Tensors.
Context `{K : Kernels}.

(** A tensor is the expression autograd recorded for it.  [Const] is a
    tensor without history (batch data, or the result of [detach]).  A
    module call records the weights it ran with and whether those
    parameters required grad when it ran. *)
Inductive Tensor : Type :=
  | Const (d : Data)
  | GenCall (n : NetId) (w : Weights) (rg : bool) (draw : nat) (x : Tensor)
  | DiscCall (n : NetId) (w : Weights) (rg : bool) (x : Tensor)
  | Cat (a b : Tensor)
  | CriterionGAN (pred : Tensor) (target_is_real : bool)
  | CriterionL1 (a b : Tensor)
  | Vgg (x : Tensor)
  | CriterionPerceptual (a b : Tensor)
  | Add (a b : Tensor)
  | Mul (a : Tensor) (k : Scalar).

(** The value a tensor holds. *)
Fixpoint data (t : Tensor) : Data :=
  match t with
  | Const d => d
  | GenCall _ w _ draw x => generator w draw (data x)
  | DiscCall _ w _ x => discriminator w (data x)
  | Cat a b => cat (data a) (data b)
  | CriterionGAN p r => GANLoss (data p) r
  | CriterionL1 a b => L1Loss (data a) (data b)
  | Vgg x => vgg16_feat (data x)
  | CriterionPerceptual a b => perceptual_loss (data a) (data b)
  | Add a b => add (data a) (data b)
  | Mul a k => mul (data a) k
  end.

(** The modules whose parameters a backward pass from [t] reaches. *)
Fixpoint leaves (t : Tensor) : list NetId :=
  match t with
  | Const _ => []
  | GenCall n _ rg _ x | DiscCall n _ rg x =>
      (if rg then [n] else []) ++ leaves x
  | Cat a b | CriterionL1 a b | CriterionPerceptual a b | Add a b =>
      leaves a ++ leaves b
  | CriterionGAN x _ | Vgg x | Mul x _ => leaves x
  end.

(** [t.detach()]: same value, no history. *)
Definition detach (t : Tensor) : Tensor := Const (data t).
End Tensors.

(** ** Autograd and the optimizer *)

(** What a backward pass and an optimizer step compute.  [vjp t n] is the
    gradient of [t] with respect to the parameters of module [n],
    [accumulate] adds it to the [.grad] already there (or stores it when
    there is none), [zeroed] is what [zero_grad] leaves in a populated
    [.grad] (zeros, or nothing, by PyTorch version), [adam] one Adam update
    of a module's parameters. *)
Class Autograd `{K : Kernels} : Type := {
  Grad : Type;
  OptState : Type;
  vjp : Tensor → NetId → Grad;
  accumulate : option Grad → Grad → Grad;
  zeroed : Grad → option Grad;
  adam_init : OptState;
  adam : OptState → Weights → Grad → OptState * Weights
}.

(** The events of a run, in program order. *)
Inductive Event : Type :=
  | Printed (line : string)
  | TorchLoad (path : string)
  | Called (n : NetId)
  | SetRequiresGrad (flag : bool)
  | ZeroGrad (n : NetId)
  | Backward (loss : string)
  | Step (n : NetId).

#[global] Instance Event_eq_dec : EqDecision Event.
Proof. solve_decision. Defined.

Section Model.
Context `{A : Autograd}.

(** A module: the values of its parameters, whether they require grad,
    and the gradient accumulated on them. *)
Record Net : Type := {
  weights : Weights;
  requires_grad : bool;
  grad : option Grad
}.

(** [torch.optim.Adam(net.parameters(), ...)]: the optimizer holds the
    parameters of one module. *)
Record Optimizer : Type := {
  params : NetId;
  state : OptState
}.

(** The experiment flags read by the model. *)
Record Opt : Type := {
  isTrain : bool;
  task_num : Z;
  no_lifelong_training : bool;
  prev_model_path : string;
  prev_model_epoch : Z;
  lambda_digesting_L1 : Scalar;
  lambda_digesting_perceptual : Scalar;
  lambda_reminding_L1 : Scalar;
  lambda_reminding_perceptual : Scalar;
  lambda_G : Scalar;
  lambda_D : Scalar
}.

(** A value of the dataloader's dict. *)
Inductive BatchItem : Type :=
  | ImageTensor (d : Data)
  | ImagePaths (paths : list string).

(** A checkpoint file as [torch.load] returns it. *)
Record Checkpoint : Type := {
  entries : Weights;
  _metadata : option string
}.

(** Attributes assigned by [set_input]. *)
Record Batch : Type := {
  real_A : list Tensor;
  real_B : list Tensor;
  image_paths : list BatchItem;
  real_A_cur1 : Tensor;
  real_A_cur2 : Tensor;
  real_B_cur1 : Tensor;
  real_B_cur2 : Tensor;
  (* real_A_prev1, real_A_prev2, real_B_prev1, real_B_prev2 *)
  real_prev : option (Tensor * Tensor * Tensor * Tensor)
}.

(** Attributes assigned by the previous-task branch of [forward]. *)
Record Retained : Type := {
  fake_B_curG : list Tensor;
  fake_B_prevG : list Tensor;
  fake_B_cur_prev1 : Tensor;
  fake_B_cur_prev2 : Tensor;
  fake_B_prev1 : Tensor;
  fake_B_prev2 : Tensor
}.

(** Attributes assigned by [forward]. *)
Record Outputs : Type := {
  fake_B : list Tensor;
  fake_B_cur1 : Tensor;
  fake_B_cur2 : Tensor;
  retained : option Retained
}.

(** Attributes assigned by [backward_D]. *)
Record LossesD : Type := {
  loss_D_fake : list Tensor;
  loss_D_real : list Tensor;
  loss_D_fake_all : Tensor;
  loss_D_real_all : Tensor;
  loss_D : Tensor
}.

(** Attributes assigned by the previous-task branch of [backward_G]. *)
Record Reminding : Type := {
  loss_reminding_L1 : list Tensor;
  loss_reminding_perceptual : list Tensor;
  loss_reminding_L1_all : option Tensor;
  loss_reminding_perceptual_all : option Tensor
}.

(** Attributes assigned by [backward_G]. *)
Record LossesG : Type := {
  loss_G_GAN : list Tensor;
  loss_G_L1 : list Tensor;
  loss_G_perceptual : list Tensor;
  loss_G_GAN_all : Tensor;
  loss_G_L1_all : Tensor;
  loss_G_perceptual_all : Tensor;
  reminding : option Reminding;
  loss_G : Tensor
}.

(** The object [self].  An attribute that a method assigns is [None]
    until that method has run.  [rng] counts the dropout draws made so
    far and [trace] records the calls made, oldest first. *)
Record Model : Type := {
  opt : Opt;
  netG : Net;
  netG_prev : Net;
  netD : list Net;
  optimizer_G : option Optimizer;
  optimizer_D : list Optimizer;
  batch : option Batch;
  outputs : option Outputs;
  losses_D : option LossesD;
  losses_G : option LossesG;
  rng : nat;
  trace : list Event
}.

Definition set_netG (x : Net) (m : Model) : Model :=
  {| opt := opt m; netG := x; netG_prev := netG_prev m; netD := netD m;
     optimizer_G := optimizer_G m; optimizer_D := optimizer_D m;
     batch := batch m; outputs := outputs m; losses_D := losses_D m;
     losses_G := losses_G m; rng := rng m; trace := trace m |}.
Definition set_netG_prev (x : Net) (m : Model) : Model :=
  {| opt := opt m; netG := netG m; netG_prev := x; netD := netD m;
     optimizer_G := optimizer_G m; optimizer_D := optimizer_D m;
     batch := batch m; outputs := outputs m; losses_D := losses_D m;
     losses_G := losses_G m; rng := rng m; trace := trace m |}.
Definition set_netD (x : list Net) (m : Model) : Model :=
  {| opt := opt m; netG := netG m; netG_prev := netG_prev m; netD := x;
     optimizer_G := optimizer_G m; optimizer_D := optimizer_D m;
     batch := batch m; outputs := outputs m; losses_D := losses_D m;
     losses_G := losses_G m; rng := rng m; trace := trace m |}.
Definition set_optimizer_G (x : option Optimizer) (m : Model) : Model :=
  {| opt := opt m; netG := netG m; netG_prev := netG_prev m; netD := netD m;
     optimizer_G := x; optimizer_D := optimizer_D m;
     batch := batch m; outputs := outputs m; losses_D := losses_D m;
     losses_G := losses_G m; rng := rng m; trace := trace m |}.
Definition set_optimizer_D (x : list Optimizer) (m : Model) : Model :=
  {| opt := opt m; netG := netG m; netG_prev := netG_prev m; netD := netD m;
     optimizer_G := optimizer_G m; optimizer_D := x;
     batch := batch m; outputs := outputs m; losses_D := losses_D m;
     losses_G := losses_G m; rng := rng m; trace := trace m |}.
Definition set_batch (x : Batch) (m : Model) : Model :=
  {| opt := opt m; netG := netG m; netG_prev := netG_prev m; netD := netD m;
     optimizer_G := optimizer_G m; optimizer_D := optimizer_D m;
     batch := Some x; outputs := outputs m; losses_D := losses_D m;
     losses_G := losses_G m; rng := rng m; trace := trace m |}.
Definition set_outputs (x : Outputs) (m : Model) : Model :=
  {| opt := opt m; netG := netG m; netG_prev := netG_prev m; netD := netD m;
     optimizer_G := optimizer_G m; optimizer_D := optimizer_D m;
     batch := batch m; outputs := Some x; losses_D := losses_D m;
     losses_G := losses_G m; rng := rng m; trace := trace m |}.
Definition set_losses_D (x : LossesD) (m : Model) : Model :=
  {| opt := opt m; netG := netG m; netG_prev := netG_prev m; netD := netD m;
     optimizer_G := optimizer_G m; optimizer_D := optimizer_D m;
     batch := batch m; outputs := outputs m; losses_D := Some x;
     losses_G := losses_G m; rng := rng m; trace := trace m |}.
Definition set_losses_G (x : LossesG) (m : Model) : Model :=
  {| opt := opt m; netG := netG m; netG_prev := netG_prev m; netD := netD m;
     optimizer_G := optimizer_G m; optimizer_D := optimizer_D m;
     batch := batch m; outputs := outputs m; losses_D := losses_D m;
     losses_G := Some x; rng := rng m; trace := trace m |}.
Definition set_rng (x : nat) (m : Model) : Model :=
  {| opt := opt m; netG := netG m; netG_prev := netG_prev m; netD := netD m;
     optimizer_G := optimizer_G m; optimizer_D := optimizer_D m;
     batch := batch m; outputs := outputs m; losses_D := losses_D m;
     losses_G := losses_G m; rng := x; trace := trace m |}.
Definition set_trace (x : list Event) (m : Model) : Model :=
  {| opt := opt m; netG := netG m; netG_prev := netG_prev m; netD := netD m;
     optimizer_G := optimizer_G m; optimizer_D := optimizer_D m;
     batch := batch m; outputs := outputs m; losses_D := losses_D m;
     losses_G := losses_G m; rng := rng m; trace := x |}.

(** Record one event, or several, at the end of the trace. *)
Definition emits (es : list Event) (m : Model) : Model :=
  set_trace (trace m ++ es) m.
Definition emit (e : Event) (m : Model) : Model := emits [e] m.

Definition set_weights (w : Weights) (n : Net) : Net :=
  {| weights := w; requires_grad := requires_grad n; grad := grad n |}.
Definition set_flag (b : bool) (n : Net) : Net :=
  {| weights := weights n; requires_grad := b; grad := grad n |}.
Definition set_grad (g : option Grad) (n : Net) : Net :=
  {| weights := weights n; requires_grad := requires_grad n; grad := g |}.

(** The module an identifier names, and an update of it in place. *)
Definition get_net (n : NetId) (m : Model) : option Net :=
  match n with
  | NetG => Some (netG m)
  | NetG_prev => Some (netG_prev m)
  | NetD p => netD m !! p
  end.
Definition upd_net (n : NetId) (f : Net → Net) (m : Model) : Model :=
  match n with
  | NetG => set_netG (f (netG m)) m
  | NetG_prev => set_netG_prev (f (netG_prev m)) m
  | NetD p => set_netD (alter f p (netD m)) m
  end.

(** Whether retention (the reminding loss) is active: the test
    [task_num > 1 and (not no_lifelong_training)]. *)
Definition retention (o : Opt) : bool :=
  bool_decide (task_num o > 1) && negb (no_lifelong_training o).

(** *** Torch primitives on the model *)

(** [self.netG(x)] and [self.netG_prev(x)]: one dropout draw each. *)
Definition call_generator (n : NetId) (net : Net) (x : Tensor) (m : Model)
  : Tensor * Model :=
  (GenCall n (weights net) (requires_grad net) (rng m) x,
   emit (Called n) (set_rng (S (rng m)) m)).

(** Reading [self.netD], which exists only when training. *)
Definition self_netD (m : Model) : Res (list Net) :=
  if isTrain (opt m) then Ok (netD m) else Raise (AttributeError "netD").

(** [self.netD[i % 2](x)]. *)
Definition call_discriminator (i : Z) (x : Tensor) (m : Model)
  : Res (Tensor * Model) :=
  ds ← self_netD m;
  d ← py_index ds (i `mod` 2);
  let p := Z.to_nat (i `mod` 2) in
  Ok (DiscCall (NetD p) (weights d) (requires_grad d) x, emit (Called (NetD p)) m).

(** [loss.backward()]: every module reached by the history of [loss]
    gets the gradient accumulated on its parameters; a loss without
    history cannot be differentiated. *)
Definition receive (loss : Tensor) (n : NetId) (net : Net) : Net :=
  if bool_decide (n ∈ leaves loss)
  then set_grad (Some (accumulate (grad net) (vjp loss n))) net
  else net.
Definition received (loss : Tensor) (m : Model) : Model :=
  set_netD (imap (λ p, receive loss (NetD p)) (netD m))
    (set_netG_prev (receive loss NetG_prev (netG_prev m))
      (set_netG (receive loss NetG (netG m)) m)).
Definition backward (name : string) (loss : Tensor) (m : Model) : Res Model :=
  match leaves loss with
  | [] => Raise (RuntimeError "element 0 of tensors does not require grad")
  | _ => Ok (emit (Backward name) (received loss m))
  end.

(** [optimizer.zero_grad()]. *)
Definition zero_grad (o : Optimizer) (m : Model) : Model :=
  emit (ZeroGrad (params o))
    (upd_net (params o) (λ net, set_grad (grad net ≫= zeroed) net) m).

(** [optimizer.step()]: parameters without a gradient are skipped. *)
Definition step (o : Optimizer) (m : Model) : Optimizer * Model :=
  let m' := emit (Step (params o)) m in
  match get_net (params o) m with
  | Some net =>
      match grad net with
      | Some g =>
          let '(s, w) := adam (state o) (weights net) g in
          ({| params := params o; state := s |},
           upd_net (params o) (set_weights w) m')
      | None => (o, m')
      end
  | None => (o, m')
  end.

(** Modelled from the spec: [BaseModel.set_requires_grad] (base_model.py
    is not among the sources), which "enables" or "disables discriminator
    gradients": the flag is written to the parameters of every network
    of the list. *)
Definition set_requires_grad (flag : bool) (m : Model) : Model :=
  emit (SetRequiresGrad flag) (set_netD (set_flag flag <$> netD m) m).

(** *** [__init__] and [load_prev_model] *)

(** Modelled from the spec: [networks.define_G] and [networks.define_D]
    (networks.py is not among the sources), the network factory, which
    "returns a generator or discriminator".  The parameters are freshly
    initialised and trainable, as every PyTorch parameter is when it is
    created; [netG] and [netG_prev] come from the same call. *)
Definition define_G (k : nat) : Net :=
  {| weights := init_weights_G k; requires_grad := true; grad := None |}.
Definition define_D (k : nat) : Net :=
  {| weights := init_weights_D k; requires_grad := true; grad := None |}.

(** ['{:s}/{:d}_net_G.pth'.format(prev_model_path, prev_model_epoch)] *)
Definition checkpoint_path (o : Opt) : string :=
  prev_model_path o +:+ "/" +:+ pretty (prev_model_epoch o) +:+ "_net_G.pth".

(** [torch.load(path)] on a file system [fs]. *)
Definition torch_load (fs : gmap string Checkpoint) (path : string) (m : Model)
  : Res (Checkpoint * Model) :=
  match fs !! path with
  | Some c => Ok (c, emit (TorchLoad path) m)
  | None => Raise (FileNotFoundError path)
  end.

(** [net.load_state_dict(state_dict)] (strict): the values are copied
    into the module's own parameters. *)
Definition load_state_dict (sd : Checkpoint) (net : Net) : Res Net :=
  if matches_generator (entries sd)
  then Ok (set_weights (entries sd) net)
  else Raise (RuntimeError "Error(s) in loading state_dict").

Definition load_prev_model (fs : gmap string Checkpoint) (m : Model) : Res Model :=
  let nets := [NetG_prev; NetG] in
  let model_paths := [checkpoint_path (opt m); checkpoint_path (opt m)] in
  for_each (λ m i,
      n ← py_index nets i;
      path ← py_index model_paths i;
      (* a DataParallel wrapper is unwrapped to the same parameters *)
      let m := emit (Printed ("loading the model from " +:+ path)) m in
      '(state_dict, m) ← torch_load fs path m;
      let state_dict := {| entries := entries state_dict; _metadata := None |} in
      net ← attr "net" (get_net n m);
      net ← load_state_dict state_dict net;
      Ok (upd_net n (λ _, net) m))
    (range 0 (Z.of_nat (length nets))) m.

Definition Adam (n : NetId) : Optimizer := {| params := n; state := adam_init |}.

Definition init (fs : gmap string Checkpoint) (o : Opt) : Res Model :=
  let m :=
    {| opt := o;
       netG := define_G 0;
       netG_prev := define_G 1;
       netD := if isTrain o then (λ i, define_D (Z.to_nat i)) <$> range 0 2 else [];
       optimizer_G := None; optimizer_D := [];
       batch := None; outputs := None; losses_D := None; losses_G := None;
       rng := 0%nat; trace := [] |} in
  m ← (if isTrain o && bool_decide (prev_model_path o ≠ "")
       then load_prev_model fs m else Ok m);
  if isTrain o then
    let m := set_optimizer_G (Some (Adam NetG)) m in
    Ok (set_optimizer_D (imap (λ p _, Adam (NetD p)) (netD m)) m)
  else Ok m.

(** [self.optimizers]: the same optimizer objects, discriminators first. *)
Definition optimizers (m : Model) : list Optimizer :=
  optimizer_D m ++ option_list (optimizer_G m).

(** *** [set_input] *)

(** [x.to(self.device)]: only a tensor has the method. *)
Definition to_device (v : BatchItem) : Res Tensor :=
  match v with
  | ImageTensor d => Ok (Const d)
  | ImagePaths _ => Raise (AttributeError "to")
  end.

Definition set_input (input : gmap string BatchItem) (m : Model) : Res Model :=
  let t := task_num (opt m) in
  '(rA, rB, ps) ← for_each (λ '(rA, rB, ps) i,
      a ← dict_get input ("A_" +:+ pretty i) ≫= to_device;
      b ← dict_get input ("B_" +:+ pretty i) ≫= to_device;
      p ← dict_get input ("A_paths_" +:+ pretty i);
      Ok (rA ++ [a], rB ++ [b], ps ++ [p]))
    (range 0 (t * 2)) ([], [], []);
  a1 ← py_index rA (2 * t - 2);
  a2 ← py_index rA (2 * t - 1);
  b1 ← py_index rB (2 * t - 2);
  b2 ← py_index rB (2 * t - 1);
  prev ← (if retention (opt m) then
            pa1 ← py_index rA 0;
            pa2 ← py_index rA 1;
            pb1 ← py_index rB 0;
            pb2 ← py_index rB 1;
            Ok (Some (pa1, pa2, pb1, pb2))
          else Ok (batch m ≫= real_prev));
  Ok (set_batch {| real_A := rA; real_B := rB; image_paths := ps;
                   real_A_cur1 := a1; real_A_cur2 := a2;
                   real_B_cur1 := b1; real_B_cur2 := b2;
                   real_prev := prev |} m).

(** *** [forward] *)

Definition forward (m : Model) : Res Model :=
  let t := task_num (opt m) in
  b ← attr "real_A" (batch m);
  '(fake, m) ← for_each (λ '(fake, m) i,
      x ← py_index (real_A b) i;
      let '(y, m) := call_generator NetG (netG m) x m in
      Ok (fake ++ [y], m))
    (range (2 * t - 2) (2 * t)) ([], m);
  cur1 ← py_index fake 0;
  cur2 ← py_index fake 1;
  '(ret, m) ← (if retention (opt m) then
      '(curG, prevG, m) ← for_each (λ '(curG, prevG, m) i,
          x ← py_index (real_A b) i;
          let '(y, m) := call_generator NetG (netG m) x m in
          x' ← py_index (real_A b) i;
          let '(z, m) := call_generator NetG_prev (netG_prev m) x' m in
          Ok (curG ++ [y], prevG ++ [z], m))
        (range 0 (2 * t - 2)) ([], [], m);
      cp1 ← py_index curG 0;
      cp2 ← py_index curG 1;
      p1 ← py_index prevG 0;
      p2 ← py_index prevG 1;
      Ok (Some {| fake_B_curG := curG; fake_B_prevG := prevG;
                  fake_B_cur_prev1 := cp1; fake_B_cur_prev2 := cp2;
                  fake_B_prev1 := p1; fake_B_prev2 := p2 |}, m)
    else Ok (outputs m ≫= retained, m));
  Ok (set_outputs {| fake_B := fake; fake_B_cur1 := cur1; fake_B_cur2 := cur2;
                     retained := ret |} m).

(** *** Accumulating per-stream losses *)

(** [acc += x] on a tensor attribute: an in-place addition. *)
Definition iadd (acc : option Tensor) (x : Tensor) : Res Tensor :=
  match acc with
  | Some a => Ok (Add a x)
  | None => Raise (TypeError "unsupported operand type(s) for +=")
  end.

(** An operand of [+] or [*] that may still be [None]. *)
Definition operand (acc : option Tensor) : Res Tensor :=
  match acc with
  | Some a => Ok a
  | None => Raise (TypeError "unsupported operand type(s)")
  end.

(** The loops of lines 197-203 and 250-256: two accumulators start as
    [None]; the test is on the first one only. *)
Definition sum_pair (xs ys : list Tensor) : Res (option Tensor * option Tensor) :=
  for_each (λ '(xa, ya) i,
      match xa with
      | None =>
          x ← py_index xs i;
          y ← py_index ys i;
          Ok (Some x, Some y)
      | Some _ =>
          x ← py_index xs i;
          xa' ← iadd xa x;
          y ← py_index ys i;
          ya' ← iadd ya y;
          Ok (Some xa', Some ya')
      end)
    (range 0 (Z.of_nat (length xs))) (None, None).

(** The loop of lines 228-236, with three accumulators. *)
Definition sum_triple (xs ys zs : list Tensor)
  : Res (option Tensor * option Tensor * option Tensor) :=
  for_each (λ '(xa, ya, za) i,
      match xa with
      | None =>
          x ← py_index xs i;
          y ← py_index ys i;
          z ← py_index zs i;
          Ok (Some x, Some y, Some z)
      | Some _ =>
          x ← py_index xs i;
          xa' ← iadd xa x;
          y ← py_index ys i;
          ya' ← iadd ya y;
          z ← py_index zs i;
          za' ← iadd za z;
          Ok (Some xa', Some ya', Some za')
      end)
    (range 0 (Z.of_nat (length xs))) (None, None, None).

(** The accumulator is first bound to element 0 of the list and then
    added to in place, so after the loop element 0 of the list is the
    same tensor as the accumulator. *)
Definition aliased (total : option Tensor) (l : list Tensor) : list Tensor :=
  match total, l with
  | Some s, _ :: tl => s :: tl
  | _, _ => l
  end.

(** *** [backward_D] *)

Definition backward_D (m : Model) : Res Model :=
  let t := task_num (opt m) in
  b ← attr "real_A" (batch m);
  o ← attr "fake_B" (outputs m);
  '(fakes, reals, m) ← for_each (λ '(fakes, reals, m) i,
      (* Fake; stop backprop to the generator by detaching fake_B *)
      a ← py_index (real_A b) i;
      f ← py_index (fake_B o) (i `mod` 2);
      let fake_AB := Cat a f in
      '(pred_fake, m) ← call_discriminator i (detach fake_AB) m;
      (* Real *)
      a' ← py_index (real_A b) i;
      r ← py_index (real_B b) i;
      let real_AB := Cat a' r in
      '(pred_real, m) ← call_discriminator i real_AB m;
      Ok (fakes ++ [CriterionGAN pred_fake false],
          reals ++ [CriterionGAN pred_real true], m))
    (range (2 * t - 2) (2 * t)) ([], [], m);
  '(fake_all, real_all) ← sum_pair fakes reals;
  fa ← operand fake_all;
  ra ← operand real_all;
  (* combine loss and calculate gradients *)
  let loss := Mul (Add fa ra) (lambda_D (opt m)) in
  backward "loss_D" loss
    (set_losses_D {| loss_D_fake := aliased fake_all fakes;
                     loss_D_real := aliased real_all reals;
                     loss_D_fake_all := fa; loss_D_real_all := ra;
                     loss_D := loss |} m).

(** *** [backward_G] *)

Definition backward_G (m : Model) : Res Model :=
  let t := task_num (opt m) in
  let o := opt m in
  b ← attr "real_A" (batch m);
  out ← attr "fake_B" (outputs m);
  (* for current task *)
  '(gans, l1s, percs, m) ← for_each (λ '(gans, l1s, percs, m) i,
      a ← py_index (real_A b) i;
      f ← py_index (fake_B out) (i `mod` 2);
      let fake_AB := Cat a f in
      '(pred_fake, m) ← call_discriminator i fake_AB m;
      f1 ← py_index (fake_B out) (i `mod` 2);
      r1 ← py_index (real_B b) i;
      f2 ← py_index (fake_B out) (i `mod` 2);
      let pred_feat := Vgg f2 in
      r2 ← py_index (real_B b) i;
      let target_feat := Vgg r2 in
      Ok (gans ++ [CriterionGAN pred_fake true],
          l1s ++ [CriterionL1 f1 r1],
          percs ++ [CriterionPerceptual pred_feat target_feat], m))
    (range (2 * t - 2) (2 * t)) ([], [], [], m);
  '(gan_all, l1_all, perc_all) ← sum_triple gans l1s percs;
  (* for previous tasks *)
  rem ← (if retention o then
      ret ← attr "fake_B_curG" (retained out);
      '(rl1s, rpercs) ← for_each (λ '(rl1s, rpercs) i,
          c ← py_index (fake_B_curG ret) i;
          p ← py_index (fake_B_prevG ret) i;
          c' ← py_index (fake_B_curG ret) i;
          let pred_feat_G := Vgg c' in
          p' ← py_index (fake_B_prevG ret) i;
          let pred_feat_G_prev := Vgg p' in
          Ok (rl1s ++ [CriterionL1 c p],
              rpercs ++ [CriterionPerceptual pred_feat_G pred_feat_G_prev]))
        (range 0 (2 * t - 2)) ([], []);
      '(rl1_all, rperc_all) ← sum_pair rl1s rpercs;
      Ok (Some {| loss_reminding_L1 := aliased rl1_all rl1s;
                  loss_reminding_perceptual := aliased rperc_all rpercs;
                  loss_reminding_L1_all := rl1_all;
                  loss_reminding_perceptual_all := rperc_all |})
    else Ok (losses_G m ≫= reminding));
  ga ← operand gan_all;
  la ← operand l1_all;
  pa ← operand perc_all;
  loss ← (if bool_decide (task_num o = 1) || no_lifelong_training o then
      Ok (Mul (Add (Add ga (Mul la (lambda_digesting_L1 o)))
                   (Mul pa (lambda_digesting_perceptual o)))
              (lambda_G o))
    else
      r ← attr "loss_reminding_L1_all" rem;
      ra ← operand (loss_reminding_L1_all r);
      rp ← operand (loss_reminding_perceptual_all r);
      Ok (Mul (Add (Add (Add (Add ga (Mul la (lambda_digesting_L1 o)))
                             (Mul pa (lambda_digesting_perceptual o)))
                        (Mul ra (lambda_reminding_L1 o)))
                   (Mul rp (lambda_reminding_perceptual o)))
              (lambda_G o)));
  backward "loss_G" loss
    (set_losses_G {| loss_G_GAN := aliased gan_all gans;
                     loss_G_L1 := aliased l1_all l1s;
                     loss_G_perceptual := aliased perc_all percs;
                     loss_G_GAN_all := ga; loss_G_L1_all := la;
                     loss_G_perceptual_all := pa;
                     reminding := rem; loss_G := loss |} m).

(** *** [optimize_parameters] *)

(** [for opt in self.optimizer_D: opt.zero_grad()] *)
Definition zero_grad_each (os : list Optimizer) (m : Model) : Model :=
  foldl (λ m o, zero_grad o m) m os.

(** [for opt in self.optimizer_D: opt.step()] *)
Definition step_each (m : Model) : Model :=
  let '(os, m) :=
    foldl (λ '(os, m) o, let '(o', m') := step o m in (os ++ [o'], m'))
      ([], m) (optimizer_D m) in
  set_optimizer_D os m.

(** Lines 267-273: update D. *)
Definition update_D (m : Model) : Res Model :=
  _ ← self_netD m;
  let m := set_requires_grad true m in
  let m := zero_grad_each (optimizer_D m) m in
  m ← backward_D m;
  Ok (step_each m).

(** Lines 275-278: update G. *)
Definition update_G (m : Model) : Res Model :=
  _ ← self_netD m;
  let m := set_requires_grad false m in
  og ← attr "optimizer_G" (optimizer_G m);
  let m := zero_grad og m in
  m ← backward_G m;
  og ← attr "optimizer_G" (optimizer_G m);
  let '(og, m) := step og m in
  Ok (set_optimizer_G (Some og) m).

Definition optimize_parameters (m : Model) : Res Model :=
  m ← forward m;
  m ← update_D m;
  update_G m.

(** A number of training steps, each a [set_input] on its own batch
    followed by [optimize_parameters]. *)
Definition train (inputs : list (gmap string BatchItem)) (m : Model) : Res Model :=
  for_each (λ m input, m ← set_input input m; optimize_parameters m) inputs m.
End Model.

(** ** A concrete instance

    Symbolic kernels on which the model can be run: a value is the term
    that describes how it was computed, so that a run shows which network,
    with which weights, produced each number. *)
Module Concrete.
(** Weights: freshly initialised, read from a checkpoint, or updated by
    an optimizer step. *)
Inductive Wt : Type :=
  | InitG (k : nat)
  | InitD (k : nat)
  | Saved (epoch : nat) (valid : bool)
  | Stepped (w : Wt).

Inductive Sym : Type :=
  | Img (n : nat)
  | Gen (w : Wt) (draw : nat) (x : Sym)
  | Disc (w : Wt) (x : Sym)
  | Pair (a b : Sym)
  | Gan (x : Sym) (target_is_real : bool)
  | L1 (a b : Sym)
  | Feat (x : Sym)
  | Perc (a b : Sym)
  | Plus (a b : Sym)
  | Times (a : Sym) (k : nat).

Definition ZK : Kernels :=
  {| Data := Sym; Weights := Wt; Scalar := nat;
     generator := Gen;
     discriminator := Disc;
     cat := Pair;
     GANLoss := Gan;
     L1Loss := L1;
     vgg16_feat := Feat;
     perceptual_loss := Perc;
     add := Plus;
     mul := Times;
     init_weights_G := InitG;
     init_weights_D := InitD;
     matches_generator w := match w with Saved _ v => v | _ => true end |}.
#[local] Existing Instance ZK.

(** A gradient records the losses it was accumulated from. *)
Definition ZA : @Autograd ZK :=
  {| Grad := list Sym; OptState := nat;
     vjp t n := [data t];
     accumulate og g := match og with Some g0 => g0 ++ g | None => g end;
     zeroed g := Some [];
     adam_init := 0%nat;
     adam s w g := (S s, Stepped w) |}.
#[local] Existing Instance ZA.

Definition options (t : Z) (no_lifelong : bool) (path : string) : @Opt ZK :=
  {| isTrain := true; task_num := t; no_lifelong_training := no_lifelong;
     prev_model_path := path; prev_model_epoch := 400;
     lambda_digesting_L1 := 100%nat; lambda_digesting_perceptual := 1%nat;
     lambda_reminding_L1 := 10%nat; lambda_reminding_perceptual := 1%nat;
     lambda_G := 3%nat; lambda_D := 7%nat |}.

(** One checkpoint, saved by task 1 at epoch 400. *)
Definition disk : gmap string (@Checkpoint ZK) :=
  {[ "ckpt/task1/400_net_G.pth" :=
       {| entries := Saved 400 true; _metadata := Some "version" |} ]}.

(** A batch with [n] streams. *)
Definition stream (i : nat) : list (string * @BatchItem ZK) :=
  [ ("A_" +:+ pretty (Z.of_nat i), ImageTensor (Img i));
    ("B_" +:+ pretty (Z.of_nat i), ImageTensor (Img (100 + i)));
    ("A_paths_" +:+ pretty (Z.of_nat i), ImagePaths ["img" +:+ pretty (Z.of_nat i)]) ].
Definition batch_of (n : nat) : gmap string (@BatchItem ZK) :=
  list_to_map (mjoin (stream <$> seq 0 n)).

(** The model of task [t] after [__init__] and [set_input]. *)
Definition ready (t : Z) (no_lifelong : bool) (path : string) : Res (@Model ZK ZA) :=
  m ← @init ZK ZA disk (options t no_lifelong path);
  @set_input ZK ZA (batch_of (Z.to_nat (2 * t))) m.

(** The state a call returned. *)
Definition blank : @Model ZK ZA :=
  {| opt := options 1 true ""; netG := define_G 0; netG_prev := define_G 1;
     netD := []; optimizer_G := None; optimizer_D := [];
     batch := None; outputs := None; losses_D := None; losses_G := None;
     rng := 0%nat; trace := [] |}.
Definition the (r : Res (@Model ZK ZA)) : @Model ZK ZA :=
  match r with
  | Ok m => m
  | Raise _ => blank
  end.

(** Task 2, lifelong training, with the checkpoint of task 1: the model
    after [set_input], and after each phase of its first cycle. *)
Definition task2 : @Model ZK ZA := the (ready 2 false "ckpt/task1").
Definition task2_forward : @Model ZK ZA := the (forward task2).
Definition task2_D : @Model ZK ZA := the (update_D task2_forward).
Definition task2_G : @Model ZK ZA := the (update_G task2_D).

(** Task 2 after [__init__], and after three training steps. *)
Definition task2_init : @Model ZK ZA := the (init disk (options 2 false "ckpt/task1")).
Definition three_batches : list (gmap string (@BatchItem ZK)) :=
  [batch_of 4; batch_of 4; batch_of 4].
Definition task2_trained : @Model ZK ZA := the (@train ZK ZA three_batches task2_init).

(** Task 1: no previous model, no retention. *)
Definition task1 : @Model ZK ZA := the (ready 1 false "").
End Concrete.

(** ** What the claims are stated with *)

Section Specification.
Context `{A : Autograd}.

(** What a successful [load_prev_model] leaves behind. *)
Definition loaded (c : Checkpoint) (m : Model) : Model :=
  let p := checkpoint_path (opt m) in
  let line := Printed ("loading the model from " +:+ p) in
  set_netG (set_weights (entries c) (netG m))
    (emit (TorchLoad p) (emit line
      (set_netG_prev (set_weights (entries c) (netG_prev m))
        (emit (TorchLoad p) (emit line m))))).

(** The states of a training session: the model is built by [__init__],
    and then fed batches and optimised in any order and any number of
    times. *)
Inductive reachable (fs : gmap string Checkpoint) (o : Opt) : Model → Prop :=
  | reach_init m :
      init fs o = Ok m → reachable fs o m
  | reach_set_input m input m' :
      reachable fs o m → set_input input m = Ok m' → reachable fs o m'
  | reach_optimize m m' :
      reachable fs o m → optimize_parameters m = Ok m' → reachable fs o m'.

(** A tensor without autograd history. *)
Definition plain (t : Tensor) : Prop := leaves t = [].

(** What holds of every state of a training session. *)
Definition invariant (m : Model) : Prop :=
  requires_grad (netG m) = true ∧
  requires_grad (netG_prev m) = true ∧
  (isTrain (opt m) = true →
     length (netD m) = 2%nat ∧
     params <$> optimizer_D m = [NetD 0; NetD 1] ∧
     params <$> optimizer_G m = Some NetG) ∧
  (∀ b, batch m = Some b →
     1 ≤ task_num (opt m) ∧
     length (real_A b) = Z.to_nat (2 * task_num (opt m)) ∧
     length (real_B b) = Z.to_nat (2 * task_num (opt m)) ∧
     Forall plain (real_A b) ∧ Forall plain (real_B b)) ∧
  (retention (opt m) = false →
     outputs m ≫= retained = None ∧ losses_G m ≫= reminding = None).

(** The sum of per-stream terms, added up in stream order; there is no
    sum of no terms. *)
Definition total (l : list Tensor) : option Tensor :=
  match l with
  | [] => None
  | x :: tl => Some (foldl Add x tl)
  end.

(** The terms of the discriminator loss for one current-task stream:
    discriminator [p] on the detached (source, generated) pair with label
    FAKE, and on the (source, real target) pair with label REAL. *)
Definition D_fake_term (p : nat) (d : Net) (source generated : Tensor) : Tensor :=
  CriterionGAN
    (DiscCall (NetD p) (weights d) (requires_grad d) (detach (Cat source generated)))
    false.
Definition D_real_term (p : nat) (d : Net) (source target : Tensor) : Tensor :=
  CriterionGAN
    (DiscCall (NetD p) (weights d) (requires_grad d) (Cat source target))
    true.

(** The attributes [backward_D] assigns, given the two discriminators,
    the sources [a], real targets [r] and generated images [f] of the
    two current-task streams. *)
Definition expected_losses_D (o : Opt) (d0 d1 : Net) (a0 a1 r0 r1 f0 f1 : Tensor)
    : LossesD :=
  let fake_all := Add (D_fake_term 0 d0 a0 f0) (D_fake_term 1 d1 a1 f1) in
  let real_all := Add (D_real_term 0 d0 a0 r0) (D_real_term 1 d1 a1 r1) in
  {| loss_D_fake := [fake_all; D_fake_term 1 d1 a1 f1];
     loss_D_real := [real_all; D_real_term 1 d1 a1 r1];
     loss_D_fake_all := fake_all;
     loss_D_real_all := real_all;
     loss_D := Mul (Add fake_all real_all) (lambda_D o) |}.

(** Total discriminator loss = (sum_fake + sum_real) × weight_D. *)
Definition documented_loss_D (o : Opt) (sum_fake sum_real : Data) : Data :=
  mul (add sum_fake sum_real) (lambda_D o).

(** The terms of the generator loss for one current-task stream. *)
Definition G_adversarial_term (p : nat) (d : Net) (source generated : Tensor) : Tensor :=
  CriterionGAN
    (DiscCall (NetD p) (weights d) (requires_grad d) (Cat source generated))
    true.
Definition G_L1_term (generated target : Tensor) : Tensor :=
  CriterionL1 generated target.
Definition G_perceptual_term (generated target : Tensor) : Tensor :=
  CriterionPerceptual (Vgg generated) (Vgg target).

(** The terms of the retention loss for one previous-task stream, from
    the outputs of the trainable and of the frozen generator. *)
Definition reminding_L1_term (cur prev : Tensor) : Tensor :=
  CriterionL1 cur prev.
Definition reminding_perceptual_term (cur prev : Tensor) : Tensor :=
  CriterionPerceptual (Vgg cur) (Vgg prev).
Definition reminding_term_of (term : Tensor → Tensor → Tensor) (ret : Retained)
    (i : Z) (t : Tensor) : Prop :=
  ∃ cur prev,
    py_index (fake_B_curG ret) i = Ok cur ∧
    py_index (fake_B_prevG ret) i = Ok prev ∧
    t = term cur prev.

(** [loss_G] as [backward_G] composes it from the accumulated terms. *)
Definition composed_loss_G (o : Opt) (gan l1 perc : Tensor)
    (retention_terms : option (Tensor * Tensor)) : Tensor :=
  let digesting :=
    Add (Add gan (Mul l1 (lambda_digesting_L1 o)))
        (Mul perc (lambda_digesting_perceptual o)) in
  match retention_terms with
  | None => Mul digesting (lambda_G o)
  | Some (rl1, rperc) =>
      Mul (Add (Add digesting (Mul rl1 (lambda_reminding_L1 o)))
               (Mul rperc (lambda_reminding_perceptual o)))
          (lambda_G o)
  end.

(** The attributes [backward_G] assigns for the current task. *)
Definition expected_losses_G (d0 d1 : Net) (a0 a1 r0 r1 f0 f1 : Tensor)
    (rem : option Reminding) (loss : Tensor) : LossesG :=
  let gan_all := Add (G_adversarial_term 0 d0 a0 f0) (G_adversarial_term 1 d1 a1 f1) in
  let l1_all := Add (G_L1_term f0 r0) (G_L1_term f1 r1) in
  let perc_all := Add (G_perceptual_term f0 r0) (G_perceptual_term f1 r1) in
  {| loss_G_GAN := [gan_all; G_adversarial_term 1 d1 a1 f1];
     loss_G_L1 := [l1_all; G_L1_term f1 r1];
     loss_G_perceptual := [perc_all; G_perceptual_term f1 r1];
     loss_G_GAN_all := gan_all;
     loss_G_L1_all := l1_all;
     loss_G_perceptual_all := perc_all;
     reminding := rem;
     loss_G := loss |}.

(** The attributes [backward_G] assigns for the previous tasks. *)
Definition expected_reminding (rl1s rpercs : list Tensor) : Reminding :=
  {| loss_reminding_L1 := aliased (total rl1s) rl1s;
     loss_reminding_perceptual := aliased (total rpercs) rpercs;
     loss_reminding_L1_all := total rl1s;
     loss_reminding_perceptual_all := total rpercs |}.

(** The generator loss as documented: without retention
    (adv + L1×λ_digest_L1 + perceptual×λ_digest_perc) × λ_G, and with
    retention the two retention terms, weighted, inside the sum. *)
Definition documented_loss_G (o : Opt) (adv l1 perceptual : Data)
    (retention_terms : option (Data * Data)) : Data :=
  let digesting :=
    add (add adv (mul l1 (lambda_digesting_L1 o)))
        (mul perceptual (lambda_digesting_perceptual o)) in
  match retention_terms with
  | None => mul digesting (lambda_G o)
  | Some (retention_L1, retention_perceptual) =>
      mul (add (add digesting (mul retention_L1 (lambda_reminding_L1 o)))
               (mul retention_perceptual (lambda_reminding_perceptual o)))
          (lambda_G o)
  end.

(** The outputs of the two generators on previous-task stream [i]. *)
Definition generated_from (n : NetId) (net : Net) (xs : list Tensor)
    (i : Z) (y : Tensor) : Prop :=
  ∃ x draw, py_index xs i = Ok x ∧
    y = GenCall n (weights net) (requires_grad net) draw x.

(** The events of one [optimize_parameters] call, by phase. *)
Definition forward_events (o : Opt) : list Event :=
  [Called NetG; Called NetG] ++
  (if retention o
   then range 0 (2 * task_num o - 2) ≫= (λ _, [Called NetG; Called NetG_prev])
   else []).
Definition update_D_events : list Event :=
  [SetRequiresGrad true; ZeroGrad (NetD 0); ZeroGrad (NetD 1);
   Called (NetD 0); Called (NetD 0); Called (NetD 1); Called (NetD 1);
   Backward "loss_D"; Step (NetD 0); Step (NetD 1)].
Definition update_G_events : list Event :=
  [SetRequiresGrad false; ZeroGrad NetG;
   Called (NetD 0); Called (NetD 1); Backward "loss_G"; Step NetG].
End Specification.

(** ** Counting events, well-formed batches, and the names the model
    announces *)

(** How often an event occurs in a trace. *)
Definition occurrences (e : Event) (l : list Event) : nat :=
  length (filter (λ x, x = e) l).

Section Announced.
Context `{A : Autograd}.

(** Stream [i] of a dataloader dict is complete: [A_i] and [B_i] are
    tensors and [A_paths_i] is there. *)
Definition is_image (v : option BatchItem) : bool :=
  match v with
  | Some (ImageTensor _) => true
  | _ => false
  end.
Definition stream_present (input : gmap string BatchItem) (i : Z) : bool :=
  is_image (input !! ("A_" +:+ pretty i)) &&
  is_image (input !! ("B_" +:+ pretty i)) &&
  bool_decide (is_Some (input !! ("A_paths_" +:+ pretty i))).

(** A batch that has the [2 * task_num] streams [set_input] reads. *)
Definition well_formed (t : Z) (input : gmap string BatchItem) : bool :=
  forallb (stream_present input) (range 0 (t * 2)).

(** The image of stream [i] under key prefix [k], as [set_input] stores it. *)
Definition stored (input : gmap string BatchItem) (k : string) (i : Z) (x : Tensor)
    : Prop :=
  ∃ d, input !! (k +:+ pretty i) = Some (ImageTensor d) ∧ x = Const d.

(** Lines 60-66 of [__init__]: the losses the training script prints and
    the images it displays. *)
Definition loss_names (o : Opt) : list string :=
  if bool_decide (task_num o = 1) || no_lifelong_training o then
    ["G_GAN_all"; "G_L1_all"; "G_perceptual_all"; "D_real_all"; "D_fake_all"]
  else
    ["G_GAN_all"; "G_L1_all"; "G_perceptual_all"; "D_real_all"; "D_fake_all";
     "reminding_L1_all"; "reminding_perceptual_all"].
Definition visual_names (o : Opt) : list string :=
  if bool_decide (task_num o = 1) || no_lifelong_training o then
    ["real_A_cur1"; "fake_B_cur1"; "real_B_cur1";
     "real_A_cur2"; "fake_B_cur2"; "real_B_cur2"]
  else
    ["real_A_prev1"; "real_B_prev1"; "fake_B_cur_prev1"; "fake_B_prev1";
     "real_A_cur1"; "fake_B_cur1"; "real_B_cur1";
     "real_A_prev2"; "real_B_prev2"; "fake_B_cur_prev2"; "fake_B_prev2";
     "real_A_cur2"; "fake_B_cur2"; "real_B_cur2"].


(** [getattr(self, 'loss_' + name)]: [None] when the attribute has not
    been assigned (or does not exist). *)
Definition loss_attribute (m : Model) (name : string) : option Tensor :=
  if decide (name = "G_GAN_all") then loss_G_GAN_all <$> losses_G m
  else if decide (name = "G_L1_all") then loss_G_L1_all <$> losses_G m
  else if decide (name = "G_perceptual_all") then loss_G_perceptual_all <$> losses_G m
  else if decide (name = "D_real_all") then loss_D_real_all <$> losses_D m
  else if decide (name = "D_fake_all") then loss_D_fake_all <$> losses_D m
  else if decide (name = "reminding_L1_all")
    then r ← losses_G m ≫= reminding; loss_reminding_L1_all r
  else if decide (name = "reminding_perceptual_all")
    then r ← losses_G m ≫= reminding; loss_reminding_perceptual_all r
  else None.

(** [getattr(self, name)] for an image attribute. *)
Definition visual_attribute (m : Model) (name : string) : option Tensor :=
  if decide (name = "real_A_cur1") then real_A_cur1 <$> batch m
  else if decide (name = "real_A_cur2") then real_A_cur2 <$> batch m
  else if decide (name = "real_B_cur1") then real_B_cur1 <$> batch m
  else if decide (name = "real_B_cur2") then real_B_cur2 <$> batch m
  else if decide (name = "real_A_prev1")
    then (λ '(a1, _, _, _), a1) <$> (batch m ≫= real_prev)
  else if decide (name = "real_A_prev2")
    then (λ '(_, a2, _, _), a2) <$> (batch m ≫= real_prev)
  else if decide (name = "real_B_prev1")
    then (λ '(_, _, b1, _), b1) <$> (batch m ≫= real_prev)
  else if decide (name = "real_B_prev2")
    then (λ '(_, _, _, b2), b2) <$> (batch m ≫= real_prev)
  else if decide (name = "fake_B_cur1") then fake_B_cur1 <$> outputs m
  else if decide (name = "fake_B_cur2") then fake_B_cur2 <$> outputs m
  else if decide (name = "fake_B_cur_prev1")
    then fake_B_cur_prev1 <$> (outputs m ≫= retained)
  else if decide (name = "fake_B_cur_prev2")
    then fake_B_cur_prev2 <$> (outputs m ≫= retained)
  else if decide (name = "fake_B_prev1")
    then fake_B_prev1 <$> (outputs m ≫= retained)
  else if decide (name = "fake_B_prev2")
    then fake_B_prev2 <$> (outputs m ≫= retained)
  else None.

(** The number of generator calls of one forward pass. *)
Definition forward_calls (o : Opt) : nat :=
  (2 + (if retention o then 2 * Z.to_nat (2 * task_num o - 2) else 0))%nat.

(** The events of one whole cycle. *)
Definition cycle_events (o : Opt) : list Event :=
  forward_events o ++ update_D_events ++ update_G_events.
End Announced.

(** ** [toggle_dropout]

    A submodule of a network as [net.modules()] enumerates it: of a
    submodule only its class and its [training] flag matter here. *)
Inductive ModuleClass : Type :=
  | Dropout
  | OtherModule (class_name : string).

Record Submodule : Type := {
  class_of : ModuleClass;
  training : bool
}.

(** A generator as the factory returns it: bare, or wrapped in
    [torch.nn.DataParallel].  The list is [net.modules()] of the network
    proper: the network itself and all its descendants. *)
Inductive Network : Type :=
  | Bare (modules : list Submodule)
  | DataParallel (wrapper_training : bool) (module : list Submodule).

Definition modules_of (net : Network) : list Submodule :=
  match net with
  | Bare ms => ms
  | DataParallel _ ms => ms
  end.

(** [if isinstance(module, nn.Dropout): module.training = activate] *)
Definition set_training (activate : bool) (s : Submodule) : Submodule :=
  match class_of s with
  | Dropout => {| class_of := Dropout; training := activate |}
  | OtherModule _ => s
  end.

(** The body of the loop over [nets]: a wrapper is unwrapped first. *)
Definition toggle_net (activate : bool) (net : Network) : Network :=
  match net with
  | Bare ms => Bare (set_training activate <$> ms)
  | DataParallel t ms => DataParallel t (set_training activate <$> ms)
  end.

(** [nets = [self.netG_prev, self.netG]] *)
Definition toggle_dropout (activate : bool) (nets : Network * Network)
    : Network * Network :=
  (toggle_net activate nets.1, toggle_net activate nets.2).

(** ** More runs of the concrete instance *)
Module Scenarios.
Import Concrete.
#[local] Existing Instance ZK.
#[local] Existing Instance ZA.

(** Task 2 at test time, with a previous-model path that exists. *)
Definition test_options : @Opt ZK :=
  {| isTrain := false; task_num := 2; no_lifelong_training := false;
     prev_model_path := "ckpt/task1"; prev_model_epoch := 400;
     lambda_digesting_L1 := 100%nat; lambda_digesting_perceptual := 1%nat;
     lambda_reminding_L1 := 10%nat; lambda_reminding_perceptual := 1%nat;
     lambda_G := 3%nat; lambda_D := 7%nat |}.
Definition tested : @Model ZK ZA := the (init disk test_options).
Definition tested_ready : @Model ZK ZA := the (set_input (batch_of 4) tested).

(** A batch of task 2 whose stream 2 lacks its target image. *)
Definition incomplete_batch : gmap string (@BatchItem ZK) :=
  delete "B_2" (batch_of 4).

(** A model with task index 0. *)
Definition task0_init : @Model ZK ZA := the (init disk (options 0 false EmptyString)).

(** Task 1 trained on two batches. *)
Definition task1_init : @Model ZK ZA := the (init disk (options 1 false EmptyString)).
Definition two_batches : list (gmap string (@BatchItem ZK)) :=
  [batch_of 2; batch_of 2].
Definition task1_trained : @Model ZK ZA := the (@train ZK ZA two_batches task1_init).

(** The first cycle of task 2. *)
Definition task2_cycle : @Model ZK ZA := the (optimize_parameters task2).

(** The checkpoint of task 1 saved without [_metadata]. *)
Definition disk_without_metadata : gmap string (@Checkpoint ZK) :=
  {[ "ckpt/task1/400_net_G.pth" :=
       {| entries := Saved 400 true; _metadata := None |} ]}.

(** A generator with two dropout layers, bare and wrapped. *)
Definition unet : list Submodule :=
  [ {| class_of := OtherModule "UnetGenerator"; training := true |};
    {| class_of := OtherModule "Conv2d"; training := true |};
    {| class_of := Dropout; training := true |};
    {| class_of := OtherModule "BatchNorm2d"; training := false |};
    {| class_of := Dropout; training := false |} ].
Definition two_generators : Network * Network :=
  (DataParallel true unet, Bare unet).
End Scenarios.
(** ** Reasoning about results and loops *)

Lemma bind_Ok {A B : Type} (e : Res A) (f : A → Res B) (r : B) :
  e ≫= f = Ok r → ∃ a, e = Ok a ∧ f a = Ok r.
Proof. destruct e as [a|err]; simpl; [eauto | discriminate]. Qed.

Lemma attr_Ok {A : Type} (name : string) (a : option A) (x : A) :
  attr name a = Ok x → a = Some x.
Proof. destruct a; simpl; congruence. Qed.

(** Decompose a hypothesis saying that a sequence of calls returned. *)
Ltac unbind :=
  repeat match goal with
    | H : Ok _ = Ok _ |- _ => injection H as H; try subst
    | H : Raise _ = Ok _ |- _ => discriminate H
    | H : (_ ≫= _) = Ok _ |- _ => apply bind_Ok in H as (? & ? & H)
    | H : attr _ _ = Ok _ |- _ => apply attr_Ok in H
    | H : (let '(_, _) := ?x in _) = Ok _ |- _ => destruct x
    | H : (match ?x with (_, _) => _ end) = Ok _ |- _ => destruct x
    | H1 : ?e = Ok ?a, H2 : ?e = Ok ?b |- _ =>
        rewrite H1 in H2; injection H2 as H2; try subst
    end.

(** Two lookups of the same place give the same value. *)
Ltac same_lookup :=
  repeat match goal with
    | H1 : ?e = Some ?a, H2 : ?e = Some ?b |- _ =>
        rewrite H1 in H2; injection H2 as H2; try subst
    end.

Lemma range_two (a b : Z) : b = a + 2 → range a b = [a; a + 1].
Proof.
  intros ->. unfold range. replace (a + 2 - a) with 2 by lia.
  rewrite seqZ_cons by lia. rewrite seqZ_cons by lia. by rewrite seqZ_nil by lia.
Qed.

Lemma for_each_app {S X : Type} (body : S → X → Res S) (xs ys : list X) (s : S) :
  for_each body (xs ++ ys) s = for_each body xs s ≫= for_each body ys.
Proof.
  revert s. induction xs as [|x xs IH]; intros s; simpl; [done|].
  destruct (body s x); simpl; [apply IH | done].
Qed.

(** Loop invariant: [P done s] relates the state to the elements already
    visited. *)
Lemma for_each_ind {S X : Type} (P : list X → S → Prop)
    (body : S → X → Res S) (xs : list X) (s0 s' : S) :
  P [] s0 →
  (∀ done x s s1, P done s → body s x = Ok s1 → P (done ++ [x]) s1) →
  for_each body xs s0 = Ok s' → P xs s'.
Proof.
  intros H0 Hstep. revert s' . induction xs as [|x xs IH] using rev_ind; intros s'.
  - simpl. intros [= <-]. done.
  - rewrite for_each_app. intros H. apply bind_Ok in H as (s1 & H1 & H2).
    simpl in H2. apply bind_Ok in H2 as (s2 & H2 & [= <-]).
    eapply Hstep; [apply IH|]; eauto.
Qed.

(** Loop invariant that does not look at the elements. *)
Lemma for_each_inv {S X : Type} (P : S → Prop)
    (body : S → X → Res S) (xs : list X) (s0 s' : S) :
  P s0 →
  (∀ x s s1, P s → body s x = Ok s1 → P s1) →
  for_each body xs s0 = Ok s' → P s'.
Proof.
  intros H0 Hstep. apply (for_each_ind (λ _, P)); [done|]. intros _ x s s1. apply Hstep.
Qed.

Lemma py_index_lookup {A : Type} (l : list A) (k : nat) (x : A) :
  l !! k = Some x → py_index l (Z.of_nat k) = Ok x.
Proof.
  intros H. pose proof (lookup_lt_Some _ _ _ H) as Hlt. unfold py_index.
  rewrite (bool_decide_eq_false_2 (Z.of_nat k < 0)) by lia. cbv zeta iota.
  rewrite bool_decide_eq_true_2 by lia.
  by rewrite Nat2Z.id, H.
Qed.

Lemma py_index_Ok {A : Type} (l : list A) (i : Z) (x : A) :
  0 ≤ i → py_index l i = Ok x → l !! Z.to_nat i = Some x.
Proof.
  intros Hi. unfold py_index.
  rewrite (bool_decide_eq_false_2 (i < 0)) by lia. cbv zeta iota.
  case_bool_decide; [|discriminate].
  destruct (l !! Z.to_nat i); congruence.
Qed.


Lemma py_index_0 {A : Type} (x : A) (l : list A) : py_index (x :: l) 0 = Ok x.
Proof. by apply (py_index_lookup _ 0%nat). Qed.

Lemma py_index_1 {A : Type} (x y : A) (l : list A) : py_index (x :: y :: l) 1 = Ok y.
Proof. by apply (py_index_lookup _ 1%nat). Qed.

Lemma py_index_nil {A : Type} (i : Z) : py_index (@nil A) i = Raise IndexError.
Proof.
  unfold py_index. cbn [length].
  destruct (bool_decide (i < 0)); cbv zeta iota; case_bool_decide; [lia|done|lia|done].
Qed.

(** ** [__init__] and [load_prev_model] *)

Section Init.
Context `{A : Autograd}.

Lemma load_prev_model_found fs m c :
  fs !! checkpoint_path (opt m) = Some c →
  matches_generator (entries c) = true →
  load_prev_model fs m = Ok (loaded c m).
Proof.
  intros Hfs Hc. unfold load_prev_model, loaded.
  change (range 0 _) with [0; 1]. cbn -[checkpoint_path py_index].
  rewrite !py_index_0, !py_index_1.
  unfold torch_load, load_state_dict.
  repeat (cbn -[checkpoint_path]; rewrite ?Hfs, ?Hc). reflexivity.
Qed.

Lemma load_prev_model_missing fs m :
  fs !! checkpoint_path (opt m) = None →
  load_prev_model fs m = Raise (FileNotFoundError (checkpoint_path (opt m))).
Proof.
  intros Hfs. unfold load_prev_model.
  change (range 0 _) with [0; 1]. cbn -[checkpoint_path py_index].
  rewrite !py_index_0. cbn -[checkpoint_path py_index].
  unfold torch_load. cbn -[checkpoint_path py_index]. by rewrite Hfs.
Qed.

Lemma load_prev_model_mismatch fs m c :
  fs !! checkpoint_path (opt m) = Some c →
  matches_generator (entries c) = false →
  load_prev_model fs m = Raise (RuntimeError "Error(s) in loading state_dict").
Proof.
  intros Hfs Hc. unfold load_prev_model.
  change (range 0 _) with [0; 1]. cbn -[checkpoint_path py_index].
  rewrite !py_index_0. cbn -[checkpoint_path py_index].
  unfold torch_load. cbn -[checkpoint_path py_index]. rewrite Hfs.
  cbn -[checkpoint_path py_index].
  unfold load_state_dict. cbn -[checkpoint_path py_index]. by rewrite Hc.
Qed.

(** C10.  When a previous-model path is configured (training mode, the
    checkpoint file exists and fits the generator), [__init__] returns,
    and [load_prev_model] has read the one file
    [{prev_model_path}/{prev_model_epoch}_net_G.pth] twice and copied it
    into both the frozen generator [netG_prev] and the trainable
    generator [netG]: both start the task with the checkpoint's weights. *)
Theorem load_prev_model_same_checkpoint_for_both fs o c :
  isTrain o = true →
  prev_model_path o ≠ "" →
  fs !! checkpoint_path o = Some c →
  matches_generator (entries c) = true →
  checkpoint_path o =
    prev_model_path o +:+ "/" +:+ pretty (prev_model_epoch o) +:+ "_net_G.pth" ∧
  ∃ m, init fs o = Ok m ∧
    weights (netG_prev m) = entries c ∧
    weights (netG m) = entries c ∧
    trace m =
      [Printed ("loading the model from " +:+ checkpoint_path o);
       TorchLoad (checkpoint_path o);
       Printed ("loading the model from " +:+ checkpoint_path o);
       TorchLoad (checkpoint_path o)].
Proof.
  intros Htrain Hpath Hfs Hc. split; [reflexivity|].
  unfold init. rewrite Htrain. rewrite bool_decide_eq_true_2 by done.
  cbn -[checkpoint_path range]. rewrite (load_prev_model_found _ _ c) by done.
  eexists. split; [reflexivity|]. by cbn -[checkpoint_path].
Qed.

(** C2, as the code has it.  In training mode, an empty previous-model
    path is not an error, whatever the task index and the lifelong flag:
    [load_prev_model] is skipped and [__init__] returns with both
    generators at their fresh initialisation.  A non-empty path whose
    checkpoint file is missing, or does not fit the generator, is fatal. *)
Theorem init_previous_model_path fs o :
  isTrain o = true →
  (prev_model_path o = "" →
     ∃ m, init fs o = Ok m ∧ netG_prev m = define_G 1 ∧ netG m = define_G 0 ∧
          trace m = []) ∧
  (prev_model_path o ≠ "" → fs !! checkpoint_path o = None →
     init fs o = Raise (FileNotFoundError (checkpoint_path o))) ∧
  (prev_model_path o ≠ "" →
     ∀ c, fs !! checkpoint_path o = Some c → matches_generator (entries c) = false →
     init fs o = Raise (RuntimeError "Error(s) in loading state_dict")).
Proof.
  intros Htrain. unfold init. rewrite Htrain. repeat split.
  - intros ->. rewrite bool_decide_eq_false_2 by (intros H; by apply H).
    eexists. split; [reflexivity|]. done.
  - intros Hpath Hfs. rewrite bool_decide_eq_true_2 by done.
    cbn -[checkpoint_path range]. by rewrite load_prev_model_missing.
  - intros Hpath c Hfs Hc. rewrite bool_decide_eq_true_2 by done.
    cbn -[checkpoint_path range]. by rewrite (load_prev_model_mismatch _ _ c).
Qed.
End Init.

(** ** Updates of the model record *)

Section Updates.
Context `{A : Autograd}.

Lemma emits_nil m : emits [] m = m.
Proof. destruct m. unfold emits, set_trace. simpl. by rewrite app_nil_r. Qed.

Lemma emits_emits es es' m : emits es' (emits es m) = emits (es ++ es') m.
Proof. unfold emits, set_trace. simpl. by rewrite app_assoc. Qed.

Lemma emit_emits e es m : emit e (emits es m) = emits (es ++ [e]) m.
Proof. apply emits_emits. Qed.

Lemma set_rng_same m : set_rng (rng m) m = m.
Proof. by destruct m. Qed.

Lemma set_rng_emits k es m : set_rng k (emits es m) = emits es (set_rng k m).
Proof. reflexivity. Qed.

Lemma set_rng_set_rng k j m : set_rng k (set_rng j m) = set_rng k m.
Proof. reflexivity. Qed.

Lemma mod2_even (t : Z) : (2 * t - 2) `mod` 2 = 0.
Proof. replace (2 * t - 2) with ((t - 1) * 2) by lia. apply Z.mod_mul. lia. Qed.

Lemma mod2_odd (t : Z) : (2 * t - 2 + 1) `mod` 2 = 1.
Proof.
  replace (2 * t - 2 + 1) with (1 + (t - 1) * 2) by lia.
  rewrite Z.mod_add by lia. reflexivity.
Qed.

Lemma mod2_odd' (t : Z) : (2 * t - 1) `mod` 2 = 1.
Proof. replace (2 * t - 1) with (2 * t - 2 + 1) by lia. apply mod2_odd. Qed.

Lemma sum_pair_two (x0 x1 y0 y1 : Tensor) :
  sum_pair [x0; x1] [y0; y1] = Ok (Some (Add x0 x1), Some (Add y0 y1)).
Proof.
  unfold sum_pair. change (range 0 _) with [0; 1].
  by repeat (cbn -[py_index]; rewrite ?py_index_0, ?py_index_1).
Qed.

Lemma sum_triple_two (x0 x1 y0 y1 z0 z1 : Tensor) :
  sum_triple [x0; x1] [y0; y1] [z0; z1] =
    Ok (Some (Add x0 x1), Some (Add y0 y1), Some (Add z0 z1)).
Proof.
  unfold sum_triple. change (range 0 _) with [0; 1].
  by repeat (cbn -[py_index]; rewrite ?py_index_0, ?py_index_1).
Qed.
End Updates.

(** ** The forward pass *)

Section Forward.
Context `{A : Autograd}.

(** The previous-task loop of [forward]. *)
Lemma forward_previous_loop (b : Batch) (m0 : Model) (idx : list Z) curG prevG m' :
  for_each (λ '(curG, prevG, m) i,
      x ← py_index (real_A b) i;
      let '(y, m) := call_generator NetG (netG m) x m in
      x' ← py_index (real_A b) i;
      let '(z, m) := call_generator NetG_prev (netG_prev m) x' m in
      Ok (curG ++ [y], prevG ++ [z], m)) idx ([], [], m0) = Ok (curG, prevG, m') →
  (∃ k, m' = emits (idx ≫= (λ _, [Called NetG; Called NetG_prev])) (set_rng k m0)) ∧
  Forall2 (generated_from NetG (netG m0) (real_A b)) idx curG ∧
  Forall2 (generated_from NetG_prev (netG_prev m0) (real_A b)) idx prevG.
Proof.
  intros H.
  apply (for_each_ind (λ done '(curG, prevG, m'),
    (∃ k, m' = emits (done ≫= (λ _, [Called NetG; Called NetG_prev])) (set_rng k m0)) ∧
    Forall2 (generated_from NetG (netG m0) (real_A b)) done curG ∧
    Forall2 (generated_from NetG_prev (netG_prev m0) (real_A b)) done prevG) _ _ _ _ ) in H;
    [done| |].
  - split; [|split; constructor].
    exists (rng m0). by rewrite set_rng_same, emits_nil.
  - clear. intros done i [[cG pG] m] [[cG' pG'] m'] ([k ->] & HG & HP) Hbody.
    unfold call_generator in Hbody. unbind.
    split; [|split].
    + eexists. rewrite bind_app, bind_singleton. unfold emit.
      rewrite !set_rng_emits, !emits_emits, !set_rng_set_rng.
      rewrite <- ?app_assoc. reflexivity.
    + apply Forall2_app; [done|]. repeat constructor. eexists _, _. split; [done|].
      reflexivity.
    + apply Forall2_app; [done|]. repeat constructor. eexists _, _. split; [done|].
      reflexivity.
Qed.

Lemma forward_spec m m1 :
  forward m = Ok m1 →
  ∃ b a0 a1 ret k,
    batch m = Some b ∧
    py_index (real_A b) (2 * task_num (opt m) - 2) = Ok a0 ∧
    py_index (real_A b) (2 * task_num (opt m) - 1) = Ok a1 ∧
    let gen := GenCall NetG (weights (netG m)) (requires_grad (netG m)) in
    m1 = set_outputs
           {| fake_B := [gen (rng m) a0; gen (S (rng m)) a1];
              fake_B_cur1 := gen (rng m) a0;
              fake_B_cur2 := gen (S (rng m)) a1;
              retained := ret |}
           (emits (forward_events (opt m)) (set_rng k m)) ∧
    (retention (opt m) = false → ret = outputs m ≫= retained) ∧
    (retention (opt m) = true → ∃ r, ret = Some r ∧
       Forall2 (generated_from NetG (netG m) (real_A b))
         (range 0 (2 * task_num (opt m) - 2)) (fake_B_curG r) ∧
       Forall2 (generated_from NetG_prev (netG_prev m) (real_A b))
         (range 0 (2 * task_num (opt m) - 2)) (fake_B_prevG r)).
Proof.
  intros H. unfold forward in H.
  apply bind_Ok in H as (b & Hb & H). apply attr_Ok in Hb.
  rewrite (range_two (2 * task_num (opt m) - 2)) in H by lia.
  replace (2 * task_num (opt m) - 2 + 1) with (2 * task_num (opt m) - 1) in H by lia.
  cbn [for_each] in H. unfold call_generator in H.
  apply bind_Ok in H as ([fake m'] & Hloop & H).
  apply bind_Ok in Hloop as ([fake0 m0'] & H0 & Hloop).
  apply bind_Ok in H0 as (a0 & Ha0 & H0). injection H0 as <- <-.
  apply bind_Ok in Hloop as ([fake1 m1'] & H1 & Hloop).
  apply bind_Ok in H1 as (a1 & Ha1 & H1). injection H1 as <- <-.
  injection Hloop as <- <-.
  cbn -[py_index] in H. rewrite py_index_0, py_index_1 in H.
  cbn -[py_index] in H.
  apply bind_Ok in H as ([ret m2] & Hret & H). injection H as <-.
  unfold forward_events.
  destruct (retention (opt m)) eqn:Hr.
  - apply bind_Ok in Hret as ([[curG prevG] m3] & Hprev & Hret).
    apply forward_previous_loop in Hprev as ([k ->] & HG & HP).
    unbind.
    exists b, a0, a1, (Some {| fake_B_curG := curG; fake_B_prevG := prevG;
                               fake_B_cur_prev1 := x; fake_B_cur_prev2 := x0;
                               fake_B_prev1 := x1; fake_B_prev2 := x2 |}), k.
    split; [done|]. split; [done|]. split; [done|]. split; [|split; [done|]].
    + unfold emit. by rewrite !set_rng_emits, !emits_emits, !set_rng_set_rng.
    + intros _. eexists. split; [done|]. done.
  - injection Hret as <- <-.
    exists b, a0, a1, (outputs m ≫= retained), (S (S (rng m))).
    split; [done|]. split; [done|]. split; [done|]. split; [|done].
    unfold emit. by rewrite !set_rng_emits, !emits_emits, !set_rng_set_rng, app_nil_r.
Qed.
End Forward.

(** ** The discriminator step *)

Section DiscriminatorStep.
Context `{A : Autograd}.

Lemma call_discriminator_Ok i x m y m' :
  call_discriminator i x m = Ok (y, m') →
  isTrain (opt m) = true ∧
  ∃ d, netD m !! Z.to_nat (i `mod` 2) = Some d ∧
    y = DiscCall (NetD (Z.to_nat (i `mod` 2))) (weights d) (requires_grad d) x ∧
    m' = emit (Called (NetD (Z.to_nat (i `mod` 2)))) m.
Proof.
  unfold call_discriminator, self_netD. intros H.
  destruct (isTrain (opt m)); [|done]. split; [done|].
  cbn -[py_index] in H. apply bind_Ok in H as (d & Hd & [= <- <-]).
  apply py_index_Ok in Hd; [|apply Z.mod_pos_bound; lia]. eauto.
Qed.

Lemma backward_D_spec m m' :
  backward_D m = Ok m' →
  ∃ b out d0 d1 a0 a1 r0 r1 f0 f1,
    isTrain (opt m) = true ∧ batch m = Some b ∧ outputs m = Some out ∧
    netD m !! 0%nat = Some d0 ∧ netD m !! 1%nat = Some d1 ∧
    py_index (real_A b) (2 * task_num (opt m) - 2) = Ok a0 ∧
    py_index (real_A b) (2 * task_num (opt m) - 1) = Ok a1 ∧
    py_index (real_B b) (2 * task_num (opt m) - 2) = Ok r0 ∧
    py_index (real_B b) (2 * task_num (opt m) - 1) = Ok r1 ∧
    fake_B out !! 0%nat = Some f0 ∧ fake_B out !! 1%nat = Some f1 ∧
    let ld := expected_losses_D (opt m) d0 d1 a0 a1 r0 r1 f0 f1 in
    leaves (loss_D ld) ≠ [] ∧
    m' = emit (Backward "loss_D")
           (received (loss_D ld)
             (set_losses_D ld
               (emits [Called (NetD 0); Called (NetD 0);
                       Called (NetD 1); Called (NetD 1)] m))).
Proof.
  intros H. unfold backward_D in H.
  apply bind_Ok in H as (b & Hb & H). apply attr_Ok in Hb.
  apply bind_Ok in H as (out & Hout & H). apply attr_Ok in Hout.
  rewrite (range_two (2 * task_num (opt m) - 2)) in H by lia.
  cbn [for_each] in H.
  apply bind_Ok in H as ([[fakes reals] m2] & Hloop & H).
  apply bind_Ok in Hloop as ([[fk0 rl0] m0'] & Hb0 & Hloop).
  apply bind_Ok in Hloop as ([[fk1 rl1] m1'] & Hb1 & Hloop).
  injection Hloop as <- <- <-.
  rewrite mod2_even in Hb0. rewrite mod2_odd in Hb1.
  replace (2 * task_num (opt m) - 2 + 1) with (2 * task_num (opt m) - 1) in Hb1 by lia.
  unbind.
  repeat match goal with
    | H : call_discriminator _ _ _ = Ok _ |- _ =>
        apply call_discriminator_Ok in H as (? & ? & ? & ? & ?); subst
    end.
  rewrite ?mod2_even, ?mod2_odd' in *.
  change (Z.to_nat 0) with 0%nat in *. change (Z.to_nat 1) with 1%nat in *.
  cbn -[py_index] in *. same_lookup.
  rewrite sum_pair_two in *. unbind. cbn -[py_index] in *. unbind.
  unfold backward in H.
  match type of H with
  | match ?l with _ => _ end = _ => destruct l eqn:Hleaves; [done|]
  end.
  injection H as <-.
  apply (py_index_Ok _ 0) in H5; [|done]. apply (py_index_Ok _ 1) in H2; [|done].
  change (Z.to_nat 0) with 0%nat in *. change (Z.to_nat 1) with 1%nat in *.
  do 10 eexists. repeat (split; [eassumption|]).
  split; [|unfold emit; rewrite !emits_emits; reflexivity].
  intros Hnil. cbn in Hnil, Hleaves. congruence.
Qed.
End DiscriminatorStep.

(** ** The generator step *)

Section GeneratorStep.
Context `{A : Autograd}.

(** The accumulation loops add the terms up in order. *)
Lemma sum_pair_total (xs ys : list Tensor) :
  length xs = length ys → sum_pair xs ys = Ok (total xs, total ys).
Proof.
  intros Hlen. unfold sum_pair, range. rewrite Z.sub_0_r.
  assert (∀ n, (n ≤ length xs)%nat →
    for_each (λ '(xa, ya) i,
      match xa with
      | None => x ← py_index xs i; y ← py_index ys i; Ok (Some x, Some y)
      | Some _ =>
          x ← py_index xs i; xa' ← iadd xa x;
          y ← py_index ys i; ya' ← iadd ya y; Ok (Some xa', Some ya')
      end) (seqZ 0 (Z.of_nat n)) (None, None)
    = Ok (total (take n xs), total (take n ys))) as Hgen.
  { induction n as [|n IH]; intros Hn; [done|].
    rewrite seqZ_S, for_each_app, IH by lia. cbn [mbind Res_bind for_each].
    destruct (lookup_lt_is_Some_2 xs n) as [x Hx]; [lia|].
    destruct (lookup_lt_is_Some_2 ys n) as [y Hy]; [lia|].
    rewrite (take_S_r _ _ _ Hx), (take_S_r _ _ _ Hy).
    rewrite Z.add_0_l, (py_index_lookup _ _ _ Hx), (py_index_lookup _ _ _ Hy).
    destruct n as [|n].
    - by rewrite !take_0.
    - destruct xs as [|x0 xs]; [simpl in Hn; lia|].
      destruct ys as [|y0 ys]; [done|].
      cbn [take total app]. cbn -[py_index]. by rewrite !foldl_snoc. }
  rewrite Hgen by done. by rewrite firstn_all, Hlen, firstn_all.
Qed.

(** The previous-task loop of [backward_G]. *)
Lemma reminding_loop (ret : Retained) (idx : list Z) rl1s rpercs :
  for_each (λ '(rl1s, rpercs) i,
      c ← py_index (fake_B_curG ret) i;
      p ← py_index (fake_B_prevG ret) i;
      c' ← py_index (fake_B_curG ret) i;
      let pred_feat_G := Vgg c' in
      p' ← py_index (fake_B_prevG ret) i;
      let pred_feat_G_prev := Vgg p' in
      Ok (rl1s ++ [CriterionL1 c p],
          rpercs ++ [CriterionPerceptual pred_feat_G pred_feat_G_prev]))
    idx ([], []) = Ok (rl1s, rpercs) →
  Forall2 (reminding_term_of reminding_L1_term ret) idx rl1s ∧
  Forall2 (reminding_term_of reminding_perceptual_term ret) idx rpercs.
Proof.
  intros H.
  apply (for_each_ind (λ done '(rl1s, rpercs),
    Forall2 (reminding_term_of reminding_L1_term ret) done rl1s ∧
    Forall2 (reminding_term_of reminding_perceptual_term ret) done rpercs)
    _ _ _ _) in H; [done|by split; constructor|].
  clear. intros done i [l p] [l' p'] [Hl Hp] Hbody. cbv zeta in Hbody. unbind.
  split; (apply Forall2_app; [done|]); repeat constructor;
    eexists _, _; eauto.
Qed.

Lemma backward_G_spec m m' :
  backward_G m = Ok m' →
  ∃ b out d0 d1 a0 a1 r0 r1 f0 f1 rem loss,
    isTrain (opt m) = true ∧ batch m = Some b ∧ outputs m = Some out ∧
    netD m !! 0%nat = Some d0 ∧ netD m !! 1%nat = Some d1 ∧
    py_index (real_A b) (2 * task_num (opt m) - 2) = Ok a0 ∧
    py_index (real_A b) (2 * task_num (opt m) - 1) = Ok a1 ∧
    py_index (real_B b) (2 * task_num (opt m) - 2) = Ok r0 ∧
    py_index (real_B b) (2 * task_num (opt m) - 1) = Ok r1 ∧
    fake_B out !! 0%nat = Some f0 ∧ fake_B out !! 1%nat = Some f1 ∧
    let lg := expected_losses_G d0 d1 a0 a1 r0 r1 f0 f1 rem loss in
    leaves loss ≠ [] ∧
    m' = emit (Backward "loss_G")
           (received loss
             (set_losses_G lg (emits [Called (NetD 0); Called (NetD 1)] m))) ∧
    (retention (opt m) = true →
       ∃ ret rl1s rpercs, retained out = Some ret ∧
         Forall2 (reminding_term_of reminding_L1_term ret)
           (range 0 (2 * task_num (opt m) - 2)) rl1s ∧
         Forall2 (reminding_term_of reminding_perceptual_term ret)
           (range 0 (2 * task_num (opt m) - 2)) rpercs ∧
         rem = Some (expected_reminding rl1s rpercs)) ∧
    (retention (opt m) = false → rem = losses_G m ≫= reminding) ∧
    (task_num (opt m) = 1 ∨ no_lifelong_training (opt m) = true →
       loss = composed_loss_G (opt m) (loss_G_GAN_all lg) (loss_G_L1_all lg)
                (loss_G_perceptual_all lg) None) ∧
    (¬ (task_num (opt m) = 1 ∨ no_lifelong_training (opt m) = true) →
       ∃ r ra rp, rem = Some r ∧
         loss_reminding_L1_all r = Some ra ∧
         loss_reminding_perceptual_all r = Some rp ∧
         loss = composed_loss_G (opt m) (loss_G_GAN_all lg) (loss_G_L1_all lg)
                  (loss_G_perceptual_all lg) (Some (ra, rp))).
Proof.
  intros H. unfold backward_G in H. cbv zeta in H.
  apply bind_Ok in H as (b & Hb & H). apply attr_Ok in Hb.
  apply bind_Ok in H as (out & Hout & H). apply attr_Ok in Hout.
  rewrite (range_two (2 * task_num (opt m) - 2)) in H by lia.
  cbn [for_each] in H.
  apply bind_Ok in H as ([[[gans l1s] percs] m2] & Hloop & H).
  apply bind_Ok in Hloop as ([[[g0 l0] p0] m0'] & Hb0 & Hloop).
  apply bind_Ok in Hloop as ([[[g1 l1] p1] m1'] & Hb1 & Hloop).
  injection Hloop as <- <- <- <-.
  rewrite mod2_even in Hb0. rewrite mod2_odd in Hb1.
  replace (2 * task_num (opt m) - 2 + 1) with (2 * task_num (opt m) - 1) in Hb1 by lia.
  apply bind_Ok in H as ([[gan_all l1_all] perc_all] & Hsum & H).
  apply bind_Ok in H as (rem & Hrem & H).
  apply bind_Ok in H as (ga & Hga & H).
  apply bind_Ok in H as (la & Hla & H).
  apply bind_Ok in H as (pa & Hpa & H).
  apply bind_Ok in H as (loss & Hloss & H).
  unbind.
  repeat match goal with
    | H : call_discriminator _ _ _ = Ok _ |- _ =>
        apply call_discriminator_Ok in H as (? & ? & ? & ? & ?); subst
    end.
  rewrite ?mod2_even, ?mod2_odd' in *.
  change (Z.to_nat 0) with 0%nat in *. change (Z.to_nat 1) with 1%nat in *.
  cbn -[py_index retention] in *. same_lookup.
  rewrite sum_triple_two in Hsum. injection Hsum as <- <- <-.
  cbn in Hga, Hla, Hpa. injection Hga as <-. injection Hla as <-. injection Hpa as <-.
  unfold backward in H.
  match type of H with
  | match ?l with _ => _ end = _ => destruct l eqn:Hleaves; [done|]
  end.
  injection H as <-.
  repeat match goal with
    | H : py_index (fake_B out) 0 = Ok _ |- _ => apply (py_index_Ok _ 0) in H; [|done]
    | H : py_index (fake_B out) 1 = Ok _ |- _ => apply (py_index_Ok _ 1) in H; [|done]
    end.
  change (Z.to_nat 0) with 0%nat in *. change (Z.to_nat 1) with 1%nat in *.
  do 10 eexists. exists rem, loss. repeat (split; [eassumption|]).
  split; [congruence|].
  split; [unfold emit; rewrite !emits_emits; reflexivity|].
  split; [|split; [|split]].
  - intros Hr. rewrite Hr in Hrem.
    apply bind_Ok in Hrem as (ret & Hret & Hrem). apply attr_Ok in Hret.
    apply bind_Ok in Hrem as ([rl1s rpercs] & Hl & Hrem).
    apply bind_Ok in Hrem as ([rl1_all rperc_all] & Hs & [= <-]).
    apply reminding_loop in Hl as [Hl1 Hl2].
    rewrite sum_pair_total in Hs
      by (by rewrite <- (Forall2_length _ _ _ Hl1), <- (Forall2_length _ _ _ Hl2)).
    injection Hs as <- <-. by exists ret, rl1s, rpercs.
  - intros Hr. rewrite Hr in Hrem. by injection Hrem as <-.
  - intros Hc.
    assert (bool_decide (task_num (opt m) = 1) || no_lifelong_training (opt m) = true)
      as Hb'. { destruct Hc as [->| ->]; [done|]. apply orb_true_r. }
    rewrite Hb' in Hloss. by injection Hloss as <-.
  - intros Hc.
    assert (bool_decide (task_num (opt m) = 1) || no_lifelong_training (opt m) = false)
      as Hb'.
    { apply orb_false_iff. split.
      - apply bool_decide_eq_false_2. tauto.
      - destruct (no_lifelong_training (opt m)); [tauto|done]. }
    rewrite Hb' in Hloss.
    apply bind_Ok in Hloss as (r & Hr & Hloss). apply attr_Ok in Hr.
    apply bind_Ok in Hloss as (ra & Hra & Hloss).
    apply bind_Ok in Hloss as (rp & Hrp & [= <-]).
    destruct (loss_reminding_L1_all r) eqn:E1; [|done].
    destruct (loss_reminding_perceptual_all r) eqn:E2; [|done].
    injection Hra as <-. injection Hrp as <-. by eexists _, _, _.
Qed.
End GeneratorStep.

(** ** The two halves of [optimize_parameters] *)

Section Updates2.
Context `{A : Autograd}.

Lemma step_each_spec m o0 o1 d0 d1 :
  optimizer_D m = [o0; o1] →
  params o0 = NetD 0 → params o1 = NetD 1 →
  netD m = [d0; d1] →
  ∃ d0' d1' os,
    step_each m =
      set_optimizer_D os
        (emits [Step (NetD 0); Step (NetD 1)] (set_netD [d0'; d1'] m)) ∧
    params <$> os = [NetD 0; NetD 1] ∧
    requires_grad d0' = requires_grad d0 ∧ requires_grad d1' = requires_grad d1 ∧
    grad d0' = grad d0 ∧ grad d1' = grad d1.
Proof.
  intros HO Hp0 Hp1 HD. unfold step_each, step. rewrite HO.
  repeat (cbn; rewrite ?HD, ?Hp0, ?Hp1).
  destruct (grad d0) as [g0|] eqn:Hg0;
    [destruct (adam (state o0) (weights d0) g0) as [s0 w0]|];
    repeat (cbn; rewrite ?HD, ?Hp0, ?Hp1);
    (destruct (grad d1) as [g1|] eqn:Hg1;
      [destruct (adam (state o1) (weights d1) g1) as [s1 w1]|]);
    repeat (cbn; rewrite ?HD, ?Hp0, ?Hp1).
  - exists (set_weights w0 d0), (set_weights w1 d1). eexists.
    split; [unfold emit, emits, set_trace, set_netD, set_optimizer_D; cbn;
            by rewrite <- !app_assoc|by cbn; rewrite ?Hp0, ?Hp1].
  - exists (set_weights w0 d0), d1. eexists.
    split; [unfold emit, emits, set_trace, set_netD, set_optimizer_D; cbn;
            by rewrite <- !app_assoc|by cbn; rewrite ?Hp0, ?Hp1].
  - exists d0, (set_weights w1 d1). eexists.
    split; [unfold emit, emits, set_trace, set_netD, set_optimizer_D; cbn;
            by rewrite <- !app_assoc|by cbn; rewrite ?Hp0, ?Hp1].
  - exists d0, d1. eexists.
    split; [unfold emit, emits, set_trace, set_netD, set_optimizer_D; cbn;
            by rewrite <- !app_assoc, <- HD|by cbn; rewrite ?Hp0, ?Hp1].
Qed.

Lemma update_D_spec m m' d0 d1 o0 o1 :
  netD m = [d0; d1] →
  optimizer_D m = [o0; o1] →
  params o0 = NetD 0 → params o1 = NetD 1 →
  update_D m = Ok m' →
  ∃ b out a0 a1 r0 r1 f0 f1 e0 e1 d0' d1',
    batch m = Some b ∧ outputs m = Some out ∧
    py_index (real_A b) (2 * task_num (opt m) - 2) = Ok a0 ∧
    py_index (real_A b) (2 * task_num (opt m) - 1) = Ok a1 ∧
    py_index (real_B b) (2 * task_num (opt m) - 2) = Ok r0 ∧
    py_index (real_B b) (2 * task_num (opt m) - 1) = Ok r1 ∧
    fake_B out !! 0%nat = Some f0 ∧ fake_B out !! 1%nat = Some f1 ∧
    weights e0 = weights d0 ∧ weights e1 = weights d1 ∧
    requires_grad e0 = true ∧ requires_grad e1 = true ∧
    let ld := expected_losses_D (opt m) e0 e1 a0 a1 r0 r1 f0 f1 in
    losses_D m' = Some ld ∧
    opt m' = opt m ∧ batch m' = batch m ∧ outputs m' = outputs m ∧
    losses_G m' = losses_G m ∧ rng m' = rng m ∧
    optimizer_G m' = optimizer_G m ∧
    params <$> optimizer_D m' = params <$> optimizer_D m ∧
    netG m' = receive (loss_D ld) NetG (netG m) ∧
    netG_prev m' = receive (loss_D ld) NetG_prev (netG_prev m) ∧
    netD m' = [d0'; d1'] ∧
    requires_grad d0' = true ∧ requires_grad d1' = true ∧
    trace m' = trace m ++ update_D_events.
Proof.
  intros HD HO Hp0 Hp1 H. unfold update_D in H.
  apply bind_Ok in H as (? & _ & H).
  apply bind_Ok in H as (m2 & HbD & [= <-]).
  apply backward_D_spec in HbD
    as (b & out & e0 & e1 & a0 & a1 & r0 & r1 & f0 & f1 & Htr & Hb & Hout & He0 & He1 &
        Ha0 & Ha1 & Hr0 & Hr1 & Hf0 & Hf1 & Hleaves & ->).
  unfold set_requires_grad, zero_grad_each in *. cbn -[py_index] in *.
  rewrite HO in *. cbn -[py_index] in *.
  unfold zero_grad in *. rewrite Hp0, Hp1 in *. cbn -[py_index] in *.
  rewrite HD in *. cbn -[py_index] in *.
  injection He0 as <-. injection He1 as <-.
  set (e0 := set_grad (grad d0 ≫= zeroed) (set_flag true d0)) in *.
  set (e1 := set_grad (grad d1 ≫= zeroed) (set_flag true d1)) in *.
  set (ld := expected_losses_D (opt m) e0 e1 a0 a1 r0 r1 f0 f1) in *.
  match goal with
  | |- context [step_each ?mc] =>
      destruct (step_each_spec mc o0 o1 (receive (loss_D ld) (NetD 0) e0)
                  (receive (loss_D ld) (NetD 1) e1))
        as (d0' & d1' & os & -> & Hos & Hrg0 & Hrg1 & _); [done..|reflexivity|]
  end.
  exists b, out, a0, a1, r0, r1, f0, f1, e0, e1, d0', d1'.
  repeat split; try done;
    try (by rewrite ?Hrg0, ?Hrg1; unfold receive; case_bool_decide);
    try (by cbn; rewrite Hos, HO; cbn; rewrite Hp0, Hp1).
  unfold emit, emits. cbn. by rewrite <- !app_assoc.
Qed.

Lemma step_G_spec m og :
  params og = NetG →
  ∃ g' og',
    step og m = (og', set_netG g' (emit (Step NetG) m)) ∧
    params og' = NetG ∧
    requires_grad g' = requires_grad (netG m) ∧ grad g' = grad (netG m).
Proof.
  intros Hp. unfold step. rewrite Hp. cbn [get_net upd_net].
  destruct (grad (netG m)) as [g|] eqn:Hg.
  - destruct (adam (state og) (weights (netG m)) g) as [s w].
    exists (set_weights w (netG m)). eexists. split; [reflexivity|]. by cbn.
  - exists (netG m), og. split; [|done]. by f_equal.
Qed.

(** The state in which [update_G] calls [backward_G]. *)
Lemma update_G_unfold m m' og :
  optimizer_G m = Some og → params og = NetG →
  update_G m = Ok m' →
  ∃ m2 og2,
    isTrain (opt m) = true ∧
    backward_G
      (emit (ZeroGrad NetG)
        (set_netG (set_grad (grad (netG m) ≫= zeroed) (netG m))
          (emit (SetRequiresGrad false)
            (set_netD (set_flag false <$> netD m) m)))) = Ok m2 ∧
    optimizer_G m2 = Some og2 ∧
    m' = set_optimizer_G (Some (step og2 m2).1) (step og2 m2).2.
Proof.
  intros HO Hp H. unfold update_G, self_netD in H.
  destruct (isTrain (opt m)) eqn:Htr; [|done].
  apply bind_Ok in H as (? & _ & H).
  apply bind_Ok in H as (og1 & Hog1 & H). apply attr_Ok in Hog1.
  change (optimizer_G (set_requires_grad false m)) with (optimizer_G m) in Hog1.
  rewrite HO in Hog1. injection Hog1 as <-.
  unfold zero_grad, set_requires_grad in H. rewrite Hp in H.
  apply bind_Ok in H as (m2 & HbG & H).
  apply bind_Ok in H as (og2 & Hog2 & H). apply attr_Ok in Hog2.
  exists m2, og2. split; [done|]. split; [exact HbG|]. split; [done|].
  destruct (step og2 m2) as [og3 m3]. by injection H as <-.
Qed.

Lemma update_G_spec m m' d0 d1 og :
  netD m = [d0; d1] →
  optimizer_G m = Some og → params og = NetG →
  update_G m = Ok m' →
  ∃ b out a0 a1 r0 r1 f0 f1 rem loss og',
    batch m = Some b ∧ outputs m = Some out ∧
    py_index (real_A b) (2 * task_num (opt m) - 2) = Ok a0 ∧
    py_index (real_A b) (2 * task_num (opt m) - 1) = Ok a1 ∧
    py_index (real_B b) (2 * task_num (opt m) - 2) = Ok r0 ∧
    py_index (real_B b) (2 * task_num (opt m) - 1) = Ok r1 ∧
    fake_B out !! 0%nat = Some f0 ∧ fake_B out !! 1%nat = Some f1 ∧
    let e0 := set_flag false d0 in
    let e1 := set_flag false d1 in
    let lg := expected_losses_G e0 e1 a0 a1 r0 r1 f0 f1 rem loss in
    losses_G m' = Some lg ∧ leaves loss ≠ [] ∧
    (retention (opt m) = true →
       ∃ ret rl1s rpercs, retained out = Some ret ∧
         Forall2 (reminding_term_of reminding_L1_term ret)
           (range 0 (2 * task_num (opt m) - 2)) rl1s ∧
         Forall2 (reminding_term_of reminding_perceptual_term ret)
           (range 0 (2 * task_num (opt m) - 2)) rpercs ∧
         rem = Some (expected_reminding rl1s rpercs)) ∧
    (retention (opt m) = false → rem = losses_G m ≫= reminding) ∧
    (task_num (opt m) = 1 ∨ no_lifelong_training (opt m) = true →
       loss = composed_loss_G (opt m) (loss_G_GAN_all lg) (loss_G_L1_all lg)
                (loss_G_perceptual_all lg) None) ∧
    (¬ (task_num (opt m) = 1 ∨ no_lifelong_training (opt m) = true) →
       ∃ r ra rp, rem = Some r ∧
         loss_reminding_L1_all r = Some ra ∧
         loss_reminding_perceptual_all r = Some rp ∧
         loss = composed_loss_G (opt m) (loss_G_GAN_all lg) (loss_G_L1_all lg)
                  (loss_G_perceptual_all lg) (Some (ra, rp))) ∧
    opt m' = opt m ∧ batch m' = batch m ∧ outputs m' = outputs m ∧
    losses_D m' = losses_D m ∧ rng m' = rng m ∧
    optimizer_D m' = optimizer_D m ∧
    optimizer_G m' = Some og' ∧ params og' = NetG ∧
    netD m' = [receive loss (NetD 0) e0; receive loss (NetD 1) e1] ∧
    netG_prev m' = receive loss NetG_prev (netG_prev m) ∧
    requires_grad (netG m') = requires_grad (netG m) ∧
    grad (netG m') =
      grad (receive loss NetG (set_grad (grad (netG m) ≫= zeroed) (netG m))) ∧
    trace m' = trace m ++ update_G_events.
Proof.
  intros HD HO Hp H.
  destruct (update_G_unfold _ _ _ HO Hp H) as (m2 & og2 & Htr & HbG & Hog2 & ->).
  apply backward_G_spec in HbG
    as (b & out & e0 & e1 & a0 & a1 & r0 & r1 & f0 & f1 & rem & loss & _ & Hb & Hout &
        He0 & He1 & Ha0 & Ha1 & Hr0 & Hr1 & Hf0 & Hf1 & Hleaves & -> & Hret & Hnret &
        Hc1 & Hc2).
  change (optimizer_G _) with (optimizer_G m) in Hog2.
  rewrite HO in Hog2. injection Hog2 as <-.
  change (netD _) with (set_flag false <$> netD m) in He0, He1.
  rewrite HD in He0, He1. injection He0 as <-. injection He1 as <-.
  match goal with
  | |- context [step og ?mc] =>
      destruct (step_G_spec mc og Hp) as (g' & og' & -> & Hpg' & Hrg' & Hg')
  end.
  exists b, out, a0, a1, r0, r1, f0, f1, rem, loss, og'.
  change (task_num (opt _)) with (task_num (opt m)) in *.
  change (no_lifelong_training (opt _)) with (no_lifelong_training (opt m)) in *.
  change (retention (opt _)) with (retention (opt m)) in *.
  change (opt (emit _ _)) with (opt m) in *.
  split; [exact Hb|]. split; [exact Hout|].
  split; [exact Ha0|]. split; [exact Ha1|]. split; [exact Hr0|]. split; [exact Hr1|].
  split; [exact Hf0|]. split; [exact Hf1|]. cbv zeta.
  split; [reflexivity|]. split; [exact Hleaves|].
  split; [exact Hret|]. split; [exact Hnret|]. split; [exact Hc1|]. split; [exact Hc2|].
  split; [reflexivity|]. split; [reflexivity|]. split; [reflexivity|].
  split; [reflexivity|]. split; [reflexivity|]. split; [reflexivity|].
  split; [reflexivity|]. split; [exact Hpg'|].
  split.
  { cbn [fst snd].
    change (netD (set_optimizer_G _ _))
      with (imap (λ p, receive loss (NetD p)) (set_flag false <$> netD m)).
    rewrite HD. reflexivity. }
  split; [reflexivity|].
  split. { cbn [fst snd netG set_optimizer_G set_netG]. rewrite Hrg'. cbn.
           unfold receive. by case_bool_decide. }
  split. { cbn [fst snd netG set_optimizer_G set_netG]. rewrite Hg'. reflexivity. }
  unfold emit, emits. cbn. by rewrite <- !app_assoc.
Qed.
End Updates2.

(** ** What every state of a training session satisfies *)

Section Invariant.
Context `{A : Autograd}.

Lemma set_input_spec input m m' :
  set_input input m = Ok m' →
  ∃ bt, m' = set_batch bt m ∧
    1 ≤ task_num (opt m) ∧
    length (real_A bt) = Z.to_nat (2 * task_num (opt m)) ∧
    length (real_B bt) = Z.to_nat (2 * task_num (opt m)) ∧
    Forall plain (real_A bt) ∧ Forall plain (real_B bt).
Proof.
  intros H. unfold set_input in H. cbv zeta in H.
  apply bind_Ok in H as ([[rA rB] ps] & Hloop & H).
  apply (for_each_ind (λ done '(rA, rB, ps),
    length rA = length done ∧ length rB = length done ∧
    Forall plain rA ∧ Forall plain rB) _ _ _ _) in Hloop; [|done|].
  2:{ clear. intros done i [[rA rB] ps] [[rA' rB'] ps'] (HA & HB & HpA & HpB) Hbody.
      unbind. rewrite !length_app, HA, HB.
      destruct x2, x3; try done. cbn in *. unbind.
      repeat split; try done; apply Forall_app; by repeat constructor. }
  destruct Hloop as (HA & HB & HpA & HpB).
  unfold range in HA, HB. rewrite length_seqZ in HA, HB.
  replace (task_num (opt m) * 2 - 0) with (2 * task_num (opt m)) in HA, HB by lia.
  apply bind_Ok in H as (a1 & Ha1 & H).
  apply bind_Ok in H as (a2 & Ha2 & H).
  apply bind_Ok in H as (b1 & Hb1 & H).
  apply bind_Ok in H as (b2 & Hb2 & H).
  apply bind_Ok in H as (prev & Hprev & [= <-]).
  eexists. split; [reflexivity|]. cbn.
  repeat split; try done.
  destruct (decide (1 ≤ task_num (opt m))) as [|Hn]; [done|].
  destruct rA; [by rewrite py_index_nil in Ha1|]. simpl in HA. lia.
Qed.

Lemma init_invariant fs o m :
  init fs o = Ok m → opt m = o ∧ invariant m.
Proof.
  unfold init. intros H.
  apply bind_Ok in H as (m1 & Hload & H).
  assert (opt m1 = o ∧ requires_grad (netG m1) = true ∧
          requires_grad (netG_prev m1) = true ∧
          netD m1 = (if isTrain o then [define_D 0; define_D 1] else []) ∧
          batch m1 = None ∧ outputs m1 = None ∧ losses_G m1 = None)
    as (Ho & HG & HP & HD & Hb & Hout & HlG).
  { destruct (isTrain o && bool_decide (prev_model_path o ≠ "")) eqn:E.
    - set (m0 := Build_Model _ _ _ _ _ _ _ _ _ _ _ _) in Hload.
      destruct (fs !! checkpoint_path (opt m0)) as [c|] eqn:Hfs;
        [|by rewrite load_prev_model_missing in Hload].
      destruct (matches_generator (entries c)) eqn:Hc;
        [|by rewrite (load_prev_model_mismatch _ _ c) in Hload].
      rewrite (load_prev_model_found _ _ c) in Hload by done.
      injection Hload as <-. by cbn.
    - injection Hload as <-. by cbn. }
  destruct (isTrain o) eqn:Htr; injection H as <-; cbn; rewrite ?HD, ?Hb, ?Hout, ?HlG;
    (split; [done|]); repeat split; try done;
    cbn in *; rewrite ?HD, ?Hb, ?Hout, ?HlG in *; try done; congruence.
Qed.

Lemma invariant_shapes m :
  invariant m → isTrain (opt m) = true →
  ∃ d0 d1 o0 o1 og,
    netD m = [d0; d1] ∧ optimizer_D m = [o0; o1] ∧
    params o0 = NetD 0 ∧ params o1 = NetD 1 ∧
    optimizer_G m = Some og ∧ params og = NetG.
Proof.
  intros (_ & _ & Htr & _) H. destruct (Htr H) as (HD & HO & HG).
  destruct (netD m) as [|d0 [|d1 [|]]]; try done.
  destruct (optimizer_D m) as [|o0 [|o1 [|]]]; try done.
  destruct (optimizer_G m) as [og|]; [|done].
  injection HO as ? ?. injection HG as ?. by exists d0, d1, o0, o1, og.
Qed.

Lemma set_input_invariant input m m' :
  invariant m → set_input input m = Ok m' → opt m' = opt m ∧ invariant m'.
Proof.
  intros (HG & HP & Htr & Hb & Hr) H.
  pose proof H as H'. apply set_input_spec in H' as (bt & -> & ? & ? & ? & ? & ?).
  split; [done|]. repeat split; try done; cbn.
  all: try (by apply Htr). all: try (by apply Hr).
  all: match goal with
       | H : batch (set_batch _ _) = Some _ |- _ => cbn in H; injection H as <-
       end; done.
Qed.

Lemma forward_invariant m m1 :
  invariant m → forward m = Ok m1 →
  invariant m1 ∧ opt m1 = opt m ∧ batch m1 = batch m ∧
  netG m1 = netG m ∧ netG_prev m1 = netG_prev m ∧ netD m1 = netD m ∧
  optimizer_D m1 = optimizer_D m ∧ optimizer_G m1 = optimizer_G m ∧
  losses_G m1 = losses_G m ∧ losses_D m1 = losses_D m.
Proof.
  intros (HG & HP & Htr & Hb & Hr) H.
  apply forward_spec in H
    as (b & a0 & a1 & ret & k & Hbt & Ha0 & Ha1 & -> & Hnr & Hrt).
  split; [|done]. unfold invariant. cbn.
  split; [done|]. split; [done|]. split; [exact Htr|]. split; [exact Hb|].
  intros Hf. rewrite (Hnr Hf). by apply Hr.
Qed.

Lemma optimize_parameters_invariant m m' :
  invariant m → optimize_parameters m = Ok m' → opt m' = opt m ∧ invariant m'.
Proof.
  intros Hinv H. unfold optimize_parameters in H.
  apply bind_Ok in H as (m1 & Hf & H). apply bind_Ok in H as (m2 & HuD & HuG).
  destruct (forward_invariant _ _ Hinv Hf)
    as (Hinv1 & Ho1 & Hb1 & HG1 & HP1 & HD1 & HoD1 & HoG1 & HlG1 & HlD1).
  assert (isTrain (opt m1) = true) as Htr1.
  { unfold update_D, self_netD in HuD. by destruct (isTrain (opt m1)). }
  destruct (invariant_shapes _ Hinv1 Htr1)
    as (d0 & d1 & o0 & o1 & og & HD & HO & Hp0 & Hp1 & HOG & Hpg).
  destruct (update_D_spec _ _ _ _ _ _ HD HO Hp0 Hp1 HuD)
    as (b & out & a0 & a1 & r0 & r1 & f0 & f1 & e0 & e1 & d0' & d1' & Hbt & Hout &
        _ & _ & _ & _ & _ & _ & _ & _ & _ & _ & HlD2 & Ho2 & Hb2 & Hout2 & HlG2 &
        Hrng2 & HoG2 & HoD2 & HG2 & HP2 & HD2 & Hrg0 & Hrg1 & Htrace2).
  assert (optimizer_G m2 = Some og) as HOG2 by congruence.
  destruct (update_G_spec _ _ _ _ _ HD2 HOG2 Hpg HuG)
    as (b' & out' & a0' & a1' & r0' & r1' & f0' & f1' & rem & loss & og' & _ & Hout' &
        _ & _ & _ & _ & _ & _ & HlG3 & _ & _ & Hnrem & _ & _ &
        Ho3 & Hb3 & Hout3 & HlD3 & Hrng3 & HoD3 & HoG3 & Hpg3 & HD3 & HP3 & HrgG3 &
        _ & Htrace3).
  destruct Hinv1 as (HrG & HrP & Htr & Hbi & Hri).
  split; [congruence|]. unfold invariant.
  rewrite Ho3, Ho2, Hb3, Hb2.
  split. { rewrite HrgG3, HG2. unfold receive. by case_bool_decide. }
  split. { rewrite HP3, HP2. unfold receive. by repeat case_bool_decide. }
  split.
  { intros _. split; [by rewrite HD3|]. split.
    - rewrite HoD3, HoD2, HO. cbn. by rewrite Hp0, Hp1.
    - by rewrite HoG3, <- Hpg3. }
  split; [exact Hbi|].
  intros Hr. destruct (Hri Hr) as [Hr1 Hr2]. split.
  - by rewrite Hout3, Hout2.
  - rewrite HlG3. cbn. rewrite Ho2 in Hnrem. rewrite (Hnrem Hr). by rewrite HlG2.
Qed.

Lemma reachable_invariant fs o m :
  reachable fs o m → opt m = o ∧ invariant m.
Proof.
  induction 1 as [m H|m input m' _ [Ho IH] H|m m' _ [Ho IH] H].
  - by eapply init_invariant.
  - destruct (set_input_invariant _ _ _ IH H). split; congruence.
  - destruct (optimize_parameters_invariant _ _ IH H). split; congruence.
Qed.
End Invariant.

(** ** The losses *)

Section Losses.
Context `{A : Autograd}.

Lemma data_composed_loss_G o gan l1 perc rt :
  data (composed_loss_G o gan l1 perc rt) =
  documented_loss_G o (data gan) (data l1) (data perc)
    (prod_map data data <$> rt).
Proof. by destruct rt as [[??]|]. Qed.

(** C8.  When [backward_D] returns, the total discriminator loss is
    (sum of fake-label losses + sum of real-label losses) × lambda_D.
    Each sum has one term per current-task stream, for the stream indices
    2t-2 and 2t-1 in this order; on stream i the fake term is discriminator
    p = i mod 2 on the detached (source, generated) pair with label FAKE,
    and the real term is the same discriminator on the (source, real
    target) pair with label REAL. *)
Theorem discriminator_loss_is_weighted_sum m m' :
  backward_D m = Ok m' →
  ∃ b out d0 d1 a0 a1 r0 r1 f0 f1 ld,
    batch m = Some b ∧ outputs m = Some out ∧
    netD m !! Z.to_nat ((2 * task_num (opt m) - 2) `mod` 2) = Some d0 ∧
    netD m !! Z.to_nat ((2 * task_num (opt m) - 1) `mod` 2) = Some d1 ∧
    py_index (real_A b) (2 * task_num (opt m) - 2) = Ok a0 ∧
    py_index (real_A b) (2 * task_num (opt m) - 1) = Ok a1 ∧
    py_index (real_B b) (2 * task_num (opt m) - 2) = Ok r0 ∧
    py_index (real_B b) (2 * task_num (opt m) - 1) = Ok r1 ∧
    fake_B out !! 0%nat = Some f0 ∧ fake_B out !! 1%nat = Some f1 ∧
    losses_D m' = Some ld ∧
    loss_D_fake_all ld = Add (D_fake_term 0 d0 a0 f0) (D_fake_term 1 d1 a1 f1) ∧
    loss_D_real_all ld = Add (D_real_term 0 d0 a0 r0) (D_real_term 1 d1 a1 r1) ∧
    loss_D ld = Mul (Add (loss_D_fake_all ld) (loss_D_real_all ld)) (lambda_D (opt m)) ∧
    data (loss_D ld) =
      documented_loss_D (opt m) (data (loss_D_fake_all ld)) (data (loss_D_real_all ld)).
Proof.
  intros H. apply backward_D_spec in H
    as (b & out & d0 & d1 & a0 & a1 & r0 & r1 & f0 & f1 & Htr & Hb & Hout & Hd0 & Hd1 &
        Ha0 & Ha1 & Hr0 & Hr1 & Hf0 & Hf1 & Hleaves & ->).
  exists b, out, d0, d1, a0, a1, r0, r1, f0, f1. eexists.
  rewrite mod2_even, mod2_odd'. by repeat split.
Qed.

(** C3.  When [backward_G] returns, [loss_G] is the documented weighted
    sum.  The adversarial, L1 and perceptual totals have one term per
    current-task stream.  Without retention (t = 1 or lifelong training
    disabled) loss_G = (adv + L1×lambda_digesting_L1 +
    perceptual×lambda_digesting_perceptual) × lambda_G; with retention
    (t > 1, lifelong training enabled) the reminding L1 and perceptual
    totals, each times its weight, are added inside the sum. *)
Theorem generator_loss_is_weighted_sum m m' :
  backward_G m = Ok m' →
  ∃ b out d0 d1 a0 a1 r0 r1 f0 f1 lg,
    batch m = Some b ∧ outputs m = Some out ∧
    netD m !! 0%nat = Some d0 ∧ netD m !! 1%nat = Some d1 ∧
    py_index (real_A b) (2 * task_num (opt m) - 2) = Ok a0 ∧
    py_index (real_A b) (2 * task_num (opt m) - 1) = Ok a1 ∧
    py_index (real_B b) (2 * task_num (opt m) - 2) = Ok r0 ∧
    py_index (real_B b) (2 * task_num (opt m) - 1) = Ok r1 ∧
    fake_B out !! 0%nat = Some f0 ∧ fake_B out !! 1%nat = Some f1 ∧
    losses_G m' = Some lg ∧
    loss_G_GAN_all lg =
      Add (G_adversarial_term 0 d0 a0 f0) (G_adversarial_term 1 d1 a1 f1) ∧
    loss_G_L1_all lg = Add (G_L1_term f0 r0) (G_L1_term f1 r1) ∧
    loss_G_perceptual_all lg =
      Add (G_perceptual_term f0 r0) (G_perceptual_term f1 r1) ∧
    (task_num (opt m) = 1 ∨ no_lifelong_training (opt m) = true →
       data (loss_G lg) =
         documented_loss_G (opt m) (data (loss_G_GAN_all lg))
           (data (loss_G_L1_all lg)) (data (loss_G_perceptual_all lg)) None) ∧
    (task_num (opt m) > 1 ∧ no_lifelong_training (opt m) = false →
       ∃ r rl1 rperc, reminding lg = Some r ∧
         loss_reminding_L1_all r = Some rl1 ∧
         loss_reminding_perceptual_all r = Some rperc ∧
         data (loss_G lg) =
           documented_loss_G (opt m) (data (loss_G_GAN_all lg))
             (data (loss_G_L1_all lg)) (data (loss_G_perceptual_all lg))
             (Some (data rl1, data rperc))).
Proof.
  intros H. apply backward_G_spec in H
    as (b & out & d0 & d1 & a0 & a1 & r0 & r1 & f0 & f1 & rem & loss & Htr & Hb & Hout &
        Hd0 & Hd1 & Ha0 & Ha1 & Hr0 & Hr1 & Hf0 & Hf1 & Hleaves & -> & Hret & Hnret &
        Hc1 & Hc2).
  exists b, out, d0, d1, a0, a1, r0, r1, f0, f1.
  exists (expected_losses_G d0 d1 a0 a1 r0 r1 f0 f1 rem loss).
  do 10 (split; [assumption|]). do 4 (split; [reflexivity|]). split.
  - intros Hc. cbn [loss_G expected_losses_G]. rewrite (Hc1 Hc).
    by rewrite data_composed_loss_G.
  - intros [Ht Hnl]. destruct Hc2 as (r & ra & rp & Hrem & Hra & Hrp & Hloss).
    { intros [?| ?]; [lia|congruence]. }
    exists r, ra, rp. do 3 (split; [assumption|]).
    cbn [loss_G expected_losses_G]. rewrite Hloss.
    by rewrite data_composed_loss_G.
Qed.
End Losses.

(** ** Where gradients go *)

Section Gradients.
Context `{A : Autograd}.

Lemma receive_weights loss n net : weights (receive loss n net) = weights net.
Proof. unfold receive. by case_bool_decide. Qed.

Lemma receive_not_reached loss n net : n ∉ leaves loss → receive loss n net = net.
Proof. intros H. unfold receive. by rewrite bool_decide_eq_false_2. Qed.

Lemma receive_reached loss n net :
  n ∈ leaves loss →
  receive loss n net = set_grad (Some (accumulate (grad net) (vjp loss n))) net.
Proof. intros H. unfold receive. by rewrite bool_decide_eq_true_2. Qed.

Lemma py_index_Forall {X : Type} (P : X → Prop) (l : list X) i x :
  Forall P l → py_index l i = Ok x → P x.
Proof.
  intros HP. unfold py_index. cbv zeta.
  case_bool_decide; [|done]. destruct (l !! _) eqn:E; [|done].
  intros [= <-]. by eapply Forall_lookup_1.
Qed.

Lemma leaves_foldl_Add (x : Tensor) (tl : list Tensor) n :
  n ∈ leaves (foldl Add x tl) ↔ n ∈ leaves x ∨ ∃ t, t ∈ tl ∧ n ∈ leaves t.
Proof.
  revert x. induction tl as [|y tl IH]; intros x; cbn.
  - split; [by left|]. intros [|(t & Ht & _)]; [done|]. by apply elem_of_nil in Ht.
  - rewrite IH. cbn. rewrite elem_of_app. split.
    + intros [[|]|(t & Ht & Hn)]; [by left| |].
      * right. exists y. split; [by left|done].
      * right. exists t. split; [by right|done].
    + intros [|(t & Ht & Hn)]; [by left; left|].
      apply elem_of_cons in Ht as [->|Ht]; [by left; right|].
      right. by exists t.
Qed.

Lemma leaves_total (l : list Tensor) (s : Tensor) n :
  total l = Some s → n ∈ leaves s ↔ ∃ t, t ∈ l ∧ n ∈ leaves t.
Proof.
  destruct l as [|x tl]; [done|]. intros [= <-]. rewrite leaves_foldl_Add. split.
  - intros [|(t & Ht & Hn)]; [exists x|exists t]; (split; [|done]);
      [by left|by right].
  - intros (t & Ht & Hn). apply elem_of_cons in Ht as [->|Ht]; [by left|].
    right. by exists t.
Qed.

(** The retention terms on the outputs that [forward] produced. *)
Lemma reminding_terms_from_forward (term : Tensor → Tensor → Tensor)
    (gG gP : Net) (xs : list Tensor) (ret : Retained) (n : Z) (ts : list Tensor) :
  Forall2 (generated_from NetG gG xs) (range 0 n) (fake_B_curG ret) →
  Forall2 (generated_from NetG_prev gP xs) (range 0 n) (fake_B_prevG ret) →
  Forall2 (reminding_term_of term ret) (range 0 n) ts →
  Forall2 (λ i t, ∃ x dc dp,
      py_index xs i = Ok x ∧
      t = term (GenCall NetG (weights gG) (requires_grad gG) dc x)
               (GenCall NetG_prev (weights gP) (requires_grad gP) dp x))
    (range 0 n) ts.
Proof.
  intros HG HP HT.
  apply Forall2_same_length_lookup. split; [by eapply Forall2_length|].
  intros k i t Hi Ht.
  pose proof (Forall2_lookup_lr _ _ _ _ _ _ HT Hi Ht) as (cur & prev & Hc & Hp & ->).
  assert (i = Z.of_nat k) as ->.
  { unfold range in Hi. pose proof (lookup_lt_Some _ _ _ Hi) as Hlt.
    rewrite length_seqZ in Hlt. rewrite lookup_seqZ_lt in Hi by lia.
    injection Hi as <-. lia. }
  apply py_index_Ok in Hc; [|lia]. apply py_index_Ok in Hp; [|lia].
  rewrite Nat2Z.id in Hc, Hp.
  pose proof (Forall2_lookup_lr _ _ _ _ _ _ HG Hi Hc) as (x & dc & Hx & ->).
  pose proof (Forall2_lookup_lr _ _ _ _ _ _ HP Hi Hp) as (x' & dp & Hx' & ->).
  rewrite Hx in Hx'. injection Hx' as <-. by exists x, dc, dp.
Qed.
End Gradients.

(** ** One optimisation cycle *)

Section Cycle.
Context `{A : Autograd}.

(** The three phases of a cycle that starts in a state of a training
    session, with what each of them reads and leaves behind. *)
Lemma cycle_spec m m1 m2 m3 :
  invariant m →
  forward m = Ok m1 → update_D m1 = Ok m2 → update_G m2 = Ok m3 →
  ∃ b a0 a1 r0 r1 ret e0 e1 d0' d1' rem loss,
    let f0 := GenCall NetG (weights (netG m)) true (rng m) a0 in
    let f1 := GenCall NetG (weights (netG m)) true (S (rng m)) a1 in
    let out := {| fake_B := [f0; f1]; fake_B_cur1 := f0; fake_B_cur2 := f1;
                  retained := ret |} in
    let ld := expected_losses_D (opt m) e0 e1 a0 a1 r0 r1 f0 f1 in
    let lg := expected_losses_G (set_flag false d0') (set_flag false d1')
                a0 a1 r0 r1 f0 f1 rem loss in
    batch m = Some b ∧
    py_index (real_A b) (2 * task_num (opt m) - 2) = Ok a0 ∧
    py_index (real_A b) (2 * task_num (opt m) - 1) = Ok a1 ∧
    py_index (real_B b) (2 * task_num (opt m) - 2) = Ok r0 ∧
    py_index (real_B b) (2 * task_num (opt m) - 1) = Ok r1 ∧
    plain a0 ∧ plain a1 ∧ plain r0 ∧ plain r1 ∧
    outputs m1 = Some out ∧ outputs m2 = Some out ∧ outputs m3 = Some out ∧
    (retention (opt m) = false → ret = None) ∧
    (retention (opt m) = true → ∃ r, ret = Some r ∧
       Forall2 (generated_from NetG (netG m) (real_A b))
         (range 0 (2 * task_num (opt m) - 2)) (fake_B_curG r) ∧
       Forall2 (generated_from NetG_prev (netG_prev m) (real_A b))
         (range 0 (2 * task_num (opt m) - 2)) (fake_B_prevG r)) ∧
    netG m1 = netG m ∧ netG_prev m1 = netG_prev m ∧ netD m1 = netD m ∧
    requires_grad e0 = true ∧ requires_grad e1 = true ∧
    losses_D m2 = Some ld ∧
    netG m2 = receive (loss_D ld) NetG (netG m) ∧
    netG_prev m2 = receive (loss_D ld) NetG_prev (netG_prev m) ∧
    netD m2 = [d0'; d1'] ∧
    losses_G m3 = Some lg ∧ leaves loss ≠ [] ∧
    (retention (opt m) = true →
       ∃ r rl1s rpercs, ret = Some r ∧
         Forall2 (reminding_term_of reminding_L1_term r)
           (range 0 (2 * task_num (opt m) - 2)) rl1s ∧
         Forall2 (reminding_term_of reminding_perceptual_term r)
           (range 0 (2 * task_num (opt m) - 2)) rpercs ∧
         rem = Some (expected_reminding rl1s rpercs)) ∧
    (retention (opt m) = false → rem = None) ∧
    (task_num (opt m) = 1 ∨ no_lifelong_training (opt m) = true →
       loss = composed_loss_G (opt m) (loss_G_GAN_all lg) (loss_G_L1_all lg)
                (loss_G_perceptual_all lg) None) ∧
    (¬ (task_num (opt m) = 1 ∨ no_lifelong_training (opt m) = true) →
       ∃ r ra rp, rem = Some r ∧
         loss_reminding_L1_all r = Some ra ∧
         loss_reminding_perceptual_all r = Some rp ∧
         loss = composed_loss_G (opt m) (loss_G_GAN_all lg) (loss_G_L1_all lg)
                  (loss_G_perceptual_all lg) (Some (ra, rp))) ∧
    netD m3 = [receive loss (NetD 0) (set_flag false d0');
               receive loss (NetD 1) (set_flag false d1')] ∧
    netG_prev m3 = receive loss NetG_prev (netG_prev m2) ∧
    opt m1 = opt m ∧ opt m2 = opt m ∧ opt m3 = opt m ∧
    trace m1 = trace m ++ forward_events (opt m) ∧
    trace m2 = trace m1 ++ update_D_events ∧
    trace m3 = trace m2 ++ update_G_events.
Proof.
  intros Hinv Hf HuD HuG.
  destruct (forward_invariant _ _ Hinv Hf)
    as (Hinv1 & Ho1 & Hb1 & HG1 & HP1 & HD1 & HoD1 & HoG1 & HlG1 & HlD1).
  pose proof Hinv as (HrgG & HrgP & _ & Hbi & Hri).
  apply forward_spec in Hf
    as (b & a0 & a1 & ret & k & Hbt & Ha0 & Ha1 & Hm1 & Hnr & Hrt).
  rewrite HrgG in Hm1.
  assert (isTrain (opt m1) = true) as Htr1.
  { unfold update_D, self_netD in HuD. by destruct (isTrain (opt m1)). }
  destruct (invariant_shapes _ Hinv1 Htr1)
    as (d0 & d1 & o0 & o1 & og & HD & HO & Hp0 & Hp1 & HOG & Hpg).
  destruct (update_D_spec _ _ _ _ _ _ HD HO Hp0 Hp1 HuD)
    as (b2 & out2 & a02 & a12 & r0 & r1 & f02 & f12 & e0 & e1 & d0' & d1' & Hbt2 & Hout2 &
        Ha02 & Ha12 & Hr0 & Hr1 & Hf02 & Hf12 & _ & _ & He0 & He1 & HlD2 & Ho2 & Hb2 &
        Hout2' & HlG2 & Hrng2 & HoG2 & HoD2 & HG2 & HP2 & HD2 & Hrg0 & Hrg1 & Htrace2).
  assert (optimizer_G m2 = Some og) as HOG2 by congruence.
  destruct (update_G_spec _ _ _ _ _ HD2 HOG2 Hpg HuG)
    as (b3 & out3 & a03 & a13 & r03 & r13 & f03 & f13 & rem & loss & og' & Hbt3 & Hout3 &
        Ha03 & Ha13 & Hr03 & Hr13 & Hf03 & Hf13 & HlG3 & Hleaves & Hrem & Hnrem & Hc1 & Hc2 &
        Ho3 & Hb3 & Hout3' & HlD3 & Hrng3 & HoD3 & HoG3 & Hpg3 & HD3 & HP3 & HrgG3 &
        _ & Htrace3).
  rewrite Hb1, Hbt in Hbt2. injection Hbt2 as <-.
  rewrite Hb2, Hb1, Hbt in Hbt3. injection Hbt3 as <-.
  rewrite Ho2, Ho1 in *. rewrite Ha0 in Ha03. rewrite Ha1 in Ha13.
  rewrite Ha0 in Ha02. rewrite Ha1 in Ha12.
  injection Ha02 as <-. injection Ha12 as <-. injection Ha03 as <-. injection Ha13 as <-.
  rewrite Hr0 in Hr03. rewrite Hr1 in Hr13. injection Hr03 as <-. injection Hr13 as <-.
  assert (outputs m1 = Some
    {| fake_B := [GenCall NetG (weights (netG m)) true (rng m) a0;
                  GenCall NetG (weights (netG m)) true (S (rng m)) a1];
       fake_B_cur1 := GenCall NetG (weights (netG m)) true (rng m) a0;
       fake_B_cur2 := GenCall NetG (weights (netG m)) true (S (rng m)) a1;
       retained := ret |}) as Hout1 by (by rewrite Hm1).
  rewrite Hout1 in Hout2. injection Hout2 as <-.
  rewrite Hout2', Hout1 in Hout3. injection Hout3 as <-.
  cbn in Hf02, Hf12, Hf03, Hf13.
  injection Hf02 as <-. injection Hf12 as <-. injection Hf03 as <-. injection Hf13 as <-.
  destruct (Hbi _ Hbt) as (_ & _ & _ & HpA & HpB).
  exists b, a0, a1, r0, r1, ret, e0, e1, d0', d1', rem, loss. cbn zeta.
  split; [exact Hbt|].
  split; [exact Ha0|]. split; [exact Ha1|]. split; [exact Hr0|]. split; [exact Hr1|].
  split; [exact (py_index_Forall _ _ _ _ HpA Ha0)|].
  split; [exact (py_index_Forall _ _ _ _ HpA Ha1)|].
  split; [exact (py_index_Forall _ _ _ _ HpB Hr0)|].
  split; [exact (py_index_Forall _ _ _ _ HpB Hr1)|].
  split; [exact Hout1|]. split; [by rewrite Hout2'|].
  split; [by rewrite Hout3', Hout2'|].
  split. { intros Hr. rewrite (Hnr Hr). by apply Hri. }
  split; [exact Hrt|].
  split; [exact HG1|]. split; [exact HP1|]. split; [exact HD1|].
  split; [exact He0|]. split; [exact He1|].
  split; [exact HlD2|].
  split; [by rewrite HG2, HG1|]. split; [by rewrite HP2, HP1|].
  split; [exact HD2|]. split; [exact HlG3|]. split; [exact Hleaves|].
  split; [exact Hrem|].
  split. { intros Hr. rewrite (Hnrem Hr), HlG2, HlG1. by apply Hri. }
  split; [exact Hc1|]. split; [exact Hc2|].
  split; [exact HD3|]. split; [exact HP3|].
  split; [done|]. split; [done|]. split; [done|].
  split; [by rewrite Hm1|]. split; [exact Htrace2|]. exact Htrace3.
Qed.
End Cycle.

Section CycleLeaves.
Context `{A : Autograd}.

(** The history of a retention term. *)
Lemma reminding_term_leaves (term : Tensor → Tensor → Tensor) gG gP xs i t n :
  (term = reminding_L1_term ∨ term = reminding_perceptual_term) →
  Forall plain xs →
  (∃ x dc dp, py_index xs i = Ok x ∧
     t = term (GenCall NetG (weights gG) (requires_grad gG) dc x)
              (GenCall NetG_prev (weights gP) (requires_grad gP) dp x)) →
  n ∈ leaves t ↔
    (n = NetG ∧ requires_grad gG = true) ∨ (n = NetG_prev ∧ requires_grad gP = true).
Proof.
  intros Hterm Hxs (x & dc & dp & Hx & ->).
  pose proof (py_index_Forall _ _ _ _ Hxs Hx) as Hp. unfold plain in Hp.
  destruct Hterm as [-> | ->]; cbn; rewrite Hp;
    destruct (requires_grad gG), (requires_grad gP); cbn;
    rewrite ?elem_of_app, ?elem_of_cons, ?elem_of_nil; intuition congruence.
Qed.

Lemma leaves_composed_loss_G o gan l1 perc rt n :
  n ∈ leaves (composed_loss_G o gan l1 perc rt) ↔
    n ∈ leaves gan ∨ n ∈ leaves l1 ∨ n ∈ leaves perc ∨
    (∃ ra rp, rt = Some (ra, rp) ∧ (n ∈ leaves ra ∨ n ∈ leaves rp)).
Proof.
  destruct rt as [[ra rp]|]; cbn; rewrite !elem_of_app.
  - split.
    + intros [[[[?|?]|?]|?]|?]; eauto 10.
    + intros [?|[?|[?|(? & ? & [= <- <-] & [?|?])]]]; tauto.
  - split.
    + intros [[?|?]|?]; eauto.
    + intros [?|[?|[?|(? & ? & [=] & _)]]]; tauto.
Qed.

(** The history of the current-task terms of [loss_G]: the
    discriminators run with gradients disabled, the batch has no
    history, the generated images come from [netG]. *)
Lemma current_terms_leaves (d0 d1 : Net) (a0 a1 r0 r1 : Tensor) w k0 k1 rem loss n :
  plain a0 → plain a1 → plain r0 → plain r1 →
  let lg := expected_losses_G (set_flag false d0) (set_flag false d1) a0 a1 r0 r1
              (GenCall NetG w true k0 a0) (GenCall NetG w true k1 a1) rem loss in
  (n ∈ leaves (loss_G_GAN_all lg) ↔ n = NetG) ∧
  (n ∈ leaves (loss_G_L1_all lg) ↔ n = NetG) ∧
  (n ∈ leaves (loss_G_perceptual_all lg) ↔ n = NetG).
Proof.
  unfold plain. intros H0 H1 H2 H3. cbn. rewrite H0, H1, H2, H3. cbn.
  rewrite !elem_of_cons, !elem_of_nil. tauto.
Qed.

(** The history of [loss_G] in a cycle: which modules a backward pass
    from it reaches. *)
Lemma cycle_loss_G_leaves m m1 m2 m3 lg :
  invariant m →
  forward m = Ok m1 → update_D m1 = Ok m2 → update_G m2 = Ok m3 →
  losses_G m3 = Some lg →
  NetG ∈ leaves (loss_G lg) ∧
  (∀ p, NetD p ∉ leaves (loss_G lg)) ∧
  (NetG_prev ∈ leaves (loss_G lg) ↔ retention (opt m) = true).
Proof.
  intros Hinv Hf HuD HuG HlG.
  destruct (cycle_spec _ _ _ _ Hinv Hf HuD HuG)
    as (b & a0 & a1 & r0 & r1 & ret & e0 & e1 & d0' & d1' & rem & loss & Hbt &
        Ha0 & Ha1 & Hr0 & Hr1 & Hpa0 & Hpa1 & Hpr0 & Hpr1 & Hout1 & Hout2 & Hout3 &
        Hnret & Hret & HG1 & HP1 & HD1 & He0 & He1 & HlD2 & HG2 & HP2 & HD2 & HlG3 &
        Hleaves & Hrem & Hnrem & Hc1 & Hc2 & HD3 & HP3 & Ho1 & Ho2 & Ho3 & Htr1 & Htr2 & Htr3).
  rewrite HlG3 in HlG. injection HlG as <-. cbn [loss_G expected_losses_G].
  destruct Hinv as (HrgG & HrgP & _ & Hbi & Hri).
  destruct (Hbi _ Hbt) as (Ht & _ & _ & HpA & HpB).
  unfold plain in *.
  pose proof (λ n, current_terms_leaves d0' d1' a0 a1 r0 r1 (weights (netG m))
                (rng m) (S (rng m)) rem loss n Hpa0 Hpa1 Hpr0 Hpr1) as Hcur.
  cbv zeta in Hcur.
  destruct (retention (opt m)) eqn:Hr.
  - assert (task_num (opt m) > 1 ∧ no_lifelong_training (opt m) = false) as [Ht1 Hnl].
    { unfold retention in Hr. apply andb_true_iff in Hr as [H1 H2].
      apply bool_decide_eq_true in H1. by destruct (no_lifelong_training (opt m)). }
    destruct Hc2 as (r & ra & rp & Hrem' & Hra & Hrp & Hloss).
    { intros [?|?]; [lia|congruence]. }
    destruct (Hrem eq_refl) as (rt & rl1s & rpercs & Hret' & Hl1 & Hl2 & Hrem'').
    destruct (Hret eq_refl) as (rt' & Hrt' & HcG & HpG).
    rewrite Hret' in Hrt'. injection Hrt' as <-.
    rewrite Hrem'' in Hrem'. injection Hrem' as <-.
    pose proof (reminding_terms_from_forward _ _ _ _ _ _ _ HcG HpG Hl1) as HT1.
    pose proof (reminding_terms_from_forward _ _ _ _ _ _ _ HcG HpG Hl2) as HT2.
    cbn in Hra, Hrp.
    assert (∀ n, n ∈ leaves ra → n = NetG ∨ n = NetG_prev) as Hra_only.
    { intros n Hn. apply (leaves_total _ _ _ Hra) in Hn as (t & Ht' & Hn).
      apply list_elem_of_lookup in Ht' as [k Hk].
      destruct (Forall2_lookup_r _ _ _ _ _ HT1 Hk) as (i & _ & Hi).
      apply (reminding_term_leaves _ _ _ _ _ _ n (or_introl eq_refl) HpA) in Hi.
      apply Hi in Hn. tauto. }
    assert (∀ n, n ∈ leaves rp → n = NetG ∨ n = NetG_prev) as Hrp_only.
    { intros n Hn. apply (leaves_total _ _ _ Hrp) in Hn as (t & Ht' & Hn).
      apply list_elem_of_lookup in Ht' as [k Hk].
      destruct (Forall2_lookup_r _ _ _ _ _ HT2 Hk) as (i & _ & Hi).
      apply (reminding_term_leaves _ _ _ _ _ _ n (or_intror eq_refl) HpA) in Hi.
      apply Hi in Hn. tauto. }
    assert (NetG_prev ∈ leaves ra) as Hprev.
    { destruct rl1s as [|t0 tl]; [done|].
      apply (leaves_total _ _ _ Hra). exists t0. split; [by left|].
      unfold range in HT1. rewrite seqZ_cons in HT1 by lia.
      apply Forall2_cons_1 in HT1 as [Hi _].
      apply (reminding_term_leaves _ _ _ _ _ _ NetG_prev (or_introl eq_refl) HpA) in Hi.
      apply Hi. by right. }
    rewrite Hloss. split; [|split].
    + apply leaves_composed_loss_G. left. by apply Hcur.
    + intros p Hp. apply leaves_composed_loss_G in Hp.
      destruct Hp as [Hp|[Hp|[Hp|(ra' & rp' & [= <- <-] & [Hp|Hp])]]].
      * by apply Hcur in Hp.
      * by apply Hcur in Hp.
      * by apply Hcur in Hp.
      * apply Hra_only in Hp. by destruct Hp.
      * apply Hrp_only in Hp. by destruct Hp.
    + split; [done|]. intros _. apply leaves_composed_loss_G.
      right. right. right. exists ra, rp. split; [done|]. by left.
  - assert (task_num (opt m) = 1 ∨ no_lifelong_training (opt m) = true) as Hc.
    { unfold retention in Hr. apply andb_false_iff in Hr as [H1|H2].
      - apply bool_decide_eq_false in H1. left. lia.
      - right. by destruct (no_lifelong_training (opt m)). }
    rewrite (Hc1 Hc). split; [|split].
    + apply leaves_composed_loss_G. left. by apply Hcur.
    + intros p Hp. apply leaves_composed_loss_G in Hp.
      destruct Hp as [Hp|[Hp|[Hp|(ra' & rp' & [=] & _)]]]; by apply Hcur in Hp.
    + split; [|done]. intros Hp. apply leaves_composed_loss_G in Hp.
      destruct Hp as [Hp|[Hp|[Hp|(ra' & rp' & [=] & _)]]]; by apply Hcur in Hp.
Qed.
End CycleLeaves.

(** ** The frozen generator and the discriminators *)

Section Frames.
Context `{A : Autograd}.

Lemma retention_iff (o : Opt) :
  retention o = true ↔ task_num o > 1 ∧ no_lifelong_training o = false.
Proof.
  unfold retention. rewrite andb_true_iff, bool_decide_eq_true.
  by destruct (no_lifelong_training o); intuition.
Qed.

Lemma update_D_isTrain m m' : update_D m = Ok m' → isTrain (opt m) = true.
Proof. unfold update_D, self_netD. by destruct (isTrain (opt m)). Qed.

(** The first two phases of a cycle. *)
Lemma discriminator_phase_spec m m1 m2 :
  invariant m → forward m = Ok m1 → update_D m1 = Ok m2 →
  ∃ a0 a1 r0 r1 ret e0 e1,
    let f0 := GenCall NetG (weights (netG m)) true (rng m) a0 in
    let f1 := GenCall NetG (weights (netG m)) true (S (rng m)) a1 in
    let ld := expected_losses_D (opt m) e0 e1 a0 a1 r0 r1 f0 f1 in
    plain a0 ∧ plain a1 ∧ plain r0 ∧ plain r1 ∧
    outputs m1 = Some {| fake_B := [f0; f1]; fake_B_cur1 := f0; fake_B_cur2 := f1;
                         retained := ret |} ∧
    losses_D m2 = Some ld ∧
    netG m1 = netG m ∧ netG_prev m1 = netG_prev m ∧
    netG m2 = receive (loss_D ld) NetG (netG m) ∧
    netG_prev m2 = receive (loss_D ld) NetG_prev (netG_prev m).
Proof.
  intros Hinv Hf HuD.
  destruct (forward_invariant _ _ Hinv Hf)
    as (Hinv1 & Ho1 & Hb1 & HG1 & HP1 & HD1 & HoD1 & HoG1 & HlG1 & HlD1).
  pose proof Hinv as (HrgG & HrgP & _ & Hbi & Hri).
  apply forward_spec in Hf
    as (b & a0 & a1 & ret & k & Hbt & Ha0 & Ha1 & Hm1 & Hnr & Hrt).
  rewrite HrgG in Hm1.
  destruct (invariant_shapes _ Hinv1 (update_D_isTrain _ _ HuD))
    as (d0 & d1 & o0 & o1 & og & HD & HO & Hp0 & Hp1 & HOG & Hpg).
  destruct (update_D_spec _ _ _ _ _ _ HD HO Hp0 Hp1 HuD)
    as (b2 & out2 & a02 & a12 & r0 & r1 & f02 & f12 & e0 & e1 & d0' & d1' & Hbt2 & Hout2 &
        Ha02 & Ha12 & Hr0 & Hr1 & Hf02 & Hf12 & _ & _ & He0 & He1 & HlD2 & Ho2 & Hb2 &
        Hout2' & HlG2 & Hrng2 & HoG2 & HoD2 & HG2 & HP2 & HD2 & Hrg0 & Hrg1 & Htrace2).
  rewrite Hb1, Hbt in Hbt2. injection Hbt2 as <-.
  rewrite Ho1 in *. rewrite Ha0 in Ha02. rewrite Ha1 in Ha12.
  injection Ha02 as <-. injection Ha12 as <-.
  assert (outputs m1 = Some
    {| fake_B := [GenCall NetG (weights (netG m)) true (rng m) a0;
                  GenCall NetG (weights (netG m)) true (S (rng m)) a1];
       fake_B_cur1 := GenCall NetG (weights (netG m)) true (rng m) a0;
       fake_B_cur2 := GenCall NetG (weights (netG m)) true (S (rng m)) a1;
       retained := ret |}) as Hout1 by (by rewrite Hm1).
  rewrite Hout1 in Hout2. injection Hout2 as <-.
  cbn in Hf02, Hf12. injection Hf02 as <-. injection Hf12 as <-.
  destruct (Hbi _ Hbt) as (_ & _ & _ & HpA & HpB).
  exists a0, a1, r0, r1, ret, e0, e1. cbv zeta.
  split; [exact (py_index_Forall _ _ _ _ HpA Ha0)|].
  split; [exact (py_index_Forall _ _ _ _ HpA Ha1)|].
  split; [exact (py_index_Forall _ _ _ _ HpB Hr0)|].
  split; [exact (py_index_Forall _ _ _ _ HpB Hr1)|].
  split; [exact Hout1|]. split; [exact HlD2|].
  split; [exact HG1|]. split; [exact HP1|].
  split; [by rewrite HG2, HG1|]. by rewrite HP2, HP1.
Qed.

(** The history of [loss_D]: the discriminators only. *)
Lemma loss_D_leaves o e0 e1 a0 a1 r0 r1 f0 f1 n :
  plain a0 → plain a1 → plain r0 → plain r1 →
  n ∈ leaves (loss_D (expected_losses_D o e0 e1 a0 a1 r0 r1 f0 f1)) →
  n = NetD 0 ∨ n = NetD 1.
Proof.
  unfold plain. intros H0 H1 H2 H3. cbn. rewrite H0, H1, H2, H3.
  destruct (requires_grad e0), (requires_grad e1); cbn;
    rewrite ?elem_of_cons, ?elem_of_nil; tauto.
Qed.

(** C6.  In every cycle of a training session, the discriminator step
    gives the generators no gradient.  The generated images that
    [forward] stored do carry the history of [netG], but for both
    current-task streams the (source, generated) pair is detached before
    the discriminator sees it, so [loss_D] has no history through [netG]
    or [netG_prev], and the whole discriminator update leaves both
    modules (parameters and accumulated gradient) as they were. *)
Theorem discriminator_step_gives_generator_no_gradient fs o m m1 m2 :
  reachable fs o m → forward m = Ok m1 → update_D m1 = Ok m2 →
  ∃ out f0 f1 ld e0 e1 a0 a1,
    outputs m1 = Some out ∧ fake_B out = [f0; f1] ∧
    NetG ∈ leaves f0 ∧ NetG ∈ leaves f1 ∧
    losses_D m2 = Some ld ∧
    loss_D_fake_all ld = Add (D_fake_term 0 e0 a0 f0) (D_fake_term 1 e1 a1 f1) ∧
    plain (detach (Cat a0 f0)) ∧ plain (detach (Cat a1 f1)) ∧
    (NetG ∉ leaves (loss_D ld)) ∧ (NetG_prev ∉ leaves (loss_D ld)) ∧
    netG m2 = netG m1 ∧ netG_prev m2 = netG_prev m1.
Proof.
  intros Hreach Hf HuD. apply reachable_invariant in Hreach as [_ Hinv].
  destruct (discriminator_phase_spec _ _ _ Hinv Hf HuD)
    as (a0 & a1 & r0 & r1 & ret & e0 & e1 & Hpa0 & Hpa1 & Hpr0 & Hpr1 & Hout1 &
        HlD2 & HG1 & HP1 & HG2 & HP2).
  assert (∀ n, n ∈ leaves (loss_D (expected_losses_D (opt m) e0 e1 a0 a1 r0 r1
            (GenCall NetG (weights (netG m)) true (rng m) a0)
            (GenCall NetG (weights (netG m)) true (S (rng m)) a1))) →
          n = NetD 0 ∨ n = NetD 1) as Honly.
  { intros n. by apply loss_D_leaves. }
  assert (NetG ∉ leaves (loss_D (expected_losses_D (opt m) e0 e1 a0 a1 r0 r1
            (GenCall NetG (weights (netG m)) true (rng m) a0)
            (GenCall NetG (weights (netG m)) true (S (rng m)) a1)))) as HnG.
  { intros Hn. by destruct (Honly _ Hn). }
  assert (NetG_prev ∉ leaves (loss_D (expected_losses_D (opt m) e0 e1 a0 a1 r0 r1
            (GenCall NetG (weights (netG m)) true (rng m) a0)
            (GenCall NetG (weights (netG m)) true (S (rng m)) a1)))) as HnP.
  { intros Hn. by destruct (Honly _ Hn). }
  eexists _, _, _, _, e0, e1, a0, a1.
  split; [exact Hout1|]. split; [reflexivity|].
  split; [by left|]. split; [by left|].
  split; [exact HlD2|]. split; [reflexivity|].
  split; [reflexivity|]. split; [reflexivity|].
  split; [exact HnG|]. split; [exact HnP|].
  split.
  - by rewrite HG2, HG1, receive_not_reached.
  - by rewrite HP2, HP1, receive_not_reached.
Qed.

(** C7.  In every cycle of a training session, the generator step
    leaves the discriminators as the discriminator update left them,
    except that their gradients are disabled: their parameters and
    accumulated gradients are the same before and after [backward_G] and
    the step of [optimizer_G], and [loss_G] has no history through any
    discriminator.  The frozen generator's parameters are not changed
    either: of all parameters only those of [netG] can change. *)
Theorem generator_step_leaves_discriminators_unchanged fs o m m1 m2 m3 :
  reachable fs o m →
  forward m = Ok m1 → update_D m1 = Ok m2 → update_G m2 = Ok m3 →
  netD m3 = set_flag false <$> netD m2 ∧
  weights <$> netD m3 = weights <$> netD m2 ∧
  grad <$> netD m3 = grad <$> netD m2 ∧
  Forall (λ d, requires_grad d = false) (netD m3) ∧
  (∃ lg, losses_G m3 = Some lg ∧ ∀ p, NetD p ∉ leaves (loss_G lg)) ∧
  weights (netG_prev m3) = weights (netG_prev m2).
Proof.
  intros Hreach Hf HuD HuG. apply reachable_invariant in Hreach as [_ Hinv].
  destruct (cycle_spec _ _ _ _ Hinv Hf HuD HuG)
    as (b & a0 & a1 & r0 & r1 & ret & e0 & e1 & d0' & d1' & rem & loss & Hbt &
        Ha0 & Ha1 & Hr0 & Hr1 & Hpa0 & Hpa1 & Hpr0 & Hpr1 & Hout1 & Hout2 & Hout3 &
        Hnret & Hret & HG1 & HP1 & HD1 & He0 & He1 & HlD2 & HG2 & HP2 & HD2 & HlG3 &
        Hleaves & Hrem & Hnrem & Hc1 & Hc2 & HD3 & HP3 & Ho1 & Ho2 & Ho3 & Htr1 & Htr2 & Htr3).
  destruct (cycle_loss_G_leaves _ _ _ _ _ Hinv Hf HuD HuG HlG3) as (_ & HnD & _).
  cbn [loss_G expected_losses_G] in HnD.
  assert (netD m3 = set_flag false <$> netD m2) as HD3'.
  { rewrite HD3, HD2. cbn. by rewrite !receive_not_reached. }
  split; [exact HD3'|]. rewrite HD3', HD2. cbn.
  split; [done|]. split; [done|]. split; [by repeat constructor|].
  split; [by eexists|].
  by rewrite HP3, receive_weights.
Qed.
End Frames.

Section FrozenGenerator.
Context `{A : Autograd}.

(** C1, as the code has it.  For every cycle of a training session
    with task index t > 1 and lifelong training enabled, the outputs of
    the frozen generator used in the reminding terms are not detached:
    each of them carries the history of [netG_prev], [loss_G] has history
    through [netG_prev], and [backward_G] accumulates a gradient on the
    parameters of [netG_prev].  The values of those parameters are left
    unchanged by the generator step. *)
Theorem frozen_generator_receives_gradient fs o m m1 m2 m3 :
  reachable fs o m →
  task_num o > 1 → no_lifelong_training o = false →
  forward m = Ok m1 → update_D m1 = Ok m2 → update_G m2 = Ok m3 →
  ∃ out r lg,
    outputs m2 = Some out ∧ retained out = Some r ∧
    length (fake_B_prevG r) = Z.to_nat (2 * task_num o - 2) ∧
    Forall (λ t, NetG_prev ∈ leaves t) (fake_B_prevG r) ∧
    losses_G m3 = Some lg ∧
    NetG_prev ∈ leaves (loss_G lg) ∧
    grad (netG_prev m3) =
      Some (accumulate (grad (netG_prev m2)) (vjp (loss_G lg) NetG_prev)) ∧
    weights (netG_prev m3) = weights (netG_prev m2).
Proof.
  intros Hreach Ht Hnl Hf HuD HuG.
  apply reachable_invariant in Hreach as [Ho Hinv]. subst o.
  assert (retention (opt m) = true) as Hr by by apply retention_iff.
  destruct (cycle_spec _ _ _ _ Hinv Hf HuD HuG)
    as (b & a0 & a1 & r0 & r1 & ret & e0 & e1 & d0' & d1' & rem & loss & Hbt &
        Ha0 & Ha1 & Hr0 & Hr1 & Hpa0 & Hpa1 & Hpr0 & Hpr1 & Hout1 & Hout2 & Hout3 &
        Hnret & Hret & HG1 & HP1 & HD1 & He0 & He1 & HlD2 & HG2 & HP2 & HD2 & HlG3 &
        Hleaves & Hrem & Hnrem & Hc1 & Hc2 & HD3 & HP3 & Ho1 & Ho2 & Ho3 & Htr1 & Htr2 & Htr3).
  destruct (cycle_loss_G_leaves _ _ _ _ _ Hinv Hf HuD HuG HlG3) as (_ & _ & HP).
  cbn [loss_G expected_losses_G] in HP.
  apply HP in Hr as Hin.
  destruct (Hret Hr) as (r & -> & HcG & HpG).
  destruct Hinv as (_ & HrgP & _).
  eexists _, r, _. split; [exact Hout2|]. split; [reflexivity|].
  split. { rewrite <- (Forall2_length _ _ _ HpG). unfold range.
           rewrite length_seqZ. f_equal. lia. }
  split.
  { apply Forall_forall. intros t Ht'. apply list_elem_of_lookup in Ht' as [k Hk].
    destruct (Forall2_lookup_r _ _ _ _ _ HpG Hk) as (i & _ & x & d & _ & ->).
    cbn. rewrite HrgP. by left. }
  split; [exact HlG3|]. split; [exact Hin|].
  rewrite HP3. split; [by rewrite receive_reached|by rewrite receive_weights].
Qed.

Lemma optimize_parameters_frozen_weights m m' :
  invariant m → optimize_parameters m = Ok m' →
  weights (netG_prev m') = weights (netG_prev m) ∧ isTrain (opt m') = true.
Proof.
  intros Hinv H. unfold optimize_parameters in H.
  apply bind_Ok in H as (m1 & Hf & H). apply bind_Ok in H as (m2 & HuD & HuG).
  destruct (cycle_spec _ _ _ _ Hinv Hf HuD HuG)
    as (b & a0 & a1 & r0 & r1 & ret & e0 & e1 & d0' & d1' & rem & loss & Hbt &
        Ha0 & Ha1 & Hr0 & Hr1 & Hpa0 & Hpa1 & Hpr0 & Hpr1 & Hout1 & Hout2 & Hout3 &
        Hnret & Hret & HG1 & HP1 & HD1 & He0 & He1 & HlD2 & HG2 & HP2 & HD2 & HlG3 &
        Hleaves & Hrem & Hnrem & Hc1 & Hc2 & HD3 & HP3 & Ho1 & Ho2 & Ho3 & Htr1 & Htr2 & Htr3).
  split.
  - by rewrite HP3, receive_weights, HP2, receive_weights.
  - rewrite Ho3, <- Ho1. by eapply update_D_isTrain.
Qed.

Lemma init_optimizers fs o m :
  init fs o = Ok m → ∀ op, op ∈ optimizers m → params op ≠ NetG_prev.
Proof.
  intros H. destruct (isTrain o) eqn:Htr.
  - destruct (init_invariant _ _ _ H) as [<- Hinv].
    destruct (invariant_shapes _ Hinv Htr)
      as (d0 & d1 & o0 & o1 & og & _ & HO & Hp0 & Hp1 & HOG & Hpg).
    intros op. unfold optimizers. rewrite HO, HOG. cbn.
    rewrite !elem_of_cons, elem_of_nil. intros [->|[->|[->|[]]]]; congruence.
  - unfold init in H. rewrite Htr in H. cbn in H. injection H as <-.
    intros op Hop. by apply elem_of_nil in Hop.
Qed.

Lemma invariant_optimizers m :
  invariant m → isTrain (opt m) = true →
  ∀ op, op ∈ optimizers m → params op ≠ NetG_prev.
Proof.
  intros Hinv Htr.
  destruct (invariant_shapes _ Hinv Htr)
    as (d0 & d1 & o0 & o1 & og & _ & HO & Hp0 & Hp1 & HOG & Hpg).
  intros op. unfold optimizers. rewrite HO, HOG. cbn.
  rewrite !elem_of_cons, elem_of_nil. intros [->|[->|[->|[]]]]; congruence.
Qed.

(** C5.  After [__init__] (which loads them when a previous model is
    configured), the parameters of the frozen generator [netG_prev] are
    the same after any number of training steps, each a [set_input]
    followed by [optimize_parameters]; and no optimizer of the model
    holds them. *)
Theorem frozen_generator_parameters_never_change fs o m0 inputs m :
  init fs o = Ok m0 → train inputs m0 = Ok m →
  weights (netG_prev m) = weights (netG_prev m0) ∧
  ∀ op, op ∈ optimizers m → params op ≠ NetG_prev.
Proof.
  intros Hinit Htrain. destruct (init_invariant _ _ _ Hinit) as [_ Hinv0].
  pose proof (init_optimizers _ _ _ Hinit) as Hop0.
  unfold train in Htrain.
  apply (for_each_inv (λ s, invariant s ∧
           weights (netG_prev s) = weights (netG_prev m0) ∧
           ∀ op, op ∈ optimizers s → params op ≠ NetG_prev)) in Htrain.
  - tauto.
  - done.
  - clear. intros input s s1 (Hinv & Hw & _) Hstep.
    apply bind_Ok in Hstep as (s' & Hin & Hopt).
    destruct (set_input_invariant _ _ _ Hinv Hin) as [_ Hinv'].
    destruct (optimize_parameters_invariant _ _ Hinv' Hopt) as [_ Hinv1].
    destruct (optimize_parameters_frozen_weights _ _ Hinv' Hopt) as [Hw1 Htr].
    split; [done|]. split.
    + rewrite Hw1, <- Hw. apply set_input_spec in Hin as (bt & -> & _). done.
    + by apply invariant_optimizers.
Qed.
End FrozenGenerator.

(** ** Retention terms and the order of a cycle *)

Section Retention.
Context `{A : Autograd}.

(** C4.  In every cycle of a training session, the reminding terms are
    computed if and only if t > 1 and lifelong training is not disabled.
    When they are, there is one reminding L1 term and one reminding
    perceptual term for each previous-task stream index 0 .. 2t-3 (2t-2
    terms each), built from the outputs of [netG] and of [netG_prev] on
    that stream's source image, and the two totals are their sums.  For
    t = 1 or with lifelong training disabled, [loss_G] is composed of the
    adversarial, L1 and perceptual totals only. *)
Theorem retention_terms_iff_over_previous_streams fs o m m1 m2 m3 :
  reachable fs o m →
  forward m = Ok m1 → update_D m1 = Ok m2 → update_G m2 = Ok m3 →
  ∃ b lg,
    batch m = Some b ∧ losses_G m3 = Some lg ∧
    (is_Some (reminding lg) ↔ task_num o > 1 ∧ no_lifelong_training o = false) ∧
    (∀ r, reminding lg = Some r →
       ∃ rl1s rpercs,
         length rl1s = Z.to_nat (2 * task_num o - 2) ∧
         length rpercs = Z.to_nat (2 * task_num o - 2) ∧
         Forall2 (λ i t, ∃ x dc dp,
             py_index (real_A b) i = Ok x ∧
             t = reminding_L1_term
                   (GenCall NetG (weights (netG m)) (requires_grad (netG m)) dc x)
                   (GenCall NetG_prev (weights (netG_prev m))
                      (requires_grad (netG_prev m)) dp x))
           (range 0 (2 * task_num o - 2)) rl1s ∧
         Forall2 (λ i t, ∃ x dc dp,
             py_index (real_A b) i = Ok x ∧
             t = reminding_perceptual_term
                   (GenCall NetG (weights (netG m)) (requires_grad (netG m)) dc x)
                   (GenCall NetG_prev (weights (netG_prev m))
                      (requires_grad (netG_prev m)) dp x))
           (range 0 (2 * task_num o - 2)) rpercs ∧
         loss_reminding_L1_all r = total rl1s ∧
         loss_reminding_perceptual_all r = total rpercs) ∧
    (task_num o = 1 ∨ no_lifelong_training o = true →
       loss_G lg = composed_loss_G o (loss_G_GAN_all lg) (loss_G_L1_all lg)
                     (loss_G_perceptual_all lg) None).
Proof.
  intros Hreach Hf HuD HuG.
  apply reachable_invariant in Hreach as [Ho Hinv]. subst o.
  destruct (cycle_spec _ _ _ _ Hinv Hf HuD HuG)
    as (b & a0 & a1 & r0 & r1 & ret & e0 & e1 & d0' & d1' & rem & loss & Hbt &
        Ha0 & Ha1 & Hr0 & Hr1 & Hpa0 & Hpa1 & Hpr0 & Hpr1 & Hout1 & Hout2 & Hout3 &
        Hnret & Hret & HG1 & HP1 & HD1 & He0 & He1 & HlD2 & HG2 & HP2 & HD2 & HlG3 &
        Hleaves & Hrem & Hnrem & Hc1 & Hc2 & HD3 & HP3 & Ho1 & Ho2 & Ho3 & Htr1 & Htr2 & Htr3).
  exists b. eexists. split; [exact Hbt|]. split; [exact HlG3|].
  cbn [reminding loss_G loss_G_GAN_all loss_G_L1_all loss_G_perceptual_all
       expected_losses_G].
  split; [|split].
  - rewrite <- retention_iff. destruct (retention (opt m)) eqn:Hr.
    + destruct (Hrem eq_refl) as (rt & rl1s & rpercs & _ & _ & _ & ->).
      split; [done|]. intros _. by eexists.
    + rewrite (Hnrem eq_refl). split; [|done]. by intros [? [=]].
  - intros r Hr'. destruct (retention (opt m)) eqn:Hr.
    2:{ rewrite (Hnrem eq_refl) in Hr'. done. }
    destruct (Hrem eq_refl) as (rt & rl1s & rpercs & -> & Hl1 & Hl2 & Hrem').
    destruct (Hret eq_refl) as (rt' & [= <-] & HcG & HpG).
    rewrite Hrem' in Hr'. injection Hr' as <-.
    pose proof (reminding_terms_from_forward _ _ _ _ _ _ _ HcG HpG Hl1) as HT1.
    pose proof (reminding_terms_from_forward _ _ _ _ _ _ _ HcG HpG Hl2) as HT2.
    exists rl1s, rpercs.
    split. { rewrite <- (Forall2_length _ _ _ Hl1). unfold range.
             rewrite length_seqZ. f_equal. lia. }
    split. { rewrite <- (Forall2_length _ _ _ Hl2). unfold range.
             rewrite length_seqZ. f_equal. lia. }
    split; [exact HT1|]. split; [exact HT2|]. by split.
  - exact Hc1.
Qed.

Lemma forward_events_generators (o : Opt) :
  Forall (λ e, e = Called NetG ∨ e = Called NetG_prev) (forward_events o).
Proof.
  unfold forward_events. apply Forall_app. split; [repeat constructor; by left|].
  destruct (retention o); [|constructor].
  apply Forall_forall. intros e He. apply list_elem_of_bind in He as (i & He & _).
  apply elem_of_cons in He as [->|He]; [by left|].
  apply elem_of_cons in He as [->|He]; [by right|]. by apply elem_of_nil in He.
Qed.

(** C9.  Every [optimize_parameters] call of a training session runs
    the forward pass, then the discriminator update, then the generator
    update.  All generator calls are made by the forward pass, before the
    discriminator optimizers step; the discriminator optimizers step
    before the generator optimizer; and in the generator step the
    adversarial terms are the (updated, gradient-disabled) discriminators
    evaluated on the non-detached pairs made of the very images the
    forward pass generated with the weights [netG] had before the
    discriminator update. *)
Theorem discriminator_update_precedes_generator_update fs o m m' :
  reachable fs o m → optimize_parameters m = Ok m' →
  ∃ m1 m2 out f0 f1 a0 a1 d0 d1 lg,
    forward m = Ok m1 ∧ update_D m1 = Ok m2 ∧ update_G m2 = Ok m' ∧
    trace m1 = trace m ++ forward_events o ∧
    trace m2 = trace m1 ++ update_D_events ∧
    trace m' = trace m2 ++ update_G_events ∧
    Forall (λ e, e = Called NetG ∨ e = Called NetG_prev) (forward_events o) ∧
    Forall (λ e, e ≠ Called NetG ∧ e ≠ Called NetG_prev)
      (update_D_events ++ update_G_events) ∧
    f0 = GenCall NetG (weights (netG m)) true (rng m) a0 ∧
    f1 = GenCall NetG (weights (netG m)) true (S (rng m)) a1 ∧
    outputs m1 = Some out ∧ outputs m' = Some out ∧ fake_B out = [f0; f1] ∧
    netD m2 = [d0; d1] ∧
    losses_G m' = Some lg ∧
    loss_G_GAN_all lg =
      Add (G_adversarial_term 0 (set_flag false d0) a0 f0)
          (G_adversarial_term 1 (set_flag false d1) a1 f1).
Proof.
  intros Hreach H. apply reachable_invariant in Hreach as [Ho Hinv]. subst o.
  unfold optimize_parameters in H.
  apply bind_Ok in H as (m1 & Hf & H). apply bind_Ok in H as (m2 & HuD & HuG).
  destruct (cycle_spec _ _ _ _ Hinv Hf HuD HuG)
    as (b & a0 & a1 & r0 & r1 & ret & e0 & e1 & d0' & d1' & rem & loss & Hbt &
        Ha0 & Ha1 & Hr0 & Hr1 & Hpa0 & Hpa1 & Hpr0 & Hpr1 & Hout1 & Hout2 & Hout3 &
        Hnret & Hret & HG1 & HP1 & HD1 & He0 & He1 & HlD2 & HG2 & HP2 & HD2 & HlG3 &
        Hleaves & Hrem & Hnrem & Hc1 & Hc2 & HD3 & HP3 & Ho1 & Ho2 & Ho3 & Htr1 & Htr2 & Htr3).
  exists m1, m2. eexists _, _, _, a0, a1, d0', d1', _.
  split; [exact Hf|]. split; [exact HuD|]. split; [exact HuG|].
  split; [exact Htr1|]. split; [exact Htr2|]. split; [exact Htr3|].
  split; [apply forward_events_generators|].
  split; [repeat constructor; done|].
  split; [reflexivity|]. split; [reflexivity|].
  split; [exact Hout1|]. split; [exact Hout3|]. split; [reflexivity|].
  split; [exact HD2|]. split; [exact HlG3|]. reflexivity.
Qed.
End Retention.

(** ** [set_input]: what it stores and how it fails *)

Section SetInput.
Context `{A : Autograd}.

Lemma range_split (i n : Z) :
  0 ≤ i < n → range 0 n = range 0 i ++ i :: range (i + 1) n.
Proof.
  intros Hi. unfold range.
  replace (n - 0) with (i + (n - i)) by lia.
  rewrite seqZ_app by lia. f_equal; [f_equal; lia|].
  rewrite seqZ_cons by lia. f_equal. f_equal; lia.
Qed.

Lemma range_empty (a b : Z) : b ≤ a → range a b = [].
Proof. intros. unfold range. by rewrite seqZ_nil by lia. Qed.

Lemma is_image_Some (v : option BatchItem) :
  is_image v = true → ∃ d, v = Some (ImageTensor d).
Proof. destruct v as [[d|]|]; try done. by exists d. Qed.

(** The loop of lines 141-144 on complete streams. *)
Lemma set_input_loop (input : gmap string BatchItem) (idx : list Z) rA rB ps :
  forallb (stream_present input) idx = true →
  ∃ rA' rB' ps',
    for_each (λ '(rA, rB, ps) i,
        a ← dict_get input ("A_" +:+ pretty i) ≫= to_device;
        b ← dict_get input ("B_" +:+ pretty i) ≫= to_device;
        p ← dict_get input ("A_paths_" +:+ pretty i);
        Ok (rA ++ [a], rB ++ [b], ps ++ [p])) idx (rA, rB, ps)
      = Ok (rA ++ rA', rB ++ rB', ps ++ ps') ∧
    Forall2 (stored input "A_") idx rA' ∧
    Forall2 (stored input "B_") idx rB' ∧
    Forall2 (λ i p, input !! ("A_paths_" +:+ pretty i) = Some p) idx ps'.
Proof.
  revert rA rB ps. induction idx as [|i idx IH]; intros rA rB ps Hall.
  - exists [], [], []. rewrite !app_nil_r. by repeat split.
  - cbn [forallb] in Hall. apply andb_prop in Hall as [Hi Hall].
    unfold stream_present in Hi.
    apply andb_prop in Hi as [Hi Hp]. apply andb_prop in Hi as [Ha Hb].
    apply is_image_Some in Ha as [a Ha]. apply is_image_Some in Hb as [b Hb].
    apply bool_decide_eq_true in Hp as [p Hp].
    destruct (IH (rA ++ [Const a]) (rB ++ [Const b]) (ps ++ [p]) Hall)
      as (rA' & rB' & ps' & Hloop & HA & HB & HP).
    exists (Const a :: rA'), (Const b :: rB'), (p :: ps').
    split; [|repeat split; constructor; try done; by eexists].
    cbn [for_each].
    assert (dict_get input ("A_" +:+ pretty i) = Ok (ImageTensor a)) as ->
      by (unfold dict_get; by rewrite Ha).
    assert (dict_get input ("B_" +:+ pretty i) = Ok (ImageTensor b)) as ->
      by (unfold dict_get; by rewrite Hb).
    assert (dict_get input ("A_paths_" +:+ pretty i) = Ok p) as ->
      by (unfold dict_get; by rewrite Hp).
    cbn [mbind Res_bind to_device]. rewrite Hloop.
    by rewrite <- !app_assoc.
Qed.

Lemma py_index_total {X : Type} (l : list X) (i : Z) :
  0 ≤ i < Z.of_nat (length l) → ∃ x, py_index l i = Ok x.
Proof.
  intros Hi. destruct (lookup_lt_is_Some_2 l (Z.to_nat i)) as [x Hx]; [lia|].
  exists x. rewrite <- (Z2Nat.id i) by lia. by apply py_index_lookup.
Qed.

Lemma set_input_returns input m :
  1 ≤ task_num (opt m) →
  well_formed (task_num (opt m)) input = true →
  ∃ b, set_input input m = Ok (set_batch b m) ∧
    Forall2 (stored input "A_") (range 0 (2 * task_num (opt m))) (real_A b) ∧
    Forall2 (stored input "B_") (range 0 (2 * task_num (opt m))) (real_B b) ∧
    Forall2 (λ i p, input !! ("A_paths_" +:+ pretty i) = Some p)
      (range 0 (2 * task_num (opt m))) (image_paths b) ∧
    py_index (real_A b) (2 * task_num (opt m) - 2) = Ok (real_A_cur1 b) ∧
    py_index (real_A b) (2 * task_num (opt m) - 1) = Ok (real_A_cur2 b) ∧
    py_index (real_B b) (2 * task_num (opt m) - 2) = Ok (real_B_cur1 b) ∧
    py_index (real_B b) (2 * task_num (opt m) - 1) = Ok (real_B_cur2 b).
Proof.
  intros Ht Hwf. unfold well_formed in Hwf.
  destruct (set_input_loop input _ [] [] [] Hwf) as (rA & rB & ps & Hloop & HA & HB & HP).
  cbn [app] in Hloop.
  replace (task_num (opt m) * 2) with (2 * task_num (opt m)) in * by lia.
  pose proof (Forall2_length _ _ _ HA) as HlA.
  pose proof (Forall2_length _ _ _ HB) as HlB.
  unfold range in HlA, HlB. rewrite length_seqZ in HlA, HlB.
  destruct (py_index_total rA (2 * task_num (opt m) - 2)) as [a1 Ha1]; [lia|].
  destruct (py_index_total rA (2 * task_num (opt m) - 1)) as [a2 Ha2]; [lia|].
  destruct (py_index_total rB (2 * task_num (opt m) - 2)) as [b1 Hb1]; [lia|].
  destruct (py_index_total rB (2 * task_num (opt m) - 1)) as [b2 Hb2]; [lia|].
  assert (∃ prev,
    (if retention (opt m) then
       pa1 ← py_index rA 0; pa2 ← py_index rA 1;
       pb1 ← py_index rB 0; pb2 ← py_index rB 1;
       Ok (Some (pa1, pa2, pb1, pb2))
     else Ok (batch m ≫= real_prev)) = Ok prev) as [prev Hprev].
  { destruct (retention (opt m)) eqn:Hr; [|by eexists].
    apply retention_iff in Hr as [Hr _].
    destruct (py_index_total rA 0) as [? ->]; [lia|].
    destruct (py_index_total rA 1) as [? ->]; [lia|].
    destruct (py_index_total rB 0) as [? ->]; [lia|].
    destruct (py_index_total rB 1) as [? ->]; [lia|].
    by eexists. }
  exists {| real_A := rA; real_B := rB; image_paths := ps;
            real_A_cur1 := a1; real_A_cur2 := a2;
            real_B_cur1 := b1; real_B_cur2 := b2; real_prev := prev |}.
  split; [|by cbn].
  unfold set_input. cbv zeta.
  replace (task_num (opt m) * 2) with (2 * task_num (opt m)) by lia.
  rewrite Hloop. cbn [mbind Res_bind]. rewrite Ha1, Ha2, Hb1, Hb2.
  cbn [mbind Res_bind]. rewrite Hprev. reflexivity.
Qed.

(** X1.  On a batch that has all [2 * task_num] streams, [set_input]
    returns; it assigns only the batch attributes of [self]; [real_A],
    [real_B] and [image_paths] hold the entries [A_i], [B_i] and
    [A_paths_i] for i = 0 .. 2t-1 in this order, the images without
    autograd history; and the [cur] attributes are the entries 2t-2 and
    2t-1 of the lists. *)
Theorem set_input_stores_every_stream input m :
  1 ≤ task_num (opt m) →
  well_formed (task_num (opt m)) input = true →
  ∃ b, set_input input m = Ok (set_batch b m) ∧
    Forall2 (stored input "A_") (range 0 (2 * task_num (opt m))) (real_A b) ∧
    Forall2 (stored input "B_") (range 0 (2 * task_num (opt m))) (real_B b) ∧
    Forall2 (λ i p, input !! ("A_paths_" +:+ pretty i) = Some p)
      (range 0 (2 * task_num (opt m))) (image_paths b) ∧
    py_index (real_A b) (2 * task_num (opt m) - 2) = Ok (real_A_cur1 b) ∧
    py_index (real_A b) (2 * task_num (opt m) - 1) = Ok (real_A_cur2 b) ∧
    py_index (real_B b) (2 * task_num (opt m) - 2) = Ok (real_B_cur1 b) ∧
    py_index (real_B b) (2 * task_num (opt m) - 1) = Ok (real_B_cur2 b).
Proof. exact (set_input_returns input m). Qed.

(** X2.  [set_input] reads the streams in order and stops at the first
    incomplete one: when the streams before [i] are complete and a key of
    stream [i] is missing, the call raises KeyError for that very key
    ([A_i] before [B_i] before [A_paths_i]), whatever else the batch
    holds. *)
Theorem set_input_first_missing_key input m i :
  0 ≤ i < 2 * task_num (opt m) →
  forallb (stream_present input) (range 0 i) = true →
  (input !! ("A_" +:+ pretty i) = None →
     set_input input m = Raise (KeyError ("A_" +:+ pretty i))) ∧
  (is_image (input !! ("A_" +:+ pretty i)) = true →
   input !! ("B_" +:+ pretty i) = None →
     set_input input m = Raise (KeyError ("B_" +:+ pretty i))) ∧
  (is_image (input !! ("A_" +:+ pretty i)) = true →
   is_image (input !! ("B_" +:+ pretty i)) = true →
   input !! ("A_paths_" +:+ pretty i) = None →
     set_input input m = Raise (KeyError ("A_paths_" +:+ pretty i))).
Proof.
  intros Hi Hpre.
  destruct (set_input_loop input _ [] [] [] Hpre) as (rA & rB & ps & Hloop & _).
  cbn [app] in Hloop.
  assert (∀ e,
    (a ← dict_get input ("A_" +:+ pretty i) ≫= to_device;
     b ← dict_get input ("B_" +:+ pretty i) ≫= to_device;
     p ← dict_get input ("A_paths_" +:+ pretty i);
     Ok (rA ++ [a], rB ++ [b], ps ++ [p])) = Raise e →
    set_input input m = Raise e) as Hstop.
  { intros e He. unfold set_input. cbv zeta.
    rewrite (range_split i (task_num (opt m) * 2)) by lia.
    rewrite for_each_app, Hloop. cbn [mbind Res_bind for_each].
    by rewrite He. }
  assert (∀ k d, input !! k = Some (ImageTensor d) →
            dict_get input k = Ok (ImageTensor d)) as Hget
    by (intros k d Hk; unfold dict_get; by rewrite Hk).
  assert (∀ k, input !! k = None → dict_get input k = Raise (KeyError k)) as Hmiss
    by (intros k Hk; unfold dict_get; by rewrite Hk).
  split; [|split].
  - intros HA. apply Hstop. by rewrite (Hmiss _ HA).
  - intros HA HB. apply is_image_Some in HA as [a HA].
    apply Hstop. by rewrite (Hget _ _ HA), (Hmiss _ HB).
  - intros HA HB HP. apply is_image_Some in HA as [a HA].
    apply is_image_Some in HB as [b HB].
    apply Hstop. by rewrite (Hget _ _ HA), (Hget _ _ HB), (Hmiss _ HP).
Qed.

(** X3.  With a task index below 1 there is no stream to read, and
    [set_input] raises IndexError at [self.real_A[2*task_num-2]],
    whatever the batch. *)
Theorem set_input_needs_positive_task input m :
  task_num (opt m) ≤ 0 → set_input input m = Raise IndexError.
Proof.
  intros Ht. unfold set_input. cbv zeta.
  rewrite range_empty by lia. cbn [for_each mbind Res_bind].
  rewrite (py_index_nil (2 * task_num (opt m) - 2)). reflexivity.
Qed.
End SetInput.

(** ** The cycle returns *)

Section Returns.
Context `{A : Autograd}.

Lemma call_generator_eq n net x m :
  call_generator n net x m =
    (GenCall n (weights net) (requires_grad net) (rng m) x,
     emit (Called n) (set_rng (S (rng m)) m)).
Proof. reflexivity. Qed.

(** The previous-task loop of [forward] on indices within the batch. *)
Lemma forward_previous_loop_returns (b : Batch) (idx : list Z) curG prevG (m0 : Model) :
  Forall (λ i, 0 ≤ i < Z.of_nat (length (real_A b))) idx →
  ∃ curG' prevG' m',
    for_each (λ '(curG, prevG, m) i,
        x ← py_index (real_A b) i;
        let '(y, m) := call_generator NetG (netG m) x m in
        x' ← py_index (real_A b) i;
        let '(z, m) := call_generator NetG_prev (netG_prev m) x' m in
        Ok (curG ++ [y], prevG ++ [z], m)) idx (curG, prevG, m0)
      = Ok (curG ++ curG', prevG ++ prevG', m') ∧
    length curG' = length idx ∧ length prevG' = length idx ∧
    rng m' = (rng m0 + 2 * length idx)%nat.
Proof.
  revert curG prevG m0. induction idx as [|i idx IH]; intros curG prevG m0 Hidx.
  - exists [], [], m0. rewrite !app_nil_r. cbn. repeat split; try done; lia.
  - apply Forall_cons in Hidx as [Hi Hidx].
    destruct (py_index_total (real_A b) i Hi) as [x Hx].
    cbn [for_each]. rewrite Hx. cbn [mbind Res_bind].
    rewrite call_generator_eq. cbv iota. rewrite call_generator_eq. cbv iota.
    cbn [mbind Res_bind].
    match goal with
    | |- context [for_each _ idx (?c, ?p, ?m)] =>
        destruct (IH c p m Hidx) as (curG' & prevG' & m' & -> & Hc & Hp & Hr)
    end.
    eexists (_ :: curG'), (_ :: prevG'), m'.
    split; [by rewrite <- !app_assoc|].
    cbn in *. repeat split; try lia.
Qed.

Lemma forward_returns m b :
  batch m = Some b → 1 ≤ task_num (opt m) →
  length (real_A b) = Z.to_nat (2 * task_num (opt m)) →
  ∃ m1, forward m = Ok m1 ∧ rng m1 = (rng m + forward_calls (opt m))%nat.
Proof.
  intros Hb Ht Hlen. unfold forward. cbv zeta. rewrite Hb. cbn [attr mbind Res_bind].
  rewrite (range_two (2 * task_num (opt m) - 2)) by lia. cbn [for_each].
  destruct (py_index_total (real_A b) (2 * task_num (opt m) - 2)) as [a0 Ha0]; [lia|].
  destruct (py_index_total (real_A b) (2 * task_num (opt m) - 2 + 1)) as [a1 Ha1]; [lia|].
  rewrite Ha0. cbn [mbind Res_bind]. rewrite call_generator_eq. cbv iota.
  cbn [mbind Res_bind for_each].
  rewrite Ha1. cbn [mbind Res_bind]. rewrite call_generator_eq. cbv iota.
  cbn [mbind Res_bind app]. rewrite py_index_0, py_index_1. cbn [mbind Res_bind].
  unfold forward_calls.
  match goal with
  | |- context [retention (opt ?mc)] => change (opt mc) with (opt m)
  end.
  destruct (retention (opt m)) eqn:Hr.
  - apply retention_iff in Hr as [Hr _].
    match goal with
    | |- context [for_each _ _ (?c, ?p, ?mc)] =>
        destruct (forward_previous_loop_returns b
                    (range 0 (2 * task_num (opt m) - 2)) c p mc)
          as (curG & prevG & m' & Hloop & Hc & Hp & Hrng)
    end.
    { unfold range. apply Forall_seqZ. intros i Hi. lia. }
    rewrite Hloop. cbn [mbind Res_bind app].
    unfold range in Hc, Hp, Hrng. rewrite length_seqZ in Hc, Hp, Hrng.
    destruct (py_index_total curG 0) as [c0 ->]; [lia|].
    destruct (py_index_total curG 1) as [c1 ->]; [lia|].
    destruct (py_index_total prevG 0) as [p0 ->]; [lia|].
    destruct (py_index_total prevG 1) as [p1 ->]; [lia|].
    cbn [mbind Res_bind]. eexists. split; [reflexivity|].
    cbn in *. rewrite Hrng. lia.
  - cbn [mbind Res_bind]. eexists. split; [reflexivity|]. cbn. lia.
Qed.

Lemma backward_returns name loss m :
  leaves loss ≠ [] → ∃ m', backward name loss m = Ok m'.
Proof. unfold backward. destruct (leaves loss); [done|]. eauto. Qed.

Lemma call_discriminator_eq i x m d :
  isTrain (opt m) = true → py_index (netD m) (i `mod` 2) = Ok d →
  call_discriminator i x m =
    Ok (DiscCall (NetD (Z.to_nat (i `mod` 2))) (weights d) (requires_grad d) x,
        emit (Called (NetD (Z.to_nat (i `mod` 2)))) m).
Proof.
  intros Htr Hd. unfold call_discriminator, self_netD. rewrite Htr.
  cbn [mbind Res_bind]. rewrite Hd. reflexivity.
Qed.

Lemma backward_D_returns m b out f0 f1 d0 d1 :
  isTrain (opt m) = true → batch m = Some b → outputs m = Some out →
  1 ≤ task_num (opt m) →
  length (real_A b) = Z.to_nat (2 * task_num (opt m)) →
  length (real_B b) = Z.to_nat (2 * task_num (opt m)) →
  fake_B out = [f0; f1] → netD m = [d0; d1] → requires_grad d0 = true →
  ∃ m', backward_D m = Ok m'.
Proof.
  intros Htr Hb Hout Ht HlA HlB HF HD Hrg.
  destruct (py_index_total (real_A b) (2 * task_num (opt m) - 2)) as [a0 Ha0]; [lia|].
  destruct (py_index_total (real_A b) (2 * task_num (opt m) - 2 + 1)) as [a1 Ha1]; [lia|].
  destruct (py_index_total (real_B b) (2 * task_num (opt m) - 2)) as [r0 Hr0]; [lia|].
  destruct (py_index_total (real_B b) (2 * task_num (opt m) - 2 + 1)) as [r1 Hr1]; [lia|].
  assert (∀ m', netD m' = [d0; d1] → py_index (netD m') 0 = Ok d0) as Hd0
    by (intros m' ->; apply py_index_0).
  assert (∀ m', netD m' = [d0; d1] → py_index (netD m') 1 = Ok d1) as Hd1
    by (intros m' ->; apply py_index_1).
  unfold backward_D. cbv zeta. rewrite Hb, Hout. cbn [attr mbind Res_bind].
  rewrite (range_two (2 * task_num (opt m) - 2)) by lia. cbn [for_each].
  rewrite mod2_even, HF, py_index_0, Ha0, Hr0.
  cbn [mbind Res_bind].
  rewrite (call_discriminator_eq _ _ _ d0), mod2_even
    by (rewrite ?mod2_even; first [exact Htr | apply Hd0; exact HD]).
  cbv iota. cbn [mbind Res_bind].
  rewrite (call_discriminator_eq _ _ _ d0), mod2_even
    by (rewrite ?mod2_even; first [exact Htr | apply Hd0; exact HD]).
  cbv iota. cbn [mbind Res_bind for_each].
  rewrite mod2_odd, py_index_1, Ha1, Hr1. cbn [mbind Res_bind].
  rewrite (call_discriminator_eq _ _ _ d1), mod2_odd
    by (rewrite ?mod2_odd; first [exact Htr | apply Hd1; exact HD]).
  cbv iota. cbn [mbind Res_bind].
  rewrite (call_discriminator_eq _ _ _ d1), mod2_odd
    by (rewrite ?mod2_odd; first [exact Htr | apply Hd1; exact HD]).
  cbv iota. cbn [mbind Res_bind app]. rewrite sum_pair_two.
  cbn [mbind Res_bind operand].
  apply backward_returns. cbn [leaves]. rewrite Hrg. done.
Qed.

(** The state in which [update_D] calls [backward_D]. *)
Lemma update_D_prepared m d0 d1 o0 o1 :
  netD m = [d0; d1] → optimizer_D m = [o0; o1] →
  params o0 = NetD 0 → params o1 = NetD 1 →
  let m' := zero_grad_each (optimizer_D (set_requires_grad true m))
              (set_requires_grad true m) in
  opt m' = opt m ∧ batch m' = batch m ∧ outputs m' = outputs m ∧
  netD m' = [set_grad (grad d0 ≫= zeroed) (set_flag true d0);
             set_grad (grad d1 ≫= zeroed) (set_flag true d1)].
Proof.
  intros HD HO Hp0 Hp1. unfold set_requires_grad, zero_grad_each, zero_grad.
  cbn. rewrite HO. cbn. rewrite Hp0, Hp1. cbn. rewrite HD. cbn. done.
Qed.

Lemma update_D_returns m b out f0 f1 d0 d1 o0 o1 :
  isTrain (opt m) = true → batch m = Some b → outputs m = Some out →
  1 ≤ task_num (opt m) →
  length (real_A b) = Z.to_nat (2 * task_num (opt m)) →
  length (real_B b) = Z.to_nat (2 * task_num (opt m)) →
  fake_B out = [f0; f1] →
  netD m = [d0; d1] → optimizer_D m = [o0; o1] →
  params o0 = NetD 0 → params o1 = NetD 1 →
  ∃ m', update_D m = Ok m'.
Proof.
  intros Htr Hb Hout Ht HlA HlB HF HD HO Hp0 Hp1.
  destruct (update_D_prepared m d0 d1 o0 o1 HD HO Hp0 Hp1) as (Ho & Hb' & Hout' & HD').
  unfold update_D, self_netD. rewrite Htr. cbn [mbind Res_bind]. cbv zeta.
  edestruct (backward_D_returns
               (zero_grad_each (optimizer_D (set_requires_grad true m))
                  (set_requires_grad true m)) b out f0 f1) as [m' ->];
    [by rewrite Ho|by rewrite Hb'|by rewrite Hout'|by rewrite Ho|by rewrite Ho|
     by rewrite Ho|exact HF|exact HD'|reflexivity|].
  cbn [mbind Res_bind]. by eexists.
Qed.

(** The previous-task loop of [backward_G] on indices within the lists. *)
Lemma reminding_loop_returns (ret : Retained) (idx : list Z) rl1s rpercs :
  Forall (λ i, 0 ≤ i < Z.of_nat (length (fake_B_curG ret)) ∧
               0 ≤ i < Z.of_nat (length (fake_B_prevG ret))) idx →
  ∃ rl1s' rpercs',
    for_each (λ '(rl1s, rpercs) i,
        c ← py_index (fake_B_curG ret) i;
        p ← py_index (fake_B_prevG ret) i;
        c' ← py_index (fake_B_curG ret) i;
        let pred_feat_G := Vgg c' in
        p' ← py_index (fake_B_prevG ret) i;
        let pred_feat_G_prev := Vgg p' in
        Ok (rl1s ++ [CriterionL1 c p],
            rpercs ++ [CriterionPerceptual pred_feat_G pred_feat_G_prev]))
      idx (rl1s, rpercs) = Ok (rl1s ++ rl1s', rpercs ++ rpercs') ∧
    length rl1s' = length idx ∧ length rpercs' = length idx.
Proof.
  revert rl1s rpercs. induction idx as [|i idx IH]; intros rl1s rpercs Hidx.
  - exists [], []. by rewrite !app_nil_r.
  - apply Forall_cons in Hidx as [[Hc Hp] Hidx].
    destruct (py_index_total _ i Hc) as [c Hc'].
    destruct (py_index_total _ i Hp) as [p Hp'].
    cbn [for_each]. rewrite Hc', Hp'. cbn [mbind Res_bind]. cbv zeta.
    match goal with
    | |- context [for_each _ idx (?l, ?r)] =>
        destruct (IH l r Hidx) as (rl1s' & rpercs' & Hloop & Hl & Hr)
    end.
    eexists (_ :: rl1s'), (_ :: rpercs').
    split; [|by cbn; rewrite Hl, Hr].
    etrans; [exact Hloop|]. by rewrite <- !app_assoc.
Qed.

Lemma backward_G_returns m b out f0 f1 d0 d1 :
  isTrain (opt m) = true → batch m = Some b → outputs m = Some out →
  1 ≤ task_num (opt m) →
  length (real_A b) = Z.to_nat (2 * task_num (opt m)) →
  length (real_B b) = Z.to_nat (2 * task_num (opt m)) →
  fake_B out = [f0; f1] → netD m = [d0; d1] → NetG ∈ leaves f0 →
  (retention (opt m) = true → ∃ ret, retained out = Some ret ∧
     length (fake_B_curG ret) = Z.to_nat (2 * task_num (opt m) - 2) ∧
     length (fake_B_prevG ret) = Z.to_nat (2 * task_num (opt m) - 2)) →
  ∃ m', backward_G m = Ok m'.
Proof.
  intros Htr Hb Hout Ht HlA HlB HF HD Hleaf Hret.
  destruct (py_index_total (real_A b) (2 * task_num (opt m) - 2)) as [a0 Ha0]; [lia|].
  destruct (py_index_total (real_A b) (2 * task_num (opt m) - 2 + 1)) as [a1 Ha1]; [lia|].
  destruct (py_index_total (real_B b) (2 * task_num (opt m) - 2)) as [r0 Hr0]; [lia|].
  destruct (py_index_total (real_B b) (2 * task_num (opt m) - 2 + 1)) as [r1 Hr1]; [lia|].
  assert (∀ m', netD m' = [d0; d1] → py_index (netD m') 0 = Ok d0) as Hd0
    by (intros m' ->; apply py_index_0).
  assert (∀ m', netD m' = [d0; d1] → py_index (netD m') 1 = Ok d1) as Hd1
    by (intros m' ->; apply py_index_1).
  unfold backward_G. cbv zeta. rewrite Hb, Hout. cbn [attr mbind Res_bind].
  rewrite (range_two (2 * task_num (opt m) - 2)) by lia. cbn [for_each].
  rewrite mod2_even, HF, py_index_0, Ha0, Hr0.
  cbn [mbind Res_bind].
  rewrite (call_discriminator_eq _ _ _ d0), mod2_even
    by (rewrite ?mod2_even; first [exact Htr | apply Hd0; exact HD]).
  cbv iota. cbn [mbind Res_bind for_each].
  rewrite mod2_odd, py_index_1, Ha1, Hr1. cbn [mbind Res_bind].
  rewrite (call_discriminator_eq _ _ _ d1), mod2_odd
    by (rewrite ?mod2_odd; first [exact Htr | apply Hd1; exact HD]).
  cbv iota. cbn [mbind Res_bind app]. rewrite sum_triple_two.
  cbn [mbind Res_bind operand].
  destruct (retention (opt m)) eqn:Hr.
  - destruct (Hret eq_refl) as (ret & Hretained & HlC & HlP).
    apply retention_iff in Hr as [Hgt Hnl].
    rewrite Hretained. cbn [attr mbind Res_bind].
    destruct (reminding_loop_returns ret (range 0 (2 * task_num (opt m) - 2)) [] [])
      as (rl1s & rpercs & Hloop & Hl1 & Hl2).
    { unfold range. apply Forall_seqZ. intros i Hi. lia. }
    cbn [app] in Hloop. rewrite Hloop. cbn [mbind Res_bind].
    unfold range in Hl1, Hl2. rewrite length_seqZ in Hl1, Hl2.
    rewrite sum_pair_total by lia. cbn [mbind Res_bind].
    rewrite Hnl, bool_decide_eq_false_2 by lia. cbn [orb attr mbind Res_bind].
    cbn [loss_reminding_L1_all loss_reminding_perceptual_all].
    destruct rl1s as [|x1 rl1s]; [simpl in Hl1; lia|].
    destruct rpercs as [|y1 rpercs]; [simpl in Hl2; lia|].
    cbn [total operand mbind Res_bind].
    apply backward_returns. intros Hnil.
    assert (NetG ∈ @nil NetId) as Hin; [|by apply elem_of_nil in Hin].
    rewrite <- Hnil. cbn [leaves]. rewrite !elem_of_app. tauto.
  - assert (bool_decide (task_num (opt m) = 1) || no_lifelong_training (opt m) = true)
      as ->.
    { unfold retention in Hr. apply andb_false_iff in Hr as [Hr|Hr].
      - apply bool_decide_eq_false in Hr. rewrite bool_decide_eq_true_2 by lia. done.
      - apply negb_false_iff in Hr. rewrite Hr. apply orb_true_r. }
    cbn [mbind Res_bind].
    apply backward_returns. intros Hnil.
    assert (NetG ∈ @nil NetId) as Hin; [|by apply elem_of_nil in Hin].
    rewrite <- Hnil. cbn [leaves]. rewrite !elem_of_app. tauto.
Qed.

(** The state in which [update_G] calls [backward_G]. *)
Lemma update_G_prepared m d0 d1 og :
  netD m = [d0; d1] → params og = NetG →
  let m' := zero_grad og (set_requires_grad false m) in
  opt m' = opt m ∧ batch m' = batch m ∧ outputs m' = outputs m ∧
  optimizer_G m' = optimizer_G m ∧
  netD m' = [set_flag false d0; set_flag false d1].
Proof.
  intros HD Hp. unfold set_requires_grad, zero_grad. rewrite Hp.
  cbn. rewrite HD. done.
Qed.

Lemma backward_G_optimizer m m' :
  backward_G m = Ok m' → optimizer_G m' = optimizer_G m.
Proof.
  intros H. apply backward_G_spec in H
    as (? & ? & ? & ? & ? & ? & ? & ? & ? & ? & ? & ? & _ & _ & _ & _ & _ & _ & _ &
        _ & _ & _ & _ & _ & -> & _).
  reflexivity.
Qed.

Lemma update_G_returns m b out f0 f1 d0 d1 og :
  isTrain (opt m) = true → batch m = Some b → outputs m = Some out →
  1 ≤ task_num (opt m) →
  length (real_A b) = Z.to_nat (2 * task_num (opt m)) →
  length (real_B b) = Z.to_nat (2 * task_num (opt m)) →
  fake_B out = [f0; f1] → netD m = [d0; d1] → NetG ∈ leaves f0 →
  (retention (opt m) = true → ∃ ret, retained out = Some ret ∧
     length (fake_B_curG ret) = Z.to_nat (2 * task_num (opt m) - 2) ∧
     length (fake_B_prevG ret) = Z.to_nat (2 * task_num (opt m) - 2)) →
  optimizer_G m = Some og → params og = NetG →
  ∃ m', update_G m = Ok m'.
Proof.
  intros Htr Hb Hout Ht HlA HlB HF HD Hleaf Hret HOG Hp.
  destruct (update_G_prepared m d0 d1 og HD Hp) as (Ho & Hb' & Hout' & HOG' & HD').
  unfold update_G, self_netD. rewrite Htr. cbn [mbind Res_bind]. cbv zeta.
  change (optimizer_G (set_requires_grad false m)) with (optimizer_G m).
  rewrite HOG. cbn [attr mbind Res_bind].
  edestruct (backward_G_returns (zero_grad og (set_requires_grad false m))
               b out f0 f1) as [m2 Hm2];
    [by rewrite Ho|by rewrite Hb'|by rewrite Hout'|by rewrite Ho|by rewrite Ho|
     by rewrite Ho|exact HF|exact HD'|exact Hleaf|by rewrite Ho|].
  rewrite Hm2. cbn [mbind Res_bind].
  rewrite (backward_G_optimizer _ _ Hm2), HOG', HOG. cbn [attr mbind Res_bind].
  destruct (step og m2). by eexists.
Qed.

Lemma cycle_returns fs o m :
  reachable fs o m → isTrain o = true → is_Some (batch m) →
  ∃ m', optimize_parameters m = Ok m' ∧
    rng m' = (rng m + forward_calls o)%nat ∧
    trace m' = trace m ++ cycle_events o.
Proof.
  intros Hreach Htr [b Hb].
  destruct (reachable_invariant _ _ _ Hreach) as [Ho Hinv]. subst o.
  pose proof Hinv as (HG & HP & Hshape & Hbatch & Hnoret).
  destruct (Hbatch b Hb) as (Ht & HlA & HlB & _).
  destruct (invariant_shapes m Hinv Htr)
    as (d0 & d1 & o0 & o1 & og & HD & HO & Hp0 & Hp1 & HOG & Hpg).
  destruct (forward_returns m b Hb Ht HlA) as (m1 & Hf & Hrng).
  pose proof (forward_invariant m m1 Hinv Hf)
    as (Hinv1 & Ho1 & Hb1 & HG1 & HP1 & HD1 & HO1 & HOG1 & _).
  pose proof (forward_spec m m1 Hf)
    as (b' & a0 & a1 & ret & k & Hb'' & Ha0 & Ha1 & Hm1 & Hret0 & Hret1).
  rewrite Hb in Hb''. injection Hb'' as <-.
  assert (outputs m1 = Some
            {| fake_B := [GenCall NetG (weights (netG m)) (requires_grad (netG m))
                            (rng m) a0;
                          GenCall NetG (weights (netG m)) (requires_grad (netG m))
                            (S (rng m)) a1];
               fake_B_cur1 := GenCall NetG (weights (netG m)) (requires_grad (netG m))
                                (rng m) a0;
               fake_B_cur2 := GenCall NetG (weights (netG m)) (requires_grad (netG m))
                                (S (rng m)) a1;
               retained := ret |}) as Hout1 by (by rewrite Hm1).
  edestruct (update_D_returns m1) as [m2 HuD];
    [by rewrite Ho1|by rewrite Hb1|exact Hout1|by rewrite Ho1|by rewrite Ho1|
     by rewrite Ho1|reflexivity|by rewrite HD1|by rewrite HO1|exact Hp0|exact Hp1|].
  pose proof HuD as HuD'.
  eapply (update_D_spec m1 m2 d0 d1 o0 o1) in HuD';
    [|by rewrite HD1|by rewrite HO1|exact Hp0|exact Hp1].
  destruct HuD' as (b2 & out2 & ? & ? & ? & ? & ? & ? & e0 & e1 & d0' & d1' &
    _ & _ & _ & _ & _ & _ & _ & _ & _ & _ & _ & _ & _ &
    Ho2 & Hb2 & Hout2 & _ & Hrng2 & HOG2 & _ & _ & _ & HD2 & _ & _ & Htr2).
  edestruct (update_G_returns m2) as [m3 HuG];
    [by rewrite Ho2, Ho1|by rewrite Hb2, Hb1|by rewrite Hout2|
     by rewrite Ho2, Ho1|by rewrite Ho2, Ho1|by rewrite Ho2, Ho1|
     reflexivity|exact HD2| | |by rewrite HOG2, HOG1|exact Hpg|].
  { cbn [leaves]. rewrite HG. cbn [app]. apply elem_of_cons. by left. }
  { rewrite Ho2, Ho1. intros Hr. destruct (Hret1 Hr) as (r & -> & HF1 & HF2).
    exists r. split; [done|].
    apply Forall2_length in HF1, HF2. unfold range in HF1, HF2.
    rewrite length_seqZ in HF1, HF2. cbn [retained]. lia. }
  pose proof HuG as HuG'.
  eapply (update_G_spec m2 m3 d0' d1' og) in HuG';
    [|exact HD2|by rewrite HOG2, HOG1|exact Hpg].
  destruct HuG' as (? & ? & ? & ? & ? & ? & ? & ? & ? & ? & ? &
    _ & _ & _ & _ & _ & _ & _ & _ & _ & _ & _ & _ & _ & _ &
    _ & _ & _ & _ & Hrng3 & _ & _ & _ & _ & _ & _ & _ & Htr3).
  exists m3. split; [|split].
  - unfold optimize_parameters. rewrite Hf. cbn [mbind Res_bind].
    rewrite HuD. cbn [mbind Res_bind]. exact HuG.
  - rewrite Hrng3, Hrng2. exact Hrng.
  - rewrite Htr3, Htr2. unfold cycle_events. rewrite Hm1. cbn [trace set_outputs].
    unfold emits. cbn [trace set_trace set_rng]. by rewrite <- !app_assoc.
Qed.

(** X4.  In a training session, once a batch has been set,
    [optimize_parameters] returns: no index, attribute or autograd error
    can occur in the cycle.  It makes two generator calls, and with
    retention two more for each of the 2t-2 previous-task streams, each
    with a dropout draw of its own; and it appends to the trace the
    events of the forward pass, of the discriminator update and of the
    generator update, in this order. *)
Theorem optimize_parameters_returns fs o m :
  reachable fs o m → isTrain o = true → is_Some (batch m) →
  ∃ m', optimize_parameters m = Ok m' ∧
    rng m' = (rng m + forward_calls o)%nat ∧
    trace m' = trace m ++ cycle_events o.
Proof. exact (cycle_returns fs o m). Qed.

Lemma train_from fs o m inputs :
  reachable fs o m → isTrain o = true → 1 ≤ task_num o →
  Forall (λ input, well_formed (task_num o) input = true) inputs →
  ∃ m', train inputs m = Ok m' ∧ reachable fs o m' ∧
    rng m' = (rng m + length inputs * forward_calls o)%nat ∧
    trace m' = trace m ++ mjoin (replicate (length inputs) (cycle_events o)).
Proof.
  intros Hreach Htr Ht Hall. revert m Hreach.
  induction Hall as [|input inputs Hwf Hall IH]; intros m Hreach.
  - exists m. cbn. rewrite app_nil_r. repeat split; try done; lia.
  - destruct (reachable_invariant _ _ _ Hreach) as [Ho _].
    destruct (set_input_returns input m) as (b & Hin & _); [by rewrite Ho..|].
    pose proof (reach_set_input _ _ _ _ _ Hreach Hin) as Hreach1.
    destruct (cycle_returns fs o (set_batch b m) Hreach1 Htr)
      as (m1 & Hcyc & Hrng & Htrace); [by eexists|].
    pose proof (reach_optimize _ _ _ _ Hreach1 Hcyc) as Hreach2.
    destruct (IH m1 Hreach2) as (m' & Htrain & Hreach' & Hrng' & Htrace').
    exists m'. split; [|split; [done|split]].
    + unfold train in *. cbn [for_each]. rewrite Hin. cbn [mbind Res_bind].
      rewrite Hcyc. cbn [mbind Res_bind]. exact Htrain.
    + rewrite Hrng', Hrng. cbn [rng set_batch length]. lia.
    + rewrite Htrace', Htrace. cbn [trace set_batch length replicate mjoin].
      by rewrite <- !app_assoc.
Qed.

(** X5.  A training session never fails on well-formed batches: after
    [__init__] in training mode with a task index of at least 1, any
    number of steps, each a [set_input] on a batch with all 2t streams
    followed by [optimize_parameters], returns.  The trace of the session
    is the trace of [__init__] followed by one copy of the cycle's events
    per batch, and every batch consumes the same number of dropout
    draws. *)
Theorem train_returns fs o m0 inputs :
  init fs o = Ok m0 → isTrain o = true → 1 ≤ task_num o →
  Forall (λ input, well_formed (task_num o) input = true) inputs →
  ∃ m, train inputs m0 = Ok m ∧
    rng m = (rng m0 + length inputs * forward_calls o)%nat ∧
    trace m = trace m0 ++ mjoin (replicate (length inputs) (cycle_events o)).
Proof.
  intros Hinit Htr Ht Hall.
  destruct (train_from fs o m0 inputs (reach_init _ _ _ Hinit) Htr Ht Hall)
    as (m & Htrain & _ & Hrng & Htrace).
  by exists m.
Qed.
End Returns.

(** ** What one cycle, and a whole session, do to the model *)

Section CycleEffects.
Context `{A : Autograd}.

Lemma cycle_effect m m' :
  invariant m → optimize_parameters m = Ok m' →
  ∃ lg,
    isTrain (opt m) = true ∧ opt m' = opt m ∧
    batch m' = batch m ∧ is_Some (batch m) ∧
    rng m' = (rng m + forward_calls (opt m))%nat ∧
    trace m' = trace m ++ cycle_events (opt m) ∧
    losses_G m' = Some lg ∧
    NetG ∈ leaves (loss_G lg) ∧
    (NetG_prev ∈ leaves (loss_G lg) ↔ retention (opt m) = true) ∧
    grad (netG m') =
      Some (accumulate (grad (netG m) ≫= zeroed) (vjp (loss_G lg) NetG)) ∧
    netG_prev m' = receive (loss_G lg) NetG_prev (netG_prev m).
Proof.
  intros Hinv H. unfold optimize_parameters in H.
  apply bind_Ok in H as (m1 & Hf & H). apply bind_Ok in H as (m2 & HuD & HuG).
  pose proof (update_D_isTrain _ _ HuD) as Htr1.
  pose proof (forward_invariant m m1 Hinv Hf)
    as (Hinv1 & Ho1 & Hb1 & HG1 & HP1 & HD1 & HO1 & HOG1 & _).
  rewrite Ho1 in Htr1.
  destruct (invariant_shapes m Hinv Htr1)
    as (d0 & d1 & o0 & o1 & og & HD & HO & Hp0 & Hp1 & HOG & Hpg).
  pose proof (forward_spec m m1 Hf)
    as (b & a0 & a1 & ret & k & Hb & Ha0 & Ha1 & Hm1 & _ & _).
  pose proof Hinv as (_ & _ & _ & Hbatch & _).
  destruct (Hbatch b Hb) as (Ht & HlA & HlB & HpA & HpB).
  destruct (forward_returns m b Hb Ht HlA) as (m1' & Hf' & Hrng1).
  rewrite Hf in Hf'. injection Hf' as <-.
  pose proof HuD as HuD'.
  eapply (update_D_spec m1 m2 d0 d1 o0 o1) in HuD';
    [|by rewrite HD1|by rewrite HO1|exact Hp0|exact Hp1].
  destruct HuD' as (b2 & out2 & a0' & a1' & r0 & r1 & f0 & f1 & e0 & e1 & d0' & d1' &
    Hb2' & _ & Ha0' & Ha1' & Hr0 & Hr1 & _ & _ & _ & _ & _ & _ & _ &
    Ho2 & Hb2 & Hout2 & _ & Hrng2 & HOG2 & _ & HG2 & HP2 & HD2 & _ & _ & Htr2).
  rewrite Hb1, Hb in Hb2'. injection Hb2' as <-.
  assert (plain a0' ∧ plain a1' ∧ plain r0 ∧ plain r1) as (Hpa0 & Hpa1 & Hpr0 & Hpr1).
  { repeat split; [eapply (py_index_Forall _ (real_A b))|eapply (py_index_Forall _ (real_A b))|eapply (py_index_Forall _ (real_B b))|eapply (py_index_Forall _ (real_B b))]; eauto. }
  assert (∀ n, n = NetG ∨ n = NetG_prev →
            n ∉ leaves (loss_D (expected_losses_D (opt m1) e0 e1 a0' a1' r0 r1 f0 f1)))
    as HnotD.
  { intros n Hn Hin. apply loss_D_leaves in Hin; [|done..].
    destruct Hn as [-> | ->], Hin as [? | ?]; discriminate. }
  rewrite receive_not_reached in HG2 by (apply HnotD; by left).
  rewrite receive_not_reached in HP2 by (apply HnotD; by right).
  pose proof HuG as HuG'.
  eapply (update_G_spec m2 m' d0' d1' og) in HuG';
    [|exact HD2|by rewrite HOG2, HOG1|exact Hpg].
  destruct HuG' as (? & ? & ? & ? & ? & ? & ? & ? & rem & loss & ? &
    _ & _ & _ & _ & _ & _ & _ & _ & HlG & _ & _ & _ & _ & _ &
    Ho3 & Hb3 & _ & _ & Hrng3 & _ & _ & _ & _ & HP3 & _ & Hgrad & Htr3).
  destruct (cycle_loss_G_leaves _ _ _ _ _ Hinv Hf HuD HuG HlG) as (HinG & _ & HinP).
  eexists. split; [exact Htr1|].
  split; [by rewrite Ho3, Ho2|].
  split; [by rewrite Hb3, Hb2|].
  split; [rewrite Hb; by eexists|].
  split; [by rewrite Hrng3, Hrng2|].
  split.
  { rewrite Htr3, Htr2. unfold cycle_events. rewrite Hm1. cbn [trace set_outputs].
    unfold emits. cbn [trace set_trace set_rng]. by rewrite <- !app_assoc. }
  split; [exact HlG|]. split; [exact HinG|]. split; [exact HinP|].
  split.
  - rewrite Hgrad, HG2, HG1. cbn [loss_G expected_losses_G] in *.
    rewrite receive_reached by exact HinG. reflexivity.
  - rewrite HP3, HP2, HP1. reflexivity.
Qed.

Lemma join_replicate_snoc {X : Type} (n : nat) (l : list X) :
  mjoin (replicate (S n) l) = mjoin (replicate n l) ++ l.
Proof. rewrite replicate_S_end, join_app. cbn. by rewrite app_nil_r. Qed.

(** A session as a whole, when it returns. *)
Lemma train_effect fs o m0 inputs m :
  init fs o = Ok m0 → train inputs m0 = Ok m →
  opt m = o ∧ invariant m ∧
  trace m = trace m0 ++ mjoin (replicate (length inputs) (cycle_events o)) ∧
  rng m = (rng m0 + length inputs * forward_calls o)%nat ∧
  (retention o = false → netG_prev m = netG_prev m0).
Proof.
  intros Hinit Htrain. destruct (init_invariant _ _ _ Hinit) as [Ho0 Hinv0].
  unfold train in Htrain.
  apply (for_each_ind (λ done s,
           opt s = o ∧ invariant s ∧
           trace s = trace m0 ++ mjoin (replicate (length done) (cycle_events o)) ∧
           rng s = (rng m0 + length done * forward_calls o)%nat ∧
           (retention o = false → netG_prev s = netG_prev m0))) in Htrain.
  - exact Htrain.
  - cbn [length replicate mjoin]. rewrite app_nil_r.
    split; [exact Ho0|]. split; [exact Hinv0|]. split; [reflexivity|].
    split; [lia|done].
  - clear Htrain. intros done input s s1 (Ho & Hinv & Htr & Hrng & Hprev) Hstep.
    apply bind_Ok in Hstep as (s' & Hin & Hopt).
    destruct (set_input_invariant _ _ _ Hinv Hin) as [Ho' Hinv'].
    destruct (optimize_parameters_invariant _ _ Hinv' Hopt) as [Ho1 Hinv1].
    destruct (cycle_effect _ _ Hinv' Hopt)
      as (lg & _ & _ & _ & _ & Hrng1 & Htr1 & _ & _ & HinP & _ & HP1).
    apply set_input_spec in Hin as (bt & -> & _).
    cbn [opt set_batch trace rng netG_prev] in *.
    split; [congruence|]. split; [exact Hinv1|].
    rewrite length_app. cbn [length]. rewrite Nat.add_1_r.
    split; [|split].
    + rewrite Htr1, Htr, Ho, join_replicate_snoc. by rewrite <- !app_assoc.
    + rewrite Hrng1, Hrng, Ho. lia.
    + intros Hr. rewrite HP1, receive_not_reached; [by apply Hprev|].
      rewrite HinP, Ho, Hr. done.
Qed.

(** What [__init__] leaves in the attributes the later methods assign. *)
Lemma init_fresh fs o m :
  init fs o = Ok m →
  batch m = None ∧ outputs m = None ∧ losses_D m = None ∧ losses_G m = None ∧
  rng m = 0%nat ∧
  Forall (λ e, (∃ s, e = Printed s) ∨ (∃ p, e = TorchLoad p)) (trace m).
Proof.
  unfold init. intros H.
  apply bind_Ok in H as (m1 & Hload & H).
  assert (batch m1 = None ∧ outputs m1 = None ∧ losses_D m1 = None ∧
          losses_G m1 = None ∧ rng m1 = 0%nat ∧
          Forall (λ e, (∃ s, e = Printed s) ∨ (∃ p, e = TorchLoad p)) (trace m1))
    as (Hb & Hout & HlD & HlG & Hrng & Htr).
  { destruct (isTrain o && bool_decide (prev_model_path o ≠ EmptyString)) eqn:E.
    - set (m0 := Build_Model _ _ _ _ _ _ _ _ _ _ _ _) in Hload.
      destruct (fs !! checkpoint_path (opt m0)) as [c|] eqn:Hfs;
        [|by rewrite load_prev_model_missing in Hload].
      destruct (matches_generator (entries c)) eqn:Hc;
        [|by rewrite (load_prev_model_mismatch _ _ c) in Hload].
      rewrite (load_prev_model_found _ _ c) in Hload by done.
      injection Hload as <-. cbn -[checkpoint_path].
      do 5 (split; [reflexivity|]).
      apply Forall_forall. intros e He.
      repeat (apply elem_of_cons in He as [->|He]; [eauto|]).
      by apply elem_of_nil in He.
    - injection Hload as <-. cbn. do 5 (split; [reflexivity|]). constructor. }
  destruct (isTrain o); injection H as <-; cbn; done.
Qed.

(** X6.  [optimize_parameters] cannot run before the first
    [set_input]: on the model [__init__] returns, [forward], and with it
    the whole cycle, raises AttributeError for [real_A]. *)
Theorem optimize_parameters_needs_set_input fs o m :
  init fs o = Ok m →
  forward m = Raise (AttributeError "real_A") ∧
  optimize_parameters m = Raise (AttributeError "real_A").
Proof.
  intros Hinit. destruct (init_fresh _ _ _ Hinit) as (Hb & _).
  assert (forward m = Raise (AttributeError "real_A")) as Hf
    by (unfold forward; rewrite Hb; reflexivity).
  split; [exact Hf|]. unfold optimize_parameters. by rewrite Hf.
Qed.


(** X8.  At test time [optimize_parameters] never returns; when the
    forward pass succeeds (a batch has been set), the error is the
    AttributeError on reading [self.netD], which [__init__] defines only
    for training. *)
Theorem optimize_parameters_at_test_time m :
  isTrain (opt m) = false →
  (∀ m', optimize_parameters m ≠ Ok m') ∧
  (∀ m1, forward m = Ok m1 →
     optimize_parameters m = Raise (AttributeError "netD")).
Proof.
  intros Htr.
  assert (∀ m1, forward m = Ok m1 →
            optimize_parameters m = Raise (AttributeError "netD")) as Hraise.
  { intros m1 Hf. unfold optimize_parameters. rewrite Hf. cbn [mbind Res_bind].
    apply forward_spec in Hf as (? & ? & ? & ? & ? & _ & _ & _ & -> & _).
    unfold update_D, self_netD. cbn [opt set_outputs emits set_trace set_rng].
    by rewrite Htr. }
  split; [|exact Hraise].
  intros m' H. pose proof H as H'. unfold optimize_parameters in H'.
  apply bind_Ok in H' as (m1 & Hf & _). rewrite (Hraise m1 Hf) in H. discriminate.
Qed.
End CycleEffects.

(** ** Counting the events of a session *)

Section Session.
Context `{A : Autograd}.

Lemma occurrences_app e l1 l2 :
  occurrences e (l1 ++ l2) = (occurrences e l1 + occurrences e l2)%nat.
Proof. unfold occurrences. by rewrite filter_app, length_app. Qed.

Lemma occurrences_join_replicate e n l :
  occurrences e (mjoin (replicate n l)) = (n * occurrences e l)%nat.
Proof.
  induction n as [|n IH]; [done|].
  rewrite join_replicate_snoc, occurrences_app, IH. lia.
Qed.

Lemma occurrences_bind {X : Type} e (idx : list X) l :
  occurrences e (idx ≫= λ _, l) = (length idx * occurrences e l)%nat.
Proof.
  induction idx as [|i idx IH]; [done|].
  rewrite bind_cons, occurrences_app, IH. cbn [length]. lia.
Qed.

Lemma occurrences_none e l : Forall (λ x, x ≠ e) l → occurrences e l = 0%nat.
Proof.
  unfold occurrences. induction 1 as [|x l Hx _ IH]; [done|].
  rewrite filter_cons_False by done. exact IH.
Qed.

Lemma forward_events_occurrences o e :
  occurrences e (forward_events o) =
    (occurrences e [Called NetG; Called NetG] +
     (if retention o
      then Z.to_nat (2 * task_num o - 2) * occurrences e [Called NetG; Called NetG_prev]
      else 0))%nat.
Proof.
  unfold forward_events. rewrite occurrences_app. f_equal.
  destruct (retention o); [|done].
  rewrite occurrences_bind. unfold range. rewrite length_seqZ. f_equal. f_equal. lia.
Qed.

(** The occurrences of an event that [__init__] does not emit. *)
Lemma session_occurrences fs o m0 inputs m e :
  init fs o = Ok m0 → train inputs m0 = Ok m →
  (∀ s, e ≠ Printed s) → (∀ p, e ≠ TorchLoad p) →
  occurrences e (trace m) =
    (length inputs *
      (occurrences e [Called NetG; Called NetG] +
       (if retention o
        then Z.to_nat (2 * task_num o - 2) * occurrences e [Called NetG; Called NetG_prev]
        else 0) +
       occurrences e update_D_events + occurrences e update_G_events))%nat.
Proof.
  intros Hinit Htrain HnP HnL.
  destruct (train_effect _ _ _ _ _ Hinit Htrain) as (_ & _ & -> & _).
  destruct (init_fresh _ _ _ Hinit) as (_ & _ & _ & _ & _ & Htr0).
  rewrite occurrences_app, occurrences_join_replicate.
  rewrite (occurrences_none e (trace m0)).
  2:{ eapply Forall_impl; [exact Htr0|]. intros x [[s ->]|[p ->]] He.
      - by apply (HnP s). - by apply (HnL p). }
  unfold cycle_events. rewrite !occurrences_app, forward_events_occurrences. lia.
Qed.

(** X9.  Without retention (task 1, or lifelong training disabled) a
    training session never calls the frozen generator and leaves it
    exactly as [__init__] built it: parameters, flag and gradient. *)
Theorem frozen_generator_idle_without_retention fs o m0 inputs m :
  init fs o = Ok m0 → retention o = false → train inputs m0 = Ok m →
  netG_prev m = netG_prev m0 ∧
  occurrences (Called NetG_prev) (trace m) = 0%nat.
Proof.
  intros Hinit Hr Htrain. split.
  - destruct (train_effect _ _ _ _ _ Hinit Htrain) as (_ & _ & _ & _ & Hprev).
    by apply Hprev.
  - rewrite (session_occurrences fs o m0 inputs m) by done.
    rewrite Hr. vm_compute occurrences. lia.
Qed.

(** X10.  The events of a whole session, counted.  With n batches:
    [netG] is called n × (2 + p) times and [netG_prev] n × p times, where
    p = 2t-2 with retention and 0 without; each discriminator is called
    3n times (twice in the discriminator update, once in the generator
    update); each of the two losses is back-propagated n times; each of
    the three optimizers steps n times; and the frozen generator is never
    stepped and its gradient never zeroed. *)
Theorem session_event_counts fs o m0 inputs m :
  init fs o = Ok m0 → train inputs m0 = Ok m →
  let n := length inputs in
  let p := if retention o then Z.to_nat (2 * task_num o - 2) else 0%nat in
  occurrences (Called NetG) (trace m) = (n * (2 + p))%nat ∧
  occurrences (Called NetG_prev) (trace m) = (n * p)%nat ∧
  occurrences (Called (NetD 0)) (trace m) = (n * 3)%nat ∧
  occurrences (Called (NetD 1)) (trace m) = (n * 3)%nat ∧
  occurrences (Backward "loss_D") (trace m) = n ∧
  occurrences (Backward "loss_G") (trace m) = n ∧
  occurrences (Step (NetD 0)) (trace m) = n ∧
  occurrences (Step (NetD 1)) (trace m) = n ∧
  occurrences (Step NetG) (trace m) = n ∧
  occurrences (Step NetG_prev) (trace m) = 0%nat ∧
  occurrences (ZeroGrad NetG_prev) (trace m) = 0%nat.
Proof.
  intros Hinit Htrain n p. subst n p.
  repeat split;
    rewrite (session_occurrences fs o m0 inputs m) by done;
    vm_compute occurrences; destruct (retention o); lia.
Qed.
End Session.

(** ** Gradients, accumulated losses and the checkpoint *)

Section More.
Context `{A : Autograd}.

(** X11.  In every cycle of a training session the gradient of the
    trainable generator is rebuilt: what the step of [optimizer_G] sees is
    the gradient of this cycle's [loss_G] accumulated on the zeroed
    gradient.  The gradient of the frozen generator is never zeroed: with
    retention each cycle accumulates the gradient of [loss_G] on what the
    earlier cycles left there, and without retention it stays as it
    was. *)
Theorem generator_gradient_rebuilt_each_cycle fs o m m' :
  reachable fs o m → optimize_parameters m = Ok m' →
  ∃ lg, losses_G m' = Some lg ∧
    grad (netG m') =
      Some (accumulate (grad (netG m) ≫= zeroed) (vjp (loss_G lg) NetG)) ∧
    (retention o = true →
       grad (netG_prev m') =
         Some (accumulate (grad (netG_prev m)) (vjp (loss_G lg) NetG_prev))) ∧
    (retention o = false → grad (netG_prev m') = grad (netG_prev m)).
Proof.
  intros Hreach Hopt.
  destruct (reachable_invariant _ _ _ Hreach) as [<- Hinv].
  destruct (cycle_effect _ _ Hinv Hopt)
    as (lg & _ & _ & _ & _ & _ & _ & HlG & _ & HinP & Hgrad & HP).
  exists lg. split; [exact HlG|]. split; [exact Hgrad|]. split.
  - intros Hr. rewrite HP, receive_reached by by apply HinP. reflexivity.
  - intros Hr. rewrite HP, receive_not_reached; [done|].
    rewrite HinP, Hr. done.
Qed.

(** X12.  After [backward_D] the lists of per-stream losses no longer
    hold the first stream's terms: the totals were bound to entry 0 and
    then added to in place, so entry 0 of [loss_D_fake] (of
    [loss_D_real]) is the total itself, and entry 1 is the second
    stream's term. *)
Theorem backward_D_first_entry_is_the_total m m' :
  backward_D m = Ok m' →
  ∃ ld f0 f1 r0 r1, losses_D m' = Some ld ∧
    loss_D_fake_all ld = Add f0 f1 ∧ loss_D_fake ld = [Add f0 f1; f1] ∧
    loss_D_real_all ld = Add r0 r1 ∧ loss_D_real ld = [Add r0 r1; r1].
Proof.
  intros H. apply backward_D_spec in H
    as (b & out & d0 & d1 & a0 & a1 & r0 & r1 & f0 & f1 & _ & _ & _ & _ & _ &
        _ & _ & _ & _ & _ & _ & _ & ->).
  eexists _, _, _, _, _. split; [reflexivity|]. by cbn.
Qed.

(** X13.  The same holds after [backward_G]: entry 0 of [loss_G_GAN],
    [loss_G_L1] and [loss_G_perceptual] is the respective total, and with
    retention entry 0 of [loss_reminding_L1] and of
    [loss_reminding_perceptual] is the respective reminding total. *)
Theorem backward_G_first_entry_is_the_total m m' :
  backward_G m = Ok m' →
  ∃ lg, losses_G m' = Some lg ∧
    loss_G_GAN lg !! 0%nat = Some (loss_G_GAN_all lg) ∧
    loss_G_L1 lg !! 0%nat = Some (loss_G_L1_all lg) ∧
    loss_G_perceptual lg !! 0%nat = Some (loss_G_perceptual_all lg) ∧
    (retention (opt m) = true → ∃ r, reminding lg = Some r ∧
       loss_reminding_L1 r !! 0%nat = loss_reminding_L1_all r ∧
       loss_reminding_perceptual r !! 0%nat = loss_reminding_perceptual_all r).
Proof.
  intros H. apply backward_G_spec in H
    as (b & out & d0 & d1 & a0 & a1 & r0 & r1 & f0 & f1 & rem & loss & _ & _ & _ &
        _ & _ & _ & _ & _ & _ & _ & _ & _ & -> & Hrem & _).
  eexists. split; [reflexivity|]. do 3 (split; [reflexivity|]).
  intros Hr. destruct (Hrem Hr) as (ret & rl1s & rpercs & _ & _ & _ & ->).
  eexists. split; [reflexivity|].
  split; [by destruct rl1s|by destruct rpercs].
Qed.

(** X14.  [load_prev_model] depends on the file system only through
    the entries of the one checkpoint file: the [_metadata] attribute is
    deleted before use, and no other path is read. *)
Theorem load_prev_model_reads_only_the_entries fs1 fs2 m :
  entries <$> (fs1 !! checkpoint_path (opt m)) =
    entries <$> (fs2 !! checkpoint_path (opt m)) →
  load_prev_model fs1 m = load_prev_model fs2 m.
Proof.
  intros H.
  destruct (fs1 !! checkpoint_path (opt m)) as [c1|] eqn:H1,
           (fs2 !! checkpoint_path (opt m)) as [c2|] eqn:H2; try done.
  - injection H as He.
    destruct (matches_generator (entries c1)) eqn:Hc.
    + rewrite (load_prev_model_found fs1 m c1), (load_prev_model_found fs2 m c2)
        by (done || by rewrite <- He).
      unfold loaded. by rewrite He.
    + rewrite (load_prev_model_mismatch fs1 m c1), (load_prev_model_mismatch fs2 m c2)
        by (done || by rewrite <- He).
      reflexivity.
  - by rewrite !load_prev_model_missing.
Qed.

(** X15.  When [load_prev_model] returns, the checkpoint file existed
    and fits the generator; the values were copied into the parameters of
    the two generators in place, leaving their [requires_grad] flags and
    gradients, the discriminators, the optimizers and the batch as they
    were; and the two generators now have the same parameters. *)
Theorem load_prev_model_copies_in_place fs m m' :
  load_prev_model fs m = Ok m' →
  ∃ c, fs !! checkpoint_path (opt m) = Some c ∧
    matches_generator (entries c) = true ∧
    weights (netG m') = entries c ∧ weights (netG_prev m') = entries c ∧
    requires_grad (netG m') = requires_grad (netG m) ∧
    requires_grad (netG_prev m') = requires_grad (netG_prev m) ∧
    grad (netG m') = grad (netG m) ∧ grad (netG_prev m') = grad (netG_prev m) ∧
    netD m' = netD m ∧ optimizers m' = optimizers m ∧
    batch m' = batch m ∧ opt m' = opt m.
Proof.
  intros H.
  destruct (fs !! checkpoint_path (opt m)) as [c|] eqn:Hfs;
    [|by rewrite load_prev_model_missing in H].
  destruct (matches_generator (entries c)) eqn:Hc;
    [|by rewrite (load_prev_model_mismatch _ _ c) in H].
  rewrite (load_prev_model_found _ _ c) in H by done. injection H as <-.
  exists c. split; [reflexivity|]. split; [exact Hc|]. by cbn.
Qed.

(** X17.  In any state of a session in which a batch has been set, at
    training or at test time, [forward] returns.  It generates the two
    current-task images with [netG] from the sources 2t-2 and 2t-1, drawing
    dropout noise twice; with retention it also runs [netG] and
    [netG_prev] on each of the previous-task sources 0 .. 2t-3, and
    without retention it assigns no previous-task output.  It changes no
    network and makes exactly [forward_calls] generator calls. *)
Theorem forward_generates_from_the_batch fs o m b :
  reachable fs o m → batch m = Some b →
  ∃ m1 out a0 a1,
    forward m = Ok m1 ∧ outputs m1 = Some out ∧
    py_index (real_A b) (2 * task_num o - 2) = Ok a0 ∧
    py_index (real_A b) (2 * task_num o - 1) = Ok a1 ∧
    fake_B out = [GenCall NetG (weights (netG m)) true (rng m) a0;
                  GenCall NetG (weights (netG m)) true (S (rng m)) a1] ∧
    fake_B_cur1 out = GenCall NetG (weights (netG m)) true (rng m) a0 ∧
    fake_B_cur2 out = GenCall NetG (weights (netG m)) true (S (rng m)) a1 ∧
    (retention o = false → retained out = None) ∧
    (retention o = true → ∃ r, retained out = Some r ∧
       Forall2 (generated_from NetG (netG m) (real_A b))
         (range 0 (2 * task_num o - 2)) (fake_B_curG r) ∧
       Forall2 (generated_from NetG_prev (netG_prev m) (real_A b))
         (range 0 (2 * task_num o - 2)) (fake_B_prevG r)) ∧
    netG m1 = netG m ∧ netG_prev m1 = netG_prev m ∧ netD m1 = netD m ∧
    rng m1 = (rng m + forward_calls o)%nat ∧
    trace m1 = trace m ++ forward_events o.
Proof.
  intros Hreach Hb.
  destruct (reachable_invariant _ _ _ Hreach) as [<- Hinv].
  pose proof Hinv as (HG & _ & _ & Hbatch & Hnoret).
  destruct (Hbatch b Hb) as (Ht & HlA & _).
  destruct (forward_returns m b Hb Ht HlA) as (m1 & Hf & Hrng).
  pose proof (forward_invariant m m1 Hinv Hf)
    as (_ & _ & _ & HG1 & HP1 & HD1 & _).
  pose proof (forward_spec m m1 Hf)
    as (b' & a0 & a1 & ret & k & Hb' & Ha0 & Ha1 & Hm1 & Hret0 & Hret1).
  rewrite Hb in Hb'. injection Hb' as <-. rewrite HG in Hm1.
  exists m1. eexists. exists a0, a1.
  split; [exact Hf|]. split; [by rewrite Hm1|].
  split; [exact Ha0|]. split; [exact Ha1|].
  do 3 (split; [reflexivity|]). cbn [retained].
  split. { intros Hr. rewrite (Hret0 Hr). by apply Hnoret. }
  split; [exact Hret1|].
  split; [exact HG1|]. split; [exact HP1|]. split; [exact HD1|].
  split; [exact Hrng|].
  rewrite Hm1. reflexivity.
Qed.
End More.

(** ** The names announced by [__init__] *)

Section Names.
Context `{A : Autograd}.

Lemma set_input_previous input m m' :
  set_input input m = Ok m' → retention (opt m) = true →
  ∃ b, batch m' = Some b ∧ is_Some (real_prev b).
Proof.
  intros H Hr. unfold set_input in H. cbv zeta in H. rewrite Hr in H.
  apply bind_Ok in H as ([[rA rB] ps] & _ & H).
  apply bind_Ok in H as (a1 & _ & H).
  apply bind_Ok in H as (a2 & _ & H).
  apply bind_Ok in H as (b1 & _ & H).
  apply bind_Ok in H as (b2 & _ & H).
  apply bind_Ok in H as (prev & Hprev & [= <-]).
  apply bind_Ok in Hprev as (pa1 & _ & Hprev).
  apply bind_Ok in Hprev as (pa2 & _ & Hprev).
  apply bind_Ok in Hprev as (pb1 & _ & Hprev).
  apply bind_Ok in Hprev as (pb2 & _ & [= <-]).
  eexists. split; [reflexivity|]. by eexists.
Qed.

(** With retention, every batch of a session has its [prev] images. *)
Lemma reachable_previous fs o m :
  reachable fs o m →
  ∀ b, batch m = Some b → retention o = true → is_Some (real_prev b).
Proof.
  induction 1 as [m Hinit|m input m' Hreach IH Hin|m m' Hreach IH Hopt];
    intros b Hb Hr.
  - destruct (init_fresh _ _ _ Hinit) as (Hnone & _). congruence.
  - destruct (reachable_invariant _ _ _ Hreach) as [Ho _].
    destruct (set_input_previous _ _ _ Hin) as (b' & Hb' & Hprev); [by rewrite Ho|].
    congruence.
  - destruct (reachable_invariant _ _ _ Hreach) as [_ Hinv].
    destruct (cycle_effect _ _ Hinv Hopt) as (? & _ & _ & Hbm & _).
    apply IH; [congruence|done].
Qed.

(** The attributes a cycle leaves assigned. *)
Lemma cycle_attributes m m' :
  invariant m → optimize_parameters m = Ok m' →
  ∃ out ld lg,
    outputs m' = Some out ∧ losses_D m' = Some ld ∧ losses_G m' = Some lg ∧
    (retention (opt m) = true →
       is_Some (retained out) ∧
       ∃ r, reminding lg = Some r ∧
         is_Some (loss_reminding_L1_all r) ∧
         is_Some (loss_reminding_perceptual_all r)).
Proof.
  intros Hinv H. unfold optimize_parameters in H.
  apply bind_Ok in H as (m1 & Hf & H). apply bind_Ok in H as (m2 & HuD & HuG).
  destruct (cycle_spec _ _ _ _ Hinv Hf HuD HuG)
    as (b & a0 & a1 & r0 & r1 & ret & e0 & e1 & d0' & d1' & rem & loss & Hbt &
        Ha0 & Ha1 & Hr0 & Hr1 & Hpa0 & Hpa1 & Hpr0 & Hpr1 & Hout1 & Hout2 & Hout3 &
        Hnret & Hret & HG1 & HP1 & HD1 & He0 & He1 & HlD2 & HG2 & HP2 & HD2 & HlG3 &
        Hleaves & Hrem & Hnrem & Hc1 & Hc2 & HD3 & HP3 & Ho1 & Ho2 & Ho3 & Htr1 & Htr2 & Htr3).
  pose proof (update_D_isTrain _ _ HuD) as Htr. rewrite Ho1 in Htr.
  pose proof (forward_invariant m m1 Hinv Hf)
    as (_ & _ & _ & _ & _ & _ & _ & HOG1 & _).
  destruct (invariant_shapes m Hinv Htr)
    as (d0 & d1 & o0 & o1 & og & HD & HO & Hp0 & Hp1 & HOG & Hpg).
  pose proof HuD as HuD'.
  eapply (update_D_spec m1 m2 d0 d1 o0 o1) in HuD';
    [|by rewrite HD1|by rewrite <- HO; apply forward_invariant in Hf; tauto|
     exact Hp0|exact Hp1].
  destruct HuD' as (? & ? & ? & ? & ? & ? & ? & ? & ? & ? & ? & ? &
    _ & _ & _ & _ & _ & _ & _ & _ & _ & _ & _ & _ & _ &
    _ & _ & _ & _ & _ & HOG2 & _).
  pose proof HuG as HuG'.
  eapply (update_G_spec m2 m' d0' d1' og) in HuG';
    [|exact HD2|by rewrite HOG2, HOG1|exact Hpg].
  destruct HuG' as (? & ? & ? & ? & ? & ? & ? & ? & ? & ? & ? &
    _ & _ & _ & _ & _ & _ & _ & _ & _ & _ & _ & _ & _ & _ &
    _ & _ & _ & HlD3 & _).
  eexists _, _, _. split; [exact Hout3|]. split; [by rewrite HlD3|].
  split; [exact HlG3|].
  intros Hr. destruct (Hret Hr) as (r & -> & _).
  split; [by eexists|].
  destruct Hinv as (_ & _ & _ & Hbatch & _).
  destruct (Hbatch b Hbt) as (Ht & _).
  apply retention_iff in Hr as [Hgt Hnl].
  destruct Hc2 as (r' & ra & rp & -> & Hra & Hrp & _).
  { intros [?|?]; [lia|congruence]. }
  exists r'. split; [reflexivity|]. rewrite Hra, Hrp. split; by eexists.
Qed.

(** X16.  Every name announced in [__init__] is assigned by the time
    a cycle of a training session returns: each entry of [loss_names] is
    a loss attribute and each entry of [visual_names] an image attribute
    of the model, so that the training script can print and display them
    all. *)
Theorem announced_names_are_assigned fs o m m' :
  reachable fs o m → optimize_parameters m = Ok m' →
  (∀ name, name ∈ loss_names o → is_Some (loss_attribute m' name)) ∧
  (∀ name, name ∈ visual_names o → is_Some (visual_attribute m' name)).
Proof.
  intros Hreach Hopt.
  destruct (reachable_invariant _ _ _ Hreach) as [<- Hinv].
  destruct (cycle_attributes _ _ Hinv Hopt) as (out & ld & lg & Hout & HlD & HlG & Hret).
  destruct (cycle_effect _ _ Hinv Hopt) as (? & _ & _ & Hbm & [b Hb] & _).
  rewrite Hb in Hbm.
  pose proof (reachable_previous _ _ _ Hreach b Hb) as Hprev.
  pose proof Hinv as (_ & _ & _ & Hbatch & _).
  destruct (Hbatch b Hb) as (Ht & _).
  unfold loss_names, visual_names.
  destruct (bool_decide (task_num (opt m) = 1) || no_lifelong_training (opt m)) eqn:Hc.
  - split; intros name Hname;
      repeat (apply elem_of_cons in Hname as [->|Hname];
              [unfold loss_attribute, visual_attribute;
               repeat (case_decide; try done);
               rewrite ?HlG, ?HlD, ?Hout, ?Hbm; by eexists|]);
      by apply elem_of_nil in Hname.
  - apply orb_false_iff in Hc as [Hc Hnl]. apply bool_decide_eq_false in Hc.
    assert (retention (opt m) = true) as Hr by (apply retention_iff; split; [lia|done]).
    destruct (Hret Hr) as ([r Hr1] & r' & Hrem & [ra Hra] & [rp Hrp]).
    destruct (Hprev Hr) as [[[[pa1 pa2] pb1] pb2] Hp].
    split; intros name Hname;
      repeat (apply elem_of_cons in Hname as [->|Hname];
              [unfold loss_attribute, visual_attribute;
               repeat (case_decide; try done);
               rewrite ?HlG, ?HlD, ?Hout, ?Hbm; cbn; rewrite ?Hrem, ?Hr1, ?Hp; cbn;
               rewrite ?Hra, ?Hrp; by eexists|]);
      by apply elem_of_nil in Hname.
Qed.
End Names.

(** ** [toggle_dropout] *)

Section Toggle.
Lemma toggle_net_modules activate net :
  Forall2 (λ s s',
      class_of s' = class_of s ∧
      training s' = match class_of s with
                    | Dropout => activate
                    | OtherModule _ => training s
                    end)
    (modules_of net) (modules_of (toggle_net activate net)).
Proof.
  assert (∀ ms : list Submodule,
    Forall2 (λ s s',
        class_of s' = class_of s ∧
        training s' = match class_of s with
                      | Dropout => activate
                      | OtherModule _ => training s
                      end) ms (set_training activate <$> ms)) as H.
  { induction ms as [|[c t] ms IH]; constructor; [|exact IH].
    unfold set_training. by destruct c. }
  destruct net; apply H.
Qed.

(** X18.  [toggle_dropout] sets the [training] flag of every Dropout
    module of both generators to [activate] and changes nothing else:
    every other module keeps its flag, no module changes its class or its
    place, and a DataParallel wrapper stays what it was. *)
Theorem toggle_dropout_sets_every_dropout activate nets :
  let nets' := toggle_dropout activate nets in
  ∀ net net', (net, net') ∈ [(nets.1, nets'.1); (nets.2, nets'.2)] →
    Forall2 (λ s s',
        class_of s' = class_of s ∧
        training s' = match class_of s with
                      | Dropout => activate
                      | OtherModule _ => training s
                      end)
      (modules_of net) (modules_of net') ∧
    match net, net' with
    | Bare _, Bare _ => True
    | DataParallel t _, DataParallel t' _ => t' = t
    | _, _ => False
    end.
Proof.
  intros nets' net net' Hin. subst nets'. unfold toggle_dropout in Hin. cbn [fst snd] in Hin.
  apply elem_of_cons in Hin as [[= -> ->]|Hin];
    [|apply elem_of_cons in Hin as [[= -> ->]|Hin]; [|by apply elem_of_nil in Hin]].
  - split; [apply toggle_net_modules|]. by destruct (nets.1).
  - split; [apply toggle_net_modules|]. by destruct (nets.2).
Qed.

Lemma set_training_twice a b s :
  set_training b (set_training a s) = set_training b s.
Proof. destruct s as [[|name] t]; reflexivity. Qed.

(** X19.  The last call wins: what [toggle_dropout] leaves behind does
    not depend on an earlier call, so calling it twice with the same flag
    is the same as calling it once.  An earlier call cannot be undone by
    a later one: the flags the Dropout modules had before are lost. *)
Theorem toggle_dropout_last_call_wins a b nets :
  toggle_dropout b (toggle_dropout a nets) = toggle_dropout b nets.
Proof.
  assert (∀ net, toggle_net b (toggle_net a net) = toggle_net b net) as H.
  { intros [ms|t ms]; cbn [toggle_net]; f_equal;
      rewrite <- list_fmap_compose; apply list_fmap_ext;
      intros ? s _; apply set_training_twice. }
  unfold toggle_dropout. cbn [fst snd]. by rewrite !H.
Qed.
End Toggle.

(** ** The theorems at work on the concrete instance *)

Module Examples.
Import Concrete.
#[local] Existing Instance ZK.
#[local] Existing Instance ZA.

Lemma reachable_ready t nl path m :
  ready t nl path = Ok m → reachable disk (options t nl path) m.
Proof.
  unfold ready. intros H. apply bind_Ok in H as (m0 & Hinit & Hin).
  eapply reach_set_input; [by apply reach_init|exact Hin].
Defined.

Lemma task2_ready : ready 2 false "ckpt/task1" = Ok task2.
Proof. vm_compute. reflexivity. Defined.
Lemma task2_forward_ok : forward task2 = Ok task2_forward.
Proof. vm_compute. reflexivity. Defined.
Lemma task2_D_ok : update_D task2_forward = Ok task2_D.
Proof. vm_compute. reflexivity. Defined.
Lemma task2_G_ok : update_G task2_D = Ok task2_G.
Proof. vm_compute. reflexivity. Defined.
Lemma task2_reachable : reachable disk (options 2 false "ckpt/task1") task2.
Proof. apply reachable_ready, task2_ready. Defined.

Lemma discriminator_loss_is_weighted_sum_witness :
  backward_D task2_forward = Ok (the (backward_D task2_forward)) ∧
  ∃ ld, losses_D (the (backward_D task2_forward)) = Some ld ∧
    data (loss_D ld) =
      documented_loss_D (opt task2_forward)
        (data (loss_D_fake_all ld)) (data (loss_D_real_all ld)).
Proof.
  assert (backward_D task2_forward = Ok (the (backward_D task2_forward))) as H
    by (vm_compute; reflexivity).
  split; [exact H|].
  destruct (discriminator_loss_is_weighted_sum _ _ H)
    as (b & out & d0 & d1 & a0 & a1 & r0 & r1 & f0 & f1 & ld & _ & _ & _ & _ & _ & _ &
        _ & _ & _ & _ & Hld & _ & _ & _ & Hdata).
  exists ld. auto.
Defined.

Lemma generator_loss_is_weighted_sum_witness :
  backward_G task2_forward = Ok (the (backward_G task2_forward)) ∧
  ∃ lg r rl1 rperc,
    losses_G (the (backward_G task2_forward)) = Some lg ∧
    reminding lg = Some r ∧
    loss_reminding_L1_all r = Some rl1 ∧
    loss_reminding_perceptual_all r = Some rperc ∧
    data (loss_G lg) =
      documented_loss_G (opt task2_forward) (data (loss_G_GAN_all lg))
        (data (loss_G_L1_all lg)) (data (loss_G_perceptual_all lg))
        (Some (data rl1, data rperc)).
Proof.
  assert (backward_G task2_forward = Ok (the (backward_G task2_forward))) as H
    by (vm_compute; reflexivity).
  split; [exact H|].
  destruct (generator_loss_is_weighted_sum _ _ H)
    as (b & out & d0 & d1 & a0 & a1 & r0 & r1 & f0 & f1 & lg & _ & _ & _ & _ & _ & _ &
        _ & _ & _ & _ & Hlg & _ & _ & _ & _ & Hret).
  destruct Hret as (r & rl1 & rperc & Hr & Hl1 & Hp & Hdata).
  { split; [|reflexivity]. vm_compute. reflexivity. }
  exists lg, r, rl1, rperc. auto.
Defined.

Lemma frozen_generator_receives_gradient_witness :
  ∃ lg, losses_G task2_G = Some lg ∧
    NetG_prev ∈ leaves (loss_G lg) ∧
    grad (netG_prev task2_G) =
      Some (accumulate (grad (netG_prev task2_D)) (vjp (loss_G lg) NetG_prev)) ∧
    weights (netG_prev task2_G) = weights (netG_prev task2_D).
Proof.
  assert (task_num (options 2 false "ckpt/task1") > 1) as Ht by reflexivity.
  destruct (frozen_generator_receives_gradient _ _ _ _ _ _ task2_reachable Ht eq_refl
              task2_forward_ok task2_D_ok task2_G_ok)
    as (out & r & lg & _ & _ & _ & _ & Hlg & Hin & Hg & Hw).
  exists lg. auto.
Defined.

(** C1, as stated, fails on task 2: the generator step computes a
    gradient through the frozen generator. *)
Lemma frozen_generator_gradient_counterexample :
  task_num (opt task2) > 1 ∧ no_lifelong_training (opt task2) = false ∧
  forward task2 = Ok task2_forward ∧ update_D task2_forward = Ok task2_D ∧
  update_G task2_D = Ok task2_G ∧
  grad (netG_prev task2_D) = None ∧
  grad (netG_prev task2_G) ≠ None ∧
  ∃ lg, losses_G task2_G = Some lg ∧ NetG_prev ∈ leaves (loss_G lg).
Proof.
  split; [vm_compute; reflexivity|]. split; [vm_compute; reflexivity|].
  split; [exact task2_forward_ok|]. split; [exact task2_D_ok|].
  split; [exact task2_G_ok|].
  split; [vm_compute; reflexivity|].
  split; [vm_compute; discriminate|].
  pose proof (reachable_invariant _ _ _ task2_reachable) as [_ Hinv].
  destruct (cycle_spec _ _ _ _ Hinv task2_forward_ok task2_D_ok task2_G_ok)
    as (b & a0 & a1 & r0 & r1 & ret & e0 & e1 & d0' & d1' & rem & loss & _ &
        _ & _ & _ & _ & _ & _ & _ & _ & _ & _ & _ & _ & _ & _ & _ & _ & _ & _ & _ &
        _ & _ & _ & HlG3 & _).
  eexists. split; [exact HlG3|].
  apply (cycle_loss_G_leaves _ _ _ _ _ Hinv task2_forward_ok task2_D_ok task2_G_ok HlG3).
  vm_compute. reflexivity.
Qed.

Lemma init_previous_model_path_witness :
  (∃ m, init disk (options 2 false "") = Ok m ∧
        netG_prev m = define_G 1 ∧ netG m = define_G 0 ∧ trace m = []) ∧
  init disk (options 2 false "elsewhere") =
    Raise (FileNotFoundError (checkpoint_path (options 2 false "elsewhere"))).
Proof.
  split.
  - by apply (init_previous_model_path disk (options 2 false "") eq_refl).
  - by apply (init_previous_model_path disk (options 2 false "elsewhere") eq_refl).
Defined.

(** C2, as stated, fails: task 2 with lifelong training and no
    previous-model path starts up and trains, its frozen generator
    freshly initialised. *)
Lemma init_without_path_counterexample :
  ∃ m m',
    task_num (options 2 false "") > 1 ∧
    no_lifelong_training (options 2 false "") = false ∧
    prev_model_path (options 2 false "") = "" ∧
    init disk (options 2 false "") = Ok m ∧
    netG_prev m = define_G 1 ∧ trace m = [] ∧
    (m ← ready 2 false ""; optimize_parameters m) = Ok m' ∧
    weights (netG_prev m') = init_weights_G 1.
Proof.
  exists (the (init disk (options 2 false ""))),
         (the (m ← ready 2 false ""; optimize_parameters m)).
  split; [vm_compute; reflexivity|]. split; [vm_compute; reflexivity|].
  split; [vm_compute; reflexivity|]. split; [vm_compute; reflexivity|].
  split; [vm_compute; reflexivity|]. split; [vm_compute; reflexivity|].
  split; [vm_compute; reflexivity|]. vm_compute; reflexivity.
Qed.

Lemma retention_terms_iff_over_previous_streams_witness :
  ∃ lg r, losses_G task2_G = Some lg ∧ reminding lg = Some r ∧
    ∃ rl1s, length rl1s = 2%nat ∧ loss_reminding_L1_all r = total rl1s.
Proof.
  destruct (retention_terms_iff_over_previous_streams _ _ _ _ _ _ task2_reachable
              task2_forward_ok task2_D_ok task2_G_ok)
    as (b & lg & _ & Hlg & Hiff & Hterms & _).
  destruct (proj2 Hiff) as [r Hr]. { split; reflexivity. }
  destruct (Hterms r Hr) as (rl1s & rpercs & Hlen & _ & _ & _ & Hsum & _).
  exists lg, r. split; [exact Hlg|]. split; [exact Hr|].
  exists rl1s. split; [exact Hlen|exact Hsum].
Defined.

Lemma task2_init_ok : init disk (options 2 false "ckpt/task1") = Ok task2_init.
Proof. vm_compute. reflexivity. Defined.
Lemma task2_trained_ok : train three_batches task2_init = Ok task2_trained.
Proof. vm_compute. reflexivity. Defined.

Lemma frozen_generator_parameters_never_change_witness :
  weights (netG_prev task2_trained) = weights (netG_prev task2_init) ∧
  weights (netG task2_trained) ≠ weights (netG task2_init).
Proof.
  split.
  - exact (proj1 (frozen_generator_parameters_never_change _ _ _ _ _
                    task2_init_ok task2_trained_ok)).
  - vm_compute. discriminate.
Defined.

Lemma discriminator_step_gives_generator_no_gradient_witness :
  netG task2_D = netG task2_forward ∧ netG_prev task2_D = netG_prev task2_forward.
Proof.
  destruct (discriminator_step_gives_generator_no_gradient _ _ _ _ _ task2_reachable
              task2_forward_ok task2_D_ok)
    as (out & f0 & f1 & ld & e0 & e1 & a0 & a1 & _ & _ & _ & _ & _ & _ & _ & _ & _ & _ &
        HG & HP).
  split; [exact HG|exact HP].
Defined.

Lemma generator_step_leaves_discriminators_unchanged_witness :
  weights <$> netD task2_G = weights <$> netD task2_D ∧
  weights (netG_prev task2_G) = weights (netG_prev task2_D).
Proof.
  destruct (generator_step_leaves_discriminators_unchanged _ _ _ _ _ _ task2_reachable
              task2_forward_ok task2_D_ok task2_G_ok)
    as (_ & Hw & _ & _ & _ & HP).
  split; [exact Hw|exact HP].
Defined.

Lemma discriminator_update_precedes_generator_update_witness :
  ∃ m', optimize_parameters task2 = Ok m' ∧
    trace m' =
      trace task2 ++ forward_events (options 2 false "ckpt/task1") ++
      update_D_events ++ update_G_events.
Proof.
  assert (optimize_parameters task2 = Ok (the (optimize_parameters task2))) as H
    by (vm_compute; reflexivity).
  exists (the (optimize_parameters task2)). split; [exact H|].
  destruct (discriminator_update_precedes_generator_update _ _ _ _ task2_reachable H)
    as (m1 & m2 & out & f0 & f1 & a0 & a1 & d0 & d1 & lg & _ & _ & _ & H1 & H2 & H3 & _).
  rewrite H3, H2, H1. by rewrite <- !app_assoc.
Defined.

Lemma load_prev_model_same_checkpoint_for_both_witness :
  ∃ m, init disk (options 2 false "ckpt/task1") = Ok m ∧
    weights (netG_prev m) = Saved 400 true ∧ weights (netG m) = Saved 400 true.
Proof.
  destruct (load_prev_model_same_checkpoint_for_both disk
              (options 2 false "ckpt/task1")
              (@Build_Checkpoint ZK (Saved 400 true) (Some "version")))
    as (_ & m & Hm & HP & HG & _).
  - reflexivity.
  - discriminate.
  - vm_compute. reflexivity.
  - reflexivity.
  - exists m. auto.
Defined.
End Examples.

(** ** Further runs of the concrete instance *)

Module Coverage.
Import Concrete Scenarios.
#[local] Existing Instance ZK.
#[local] Existing Instance ZA.

Lemma task2_cycle_ok : optimize_parameters task2 = Ok task2_cycle.
Proof. vm_compute. reflexivity. Defined.
Lemma task1_init_ok : init disk (options 1 false EmptyString) = Ok task1_init.
Proof. vm_compute. reflexivity. Defined.
Lemma task1_trained_ok : train two_batches task1_init = Ok task1_trained.
Proof. vm_compute. reflexivity. Defined.

Lemma set_input_stores_every_stream_witness :
  ∃ b, set_input (batch_of 4) task2_init = Ok (set_batch b task2_init) ∧
    length (real_A b) = 4%nat ∧
    py_index (real_A b) 2 = Ok (real_A_cur1 b).
Proof.
  destruct (set_input_stores_every_stream (batch_of 4) task2_init)
    as (b & Hin & HA & _ & _ & Hcur & _).
  - vm_compute. discriminate.
  - vm_compute. reflexivity.
  - exists b. split; [exact Hin|]. split; [|exact Hcur].
    apply Forall2_length in HA. rewrite <- HA. vm_compute. reflexivity.
Defined.

Lemma set_input_first_missing_key_witness :
  set_input incomplete_batch task2_init = Raise (KeyError "B_2").
Proof.
  destruct (set_input_first_missing_key incomplete_batch task2_init 2) as (_ & HB & _).
  - vm_compute. split; [discriminate|reflexivity].
  - vm_compute. reflexivity.
  - apply HB; vm_compute; reflexivity.
Defined.

Lemma set_input_needs_positive_task_witness :
  set_input (batch_of 4) task0_init = Raise IndexError.
Proof.
  apply (set_input_needs_positive_task (batch_of 4) task0_init).
  vm_compute. discriminate.
Defined.

Lemma optimize_parameters_returns_witness :
  ∃ m', optimize_parameters task2 = Ok m' ∧ rng m' = (rng task2 + 6)%nat.
Proof.
  destruct (optimize_parameters_returns _ _ _ Examples.task2_reachable)
    as (m' & H & Hrng & _).
  - reflexivity.
  - vm_compute. eexists. reflexivity.
  - exists m'. split; [exact H|exact Hrng].
Defined.

Lemma train_returns_witness :
  ∃ m, train three_batches task2_init = Ok m ∧ rng m = (rng task2_init + 18)%nat.
Proof.
  destruct (train_returns _ _ _ three_batches Examples.task2_init_ok)
    as (m & H & Hrng & _).
  - reflexivity.
  - vm_compute. discriminate.
  - repeat constructor; vm_compute; reflexivity.
  - exists m. split; [exact H|exact Hrng].
Defined.

Lemma optimize_parameters_needs_set_input_witness :
  optimize_parameters task2_init = Raise (AttributeError "real_A").
Proof.
  exact (proj2 (optimize_parameters_needs_set_input _ _ _ Examples.task2_init_ok)).
Defined.


Lemma optimize_parameters_at_test_time_witness :
  optimize_parameters tested_ready = Raise (AttributeError "netD").
Proof.
  assert (isTrain (opt tested_ready) = false) as Htr by (vm_compute; reflexivity).
  assert (forward tested_ready = Ok (the (forward tested_ready))) as Hf
    by (vm_compute; reflexivity).
  exact (proj2 (optimize_parameters_at_test_time tested_ready Htr) _ Hf).
Defined.

Lemma frozen_generator_idle_without_retention_witness :
  netG_prev task1_trained = netG_prev task1_init ∧
  occurrences (Called NetG_prev) (trace task1_trained) = 0%nat.
Proof.
  apply (frozen_generator_idle_without_retention _ _ _ two_batches _ task1_init_ok).
  - vm_compute. reflexivity.
  - exact task1_trained_ok.
Defined.

Lemma session_event_counts_witness :
  occurrences (Called NetG) (trace task2_trained) = 12%nat ∧
  occurrences (Called NetG_prev) (trace task2_trained) = 6%nat ∧
  occurrences (Step NetG) (trace task2_trained) = 3%nat ∧
  occurrences (Step NetG_prev) (trace task2_trained) = 0%nat.
Proof.
  destruct (session_event_counts _ _ _ _ _ Examples.task2_init_ok
              Examples.task2_trained_ok)
    as (H1 & H2 & _ & _ & _ & _ & _ & _ & H3 & H4 & _).
  split; [exact H1|]. split; [exact H2|]. split; [exact H3|exact H4].
Defined.

Lemma generator_gradient_rebuilt_each_cycle_witness :
  ∃ lg, losses_G task2_cycle = Some lg ∧
    grad (netG task2_cycle) =
      Some (accumulate (grad (netG task2) ≫= zeroed) (vjp (loss_G lg) NetG)) ∧
    grad (netG_prev task2_cycle) =
      Some (accumulate (grad (netG_prev task2)) (vjp (loss_G lg) NetG_prev)).
Proof.
  destruct (generator_gradient_rebuilt_each_cycle _ _ _ _ Examples.task2_reachable
              task2_cycle_ok) as (lg & Hlg & HG & HP & _).
  exists lg. split; [exact Hlg|]. split; [exact HG|]. apply HP. reflexivity.
Defined.

Lemma backward_D_first_entry_is_the_total_witness :
  ∃ ld f0 f1, losses_D (the (backward_D task2_forward)) = Some ld ∧
    loss_D_fake_all ld = Add f0 f1 ∧ loss_D_fake ld = [Add f0 f1; f1].
Proof.
  assert (backward_D task2_forward = Ok (the (backward_D task2_forward))) as H
    by (vm_compute; reflexivity).
  destruct (backward_D_first_entry_is_the_total _ _ H)
    as (ld & f0 & f1 & r0 & r1 & Hld & Hall & Hlist & _).
  exists ld, f0, f1. split; [exact Hld|]. split; [exact Hall|exact Hlist].
Defined.

Lemma backward_G_first_entry_is_the_total_witness :
  ∃ lg r, losses_G (the (backward_G task2_forward)) = Some lg ∧
    loss_G_GAN lg !! 0%nat = Some (loss_G_GAN_all lg) ∧
    reminding lg = Some r ∧
    loss_reminding_L1 r !! 0%nat = loss_reminding_L1_all r.
Proof.
  assert (backward_G task2_forward = Ok (the (backward_G task2_forward))) as H
    by (vm_compute; reflexivity).
  destruct (backward_G_first_entry_is_the_total _ _ H)
    as (lg & Hlg & HGAN & _ & _ & Hrem).
  destruct Hrem as (r & Hr & HL1 & _); [vm_compute; reflexivity|].
  exists lg, r. split; [exact Hlg|]. split; [exact HGAN|]. split; [exact Hr|exact HL1].
Defined.

Lemma load_prev_model_reads_only_the_entries_witness :
  load_prev_model disk task2_init = load_prev_model disk_without_metadata task2_init.
Proof.
  apply (load_prev_model_reads_only_the_entries disk disk_without_metadata task2_init).
  vm_compute. reflexivity.
Defined.

Lemma load_prev_model_copies_in_place_witness :
  ∃ c, disk !! checkpoint_path (opt task2_init) = Some c ∧
    weights (netG (the (load_prev_model disk task2_init))) = entries c ∧
    netD (the (load_prev_model disk task2_init)) = netD task2_init.
Proof.
  assert (load_prev_model disk task2_init = Ok (the (load_prev_model disk task2_init)))
    as H by (vm_compute; reflexivity).
  destruct (load_prev_model_copies_in_place _ _ _ H)
    as (c & Hc & _ & HG & _ & _ & _ & _ & _ & HD & _).
  exists c. split; [exact Hc|]. split; [exact HG|exact HD].
Defined.

Lemma announced_names_are_assigned_witness :
  is_Some (loss_attribute task2_cycle "reminding_L1_all") ∧
  is_Some (visual_attribute task2_cycle "fake_B_prev2").
Proof.
  destruct (announced_names_are_assigned _ _ _ _ Examples.task2_reachable task2_cycle_ok)
    as [Hloss Hvis].
  split.
  - apply Hloss. apply (bool_decide_eq_true_1 _). vm_compute. reflexivity.
  - apply Hvis. apply (bool_decide_eq_true_1 _). vm_compute. reflexivity.
Defined.

Lemma forward_generates_from_the_batch_witness :
  ∃ m1 out, forward task2 = Ok m1 ∧ outputs m1 = Some out ∧
    length (fake_B out) = 2%nat ∧ rng m1 = (rng task2 + 6)%nat.
Proof.
  assert (∃ b, batch task2 = Some b) as [b Hb] by (vm_compute; eexists; reflexivity).
  destruct (forward_generates_from_the_batch _ _ _ b Examples.task2_reachable Hb)
    as (m1 & out & a0 & a1 & Hf & Hout & _ & _ & HF & _ & _ & _ & _ & _ & _ & _ &
        Hrng & _).
  exists m1, out. split; [exact Hf|]. split; [exact Hout|].
  split; [by rewrite HF|exact Hrng].
Defined.

Lemma toggle_dropout_sets_every_dropout_witness :
  Forall2 (λ s s',
      class_of s' = class_of s ∧
      training s' = match class_of s with
                    | Dropout => false
                    | OtherModule _ => training s
                    end)
    unet (modules_of (toggle_dropout false two_generators).2).
Proof.
  apply (toggle_dropout_sets_every_dropout false two_generators
           (Bare unet) (toggle_dropout false two_generators).2).
  apply elem_of_cons. right. apply elem_of_cons. left. reflexivity.
Defined.
End Coverage.
